(** * life_simulation_v1: the simulation engine of [src/main.cpp]

    A shallow embedding of the double-buffered grid, the per-bot genome
    interpreter [ProcessBot], the tick scheduler [UpdateWorld], the world
    initialiser [InitWorld], the renderer [DrawWorld] and the frames of
    [main], followed by the properties of the engine.

    Conventions of the embedding.
    - [int] values (energy, organic, indices) are mathematical integers:
      signed overflow has no defined result in C++, so the model describes
      the executions in which no [int] operation overflows.  A theorem
      that states the value or the sign of a sum of energies or of organic
      levels carries the hypothesis that the operands and the sum are
      values of [int] ([INT_MIN], [INT_MAX], [is_int]); the statements
      about flags, indices and unchanged cells, and about the deductions
      from a positive energy, need none.  Division and remainder are the
      truncating [Z.quot] and [Z.rem] of C++.
    - [unsigned char] values are integers reduced modulo 256 on assignment
      ([to_uchar]).
    - A grid ([Cell*] into a vector of [WORLD_W * WORLD_H] cells) is a list
      of cells read and updated by index.  An access outside the array has
      no defined result in C++; the model reads a default-constructed cell
      and ignores the write.
    - The worker threads of one tick are run one after the other, in the
      order in which they are spawned, so that [UpdateWorld] sweeps the
      cells in index order.  The properties of a tick are proved for
      every order in which the cells can be processed one at a time
      ([cell_order]), and then read off for that sweep. *)

From Stdlib Require Import ZArith List Bool Lia.
From stdpp Require Import base list.

Local Open Scope Z_scope.

(** ** World constants *)

Definition WORLD_W : Z := 256.
Definition WORLD_H : Z := 128.
Definition GENOME_SIZE : Z := 64.

(** Number of cells of either buffer, [WORLD_W * WORLD_H]. *)
Definition NCELLS : Z := WORLD_W * WORLD_H.

(** ** Data model *)

Record Color := mkColor { col_r : Z; col_g : Z; col_b : Z; col_a : Z }.

Definition COLOR_BOT : Color := mkColor 0 255 0 255.
(** The colour literals assigned by opcodes 20 and 30. *)
Definition GREEN : Color := mkColor 0 255 0 255.
Definition RED : Color := mkColor 150 0 0 255.

Record Bot := mkBot {
  alive : bool;
  genome : list Z;
  ip : Z;
  dir : Z;
  energy : Z;
  color : Color
}.

Record Cell := mkCell { bot : Bot; organic : Z }.

Abbreviation Grid := (list Cell).

(** A value-initialised [Cell], as the vectors [gridA] and [gridB] hold
    before [InitWorld]. *)
Definition blank_bot : Bot :=
  mkBot false (replicate (Z.to_nat GENOME_SIZE) 0) 0 0 0 COLOR_BOT.
Definition blank_cell : Cell := mkCell blank_bot 0.

(** Conversion of an [int] to [unsigned char]. *)
Definition to_uchar (z : Z) : Z := z mod 256.

(** ** Array access *)

Definition arr_get {A} (dflt : A) (l : list A) (i : Z) : A :=
  default dflt (l !! Z.to_nat i).

(** [grid[i]] read. *)
Definition cell_at (grid : Grid) (i : Z) : Cell := arr_get blank_cell grid i.

(** [grid[i] = f(grid[i])]: in-place update of one cell. *)
Definition upd_cell (i : Z) (f : Cell -> Cell) (grid : Grid) : Grid :=
  alter f (Z.to_nat i) grid.

Definition map_bot (f : Bot -> Bot) (c : Cell) : Cell :=
  mkCell (f (bot c)) (organic c).
Definition map_organic (f : Z -> Z) (c : Cell) : Cell :=
  mkCell (bot c) (f (organic c)).

(** [grid[i].bot = f(grid[i].bot)]. *)
Definition upd_bot (i : Z) (f : Bot -> Bot) (grid : Grid) : Grid :=
  upd_cell i (map_bot f) grid.

Definition set_alive (a : bool) (b : Bot) : Bot :=
  mkBot a (genome b) (ip b) (dir b) (energy b) (color b).
Definition set_ip (i : Z) (b : Bot) : Bot :=
  mkBot (alive b) (genome b) i (dir b) (energy b) (color b).
Definition set_dir (d : Z) (b : Bot) : Bot :=
  mkBot (alive b) (genome b) (ip b) d (energy b) (color b).
(** [b.energy += d] as a sum of integers: it is the sum that the program
    computes when that sum is a value of [int], which the theorems that
    state a gain of energy assume. *)
Definition add_energy (d : Z) (b : Bot) : Bot :=
  mkBot (alive b) (genome b) (ip b) (dir b) (energy b + d) (color b).
Definition set_color (c : Color) (b : Bot) : Bot :=
  mkBot (alive b) (genome b) (ip b) (dir b) (energy b) c.

(** ** Direction tables and the toroidal neighbour *)

Definition DIR_X : list Z := [0; 1; 1; 1; 0; -1; -1; -1].
Definition DIR_Y : list Z := [-1; -1; 0; 1; 1; 1; 0; -1].

(** The index [nIdx] computed by opcode 40 for a bot at [idx] facing [d]. *)
Definition neighbour (idx d : Z) : Z :=
  let dx := arr_get 0 DIR_X d in
  let dy := arr_get 0 DIR_Y d in
  let nx := Z.rem (Z.rem idx WORLD_W + dx + WORLD_W) WORLD_W in
  let ny := Z.rem (Z.quot idx WORLD_W + dy + WORLD_H) WORLD_H in
  ny * WORLD_W + nx.

(** ** The bot virtual machine ([ProcessBot]) *)

(** The two buffers a tick works on: [readGrid] is the current grid,
    [writeGrid] the next one. *)
Record Grids := mkGrids { readGrid : Grid; writeGrid : Grid }.

(** The state of the instruction loop: the buffers and the two locals. *)
Record VM := mkVM {
  grids : Grids;
  commandsExecuted : Z;
  turnEnded : bool
}.

(** [nextBot] is a reference to [writeGrid[idx].bot]: it is read from the
    write grid at every use. *)
Definition nextBot (idx : Z) (w : Grid) : Bot := bot (cell_at w idx).

(** [bot.genome[nextBot.ip]], the genome being that of the read grid. *)
Definition fetch (idx : Z) (g : Grids) : Z :=
  arr_get 0 (genome (bot (cell_at (readGrid g) idx)))
          (ip (nextBot idx (writeGrid g))).

(** Opcodes 0-7: relative jump. *)
Definition op_jump (idx cmd : Z) (w : Grid) : Grid :=
  upd_bot idx (fun b => set_ip (to_uchar (Z.rem (ip b + cmd) GENOME_SIZE)) b) w.

(** Opcodes 10-15: turn. *)
Definition op_turn (idx cmd : Z) (w : Grid) : Grid :=
  upd_bot idx (fun b => set_dir (to_uchar (Z.rem (dir b + (cmd - 10)) 8)) b) w.

(** Opcode 20: photosynthesis. *)
Definition op_photo (idx : Z) (w : Grid) : Grid :=
  upd_bot idx (set_color GREEN) (upd_bot idx (add_energy 5) w).

(** Opcode 30: eat the organic matter of the own cell. *)
Definition op_eat (idx : Z) (r w : Grid) : Grid :=
  if 0 <? organic (cell_at r idx) then
    let eat := Z.min (organic (cell_at r idx)) 20 in
    let w1 := upd_bot idx (add_energy eat) w in
    let w2 := upd_cell idx (map_organic (fun o => o - eat)) w1 in
    upd_bot idx (set_color RED) w2
  else w.

(** Opcode 40: attack the neighbour or move into its cell. *)
Definition op_move (idx : Z) (r w : Grid) : Grid :=
  let nIdx := neighbour idx (dir (nextBot idx w)) in
  if alive (bot (cell_at r nIdx)) then
    upd_bot idx (add_energy (Z.quot (energy (bot (cell_at r nIdx))) 2)) w
  else if negb (alive (bot (cell_at w nIdx))) then
    let w1 := upd_bot nIdx (fun _ => nextBot idx w) w in
    let w2 := upd_bot idx (set_alive false) w1 in
    upd_bot idx (add_energy (-2)) w2
  else w.

(** Decoding of one command: the new write grid and whether the turn ends. *)
Definition exec_cmd (idx cmd : Z) (r w : Grid) : Grid * bool :=
  if cmd <? 8 then (op_jump idx cmd w, false)
  else if (10 <=? cmd) && (cmd <=? 15) then (op_turn idx cmd w, false)
  else if cmd =? 20 then (op_photo idx w, true)
  else if cmd =? 30 then (op_eat idx r w, true)
  else if cmd =? 40 then (op_move idx r w, true)
  else (w, false).

(** One iteration of the [while] loop: fetch, advance [ip], decode, count. *)
Definition vm_step (idx : Z) (s : VM) : VM :=
  let r := readGrid (grids s) in
  let w := writeGrid (grids s) in
  let cmd := fetch idx (grids s) in
  let w1 := upd_bot idx (fun b => set_ip (to_uchar (Z.rem (ip b + 1) GENOME_SIZE)) b) w in
  let '(w2, ended) := exec_cmd idx cmd r w1 in
  mkVM (mkGrids r w2) (commandsExecuted s + 1) (turnEnded s || ended).

(** The loop condition [commandsExecuted < 10 && !turnEnded]. *)
Definition loop_cond (s : VM) : bool :=
  (commandsExecuted s <? 10) && negb (turnEnded s).

(** The [while] loop, with fuel: [None] when the fuel runs out while the
    condition still holds. *)
Fixpoint vm_loop (fuel : nat) (idx : Z) (s : VM) : option VM :=
  if loop_cond s then
    match fuel with
    | O => None
    | S fuel' => vm_loop fuel' idx (vm_step idx s)
    end
  else Some s.

(** Fuel given to the loop by [ProcessBot]; [vm_loop_terminates] shows that
    it is never used up. *)
Definition VM_FUEL : nat := 10.

(** The state in which the loop is entered: the bot is copied into the
    write grid and both locals are reset. *)
Definition vm_init (idx : Z) (g : Grids) : VM :=
  let b := bot (cell_at (readGrid g) idx) in
  mkVM (mkGrids (readGrid g) (upd_bot idx (fun _ => b) (writeGrid g))) 0 false.

(** The state in which the loop is left. *)
Definition vm_run (idx : Z) (g : Grids) : VM :=
  match vm_loop VM_FUEL idx (vm_init idx g) with
  | Some s => s
  | None => vm_init idx g
  end.

(** Death handling, the first branch of [ProcessBot]; [organic += 50] is
    a sum of integers, the one of the program for a level of at most
    [INT_MAX - 50]. *)
Definition decompose (idx : Z) (w : Grid) : Grid :=
  upd_bot idx (set_alive false) (upd_cell idx (map_organic (fun o => o + 50)) w).

Definition ProcessBot (idx : Z) (g : Grids) : Grids :=
  if energy (bot (cell_at (readGrid g) idx)) <=? 0 then
    mkGrids (readGrid g) (decompose idx (writeGrid g))
  else
    let s := vm_run idx g in
    mkGrids (readGrid (grids s))
            (upd_bot idx (add_energy (-1)) (writeGrid (grids s))).

(** ** The tick scheduler ([UpdateWorld]) *)

(** [for (i = start; i < stop; i++) body(i)] over a state. *)
Definition for_range {S : Type} (start stop : Z) (body : Z -> S -> S) (s : S) : S :=
  fold_left (fun acc i => body i acc) (seqZ start (stop - start)) s.

(** The globals of the program: the two buffer pointers and the counter. *)
Record World := mkWorld {
  currentGrid : Grid;
  nextGrid : Grid;
  aliveCount : Z
}.

Definition INT_MAX : Z := 2147483647.
Definition INT_MIN : Z := -2147483648.

(** The values that an [int] holds. *)
Definition is_int (z : Z) : Prop := INT_MIN <= z <= INT_MAX.

(** Conversion of the [unsigned] result of [hardware_concurrency] to [int]. *)
Definition to_int (u : Z) : Z := if u <=? INT_MAX then u else u - 2 ^ 32.

(** The worker count chosen by [UpdateWorld] when the hardware reports [hc]. *)
Definition threadsCount (hc : Z) : Z :=
  let t := to_int hc in
  if t =? 0 then 4 else t.

(** Stage 0: one iteration of the loop that clears the bot layer of the
    write grid and carries the organic level over. *)
Definition prepare_cell (cur : Grid) (i : Z) (nxt : Grid) : Grid :=
  upd_cell i (map_organic (fun _ => organic (cell_at cur i)))
           (upd_bot i (set_alive false) nxt).

(** One iteration of the worker's loop.  [rand i] is the value that
    [GetRandomValue(0, 1000)] returns when cell [i] is found empty (every
    cell is visited once per tick).  [organic += 10] is a sum of integers,
    the one of the program for a level of at most [INT_MAX - 10]. *)
Definition worker_step (rand : Z -> Z) (i : Z) (st : Grids * Z) : Grids * Z :=
  let '(g, localAlive) := st in
  if alive (bot (cell_at (readGrid g) i)) then
    (ProcessBot i g, localAlive + 1)
  else if rand i >? 999 then
    (mkGrids (readGrid g)
             (upd_cell i (map_organic (fun o => o + 10)) (writeGrid g)),
     localAlive)
  else (g, localAlive).

(** [workerFunc(start, end)]; the second component is [aliveCount]. *)
Definition workerFunc (rand : Z -> Z) (start stop : Z) (st : Grids * Z) : Grids * Z :=
  let '(g, count) := st in
  let '(g', localAlive) := for_range start stop (worker_step rand) (g, 0) in
  (g', count + localAlive).

(** [chunkSize], and the range [start .. end) of worker [i] among [tc]
    workers. *)
Definition chunkSize (tc : Z) : Z := Z.quot NCELLS tc.
Definition chunk_start (tc i : Z) : Z := i * chunkSize tc.
Definition chunk_stop (tc i : Z) : Z :=
  if i =? tc - 1 then NCELLS else chunk_start tc i + chunkSize tc.

Definition UpdateWorld (rand : Z -> Z) (hc : Z) (wd : World) : World :=
  let tc := threadsCount hc in
  let nxt := for_range 0 NCELLS (prepare_cell (currentGrid wd)) (nextGrid wd) in
  let '(g, count) :=
    for_range 0 tc
      (fun i st => workerFunc rand (chunk_start tc i) (chunk_stop tc i) st)
      (mkGrids (currentGrid wd) nxt, 0) in
  mkWorld (writeGrid g) (readGrid g) count.

(** ** The world initialiser ([InitWorld]) *)

(** The generator [rng] seen through [byteDist]: the sequence of values it
    yields and the number of values drawn so far. *)
Record Rng := mkRng { draws : nat -> Z; drawn : nat }.

Definition byteDist (rng : Rng) : Z * Rng :=
  (draws rng (drawn rng), mkRng (draws rng) (S (drawn rng))).

Definition set_energy (e : Z) (b : Bot) : Bot :=
  mkBot (alive b) (genome b) (ip b) (dir b) e (color b).
Definition set_gene (g v : Z) (b : Bot) : Bot :=
  mkBot (alive b) (<[Z.to_nat g := v]> (genome b)) (ip b) (dir b) (energy b) (color b).

(** The spawn test [byteDist(rng) > 200]. *)
Definition spawns (d : Z) : bool := d >? 200.

Definition init_gene (i g : Z) (st : Grid * Rng) : Grid * Rng :=
  let '(d, rng) := byteDist (snd st) in
  (upd_bot i (set_gene g (to_uchar d)) (fst st), rng).

(** The body of the loop of [InitWorld] for cell [i]. *)
Definition init_cell (i : Z) (st : Grid * Rng) : Grid * Rng :=
  let '(d0, rng0) := byteDist (snd st) in
  let grid0 := upd_cell i (map_organic (fun _ => Z.rem d0 50)) (fst st) in
  let '(d1, rng1) := byteDist rng0 in
  if spawns d1 then
    let grid1 := upd_bot i (set_alive true) grid0 in
    let grid2 := upd_bot i (set_energy 500) grid1 in
    let '(d2, rng2) := byteDist rng1 in
    let grid3 := upd_bot i (set_dir (to_uchar (Z.rem d2 8))) grid2 in
    for_range 0 GENOME_SIZE (init_gene i) (grid3, rng2)
  else (grid0, rng1).

Definition InitWorld (ds : nat -> Z) (grid : Grid) : Grid :=
  fst (for_range 0 NCELLS init_cell (grid, mkRng ds 0)).

(** ** Observations used in the statements *)

(** Number of cells of a grid that hold a living bot. *)
Definition count_alive (grid : Grid) : nat :=
  length (List.filter (fun c => alive (bot c)) grid).

(** The state of the loop of [ProcessBot idx] after [k] iterations. *)
Definition state_after (k : nat) (idx : Z) (g : Grids) : VM :=
  Nat.iter k (vm_step idx) (vm_init idx g).

(** The bot at [idx] decodes command [c] in its iteration number [k]
    (counted from 0): the loop is still running then, and [c] is fetched. *)
Definition executes (idx : Z) (g : Grids) (k : nat) (c : Z) : Prop :=
  (k < 10)%nat /\
  turnEnded (state_after k idx g) = false /\
  fetch idx (grids (state_after k idx g)) = c.

(** The buffers of the program: both hold [NCELLS] cells. *)
Definition wf_grids (g : Grids) : Prop :=
  length (readGrid g) = Z.to_nat NCELLS /\
  length (writeGrid g) = Z.to_nat NCELLS.

(** The cells of a worker's sweep, without the counter. *)
Definition grid_step (rand : Z -> Z) (i : Z) (g : Grids) : Grids :=
  fst (worker_step rand i (g, 0)).

Definition sweep (rand : Z -> Z) (l : list Z) (g : Grids) : Grids :=
  fold_left (fun acc i => grid_step rand i acc) l g.

(** The buffers of the program before a tick. *)
Definition wf_world (wd : World) : Prop :=
  length (currentGrid wd) = Z.to_nat NCELLS /\
  length (nextGrid wd) = Z.to_nat NCELLS.

(** The buffers as [UpdateWorld] hands them to the workers: the current
    grid, and the next grid after stage 0. *)
Definition tick_grids (wd : World) : Grids :=
  mkGrids (currentGrid wd)
          (for_range 0 NCELLS (prepare_cell (currentGrid wd)) (nextGrid wd)).

(** An order in which the cells of the grid can be processed, each once. *)
Definition cell_order (l : list Z) : Prop := l ≡ₚ seqZ 0 NCELLS.

(** Number of cells of the list [l] that hold a living bot in [r]. *)
Definition alive_in (r : Grid) (l : list Z) : nat :=
  length (List.filter (fun i => alive (bot (cell_at r i))) l).

(** Jumps, turns and no-ops change the instruction pointer and the
    direction only. *)
Definition same_body (b b' : Bot) : Prop :=
  alive b' = alive b /\ genome b' = genome b /\
  energy b' = energy b /\ color b' = color b.

(** The bot as iteration [k] of its loop finds it in the write grid. *)
Definition bot_before (idx : Z) (g : Grids) (k : nat) : Bot :=
  nextBot idx (writeGrid (grids (state_after k idx g))).

(** The instruction pointer after the fetch of one command. *)
Definition advance (b : Bot) : Bot :=
  set_ip (to_uchar (Z.rem (ip b + 1) GENOME_SIZE)) b.

(** The cell that opcode 40 aims at when it is decoded in iteration [k]. *)
Definition target (idx : Z) (g : Grids) (k : nat) : Z :=
  neighbour idx (dir (bot_before idx g k)).

(** Writing genes changes the genome only. *)
Definition same_but_genome (b b' : Bot) : Prop :=
  alive b' = alive b /\ ip b' = ip b /\ dir b' = dir b /\
  energy b' = energy b /\ color b' = color b.

(** What [InitWorld] leaves in a cell that held [c0]: the organic level is
    a draw reduced modulo 50, and the next draw decides whether a bot with
    energy 500 and a drawn direction is placed. *)
Definition initialised (ds : nat -> Z) (c0 c : Cell) : Prop :=
  exists p : nat,
    organic c = Z.rem (ds p) 50 /\
    if spawns (ds (S p))
    then alive (bot c) = true /\ energy (bot c) = 500 /\
         dir (bot c) = to_uchar (Z.rem (ds (S (S p))) 8)
    else bot c = bot c0.

(** The invariant of the instruction loop of [ProcessBot idx] started on
    the buffers [g]: the read grid is untouched; in the write grid, cells
    other than [idx] keep their organic level, and keep everything when
    they hold a living bot in the read grid; at most one living bot has
    been added; the organic level at [idx] is the initial one, less what
    opcode 30 has eaten. *)
Definition run_inv (idx : Z) (g : Grids) (s : VM) : Prop :=
  readGrid (grids s) = readGrid g /\
  length (writeGrid (grids s)) = length (writeGrid g) /\
  (forall j, 0 <= j -> j <> idx -> alive (bot (cell_at (readGrid g) j)) = true ->
     cell_at (writeGrid (grids s)) j = cell_at (writeGrid g) j) /\
  (forall j, 0 <= j -> j <> idx ->
     organic (cell_at (writeGrid (grids s)) j) = organic (cell_at (writeGrid g) j)) /\
  (count_alive (writeGrid (grids s)) <= count_alive (writeGrid g) + 1)%nat /\
  (organic (cell_at (writeGrid (grids s)) idx) = organic (cell_at (writeGrid g) idx) \/
   (turnEnded s = true /\ 0 < organic (cell_at (readGrid g) idx) /\
    organic (cell_at (writeGrid (grids s)) idx) =
      organic (cell_at (writeGrid g) idx) -
      Z.min (organic (cell_at (readGrid g) idx)) 20)).

(** ** Concrete buffers and worlds *)

(** Concrete grids: a bot whose genome is opcode 40 throughout sits at
    cell 0 and faces east, towards cell 1. *)
Definition blank_grid : Grid := replicate (Z.to_nat NCELLS) blank_cell.
Definition hunter (e : Z) : Bot := mkBot true (replicate 64 40) 0 2 e COLOR_BOT.
Definition sitter (e : Z) : Bot := mkBot true (replicate 64 20) 0 0 e COLOR_BOT.
Definition lone_hunter : Grids :=
  mkGrids (<[0%nat := mkCell (hunter 500) 0]> blank_grid) blank_grid.
Definition hunter_and_prey (e ne : Z) : Grids :=
  mkGrids (<[1%nat := mkCell (sitter ne) 0]> (<[0%nat := mkCell (hunter e) 0]> blank_grid))
          blank_grid.
Definition hunter_blocked : Grids :=
  mkGrids (<[0%nat := mkCell (hunter 500) 0]> blank_grid)
          (<[1%nat := mkCell (sitter 300) 0]> blank_grid).

Definition grazer (e : Z) : Bot := mkBot true (replicate 64 30) 0 0 e COLOR_BOT.
(** A bot whose genome is opcode 30 throughout, on a cell with organic
    level [o] in both grids. *)
Definition pasture (e o : Z) : Grids :=
  mkGrids (<[0%nat := mkCell (grazer e) o]> blank_grid)
          (<[0%nat := mkCell blank_bot o]> blank_grid).

(** A bot whose genome is all zeros: every command is the jump [0]. *)
Definition idler : Bot := mkBot true (replicate 64 0) 0 0 500 COLOR_BOT.
Definition idle_grids : Grids :=
  mkGrids (<[0%nat := mkCell idler 0]> blank_grid) blank_grid.

(** A world with one bot, at cell 5, that has run out of energy. *)
Definition starved_bot : Bot :=
  mkBot true (replicate 64 20) 0 0 0 COLOR_BOT.
Definition starved_world : World :=
  mkWorld (<[5%nat := mkCell starved_bot 7]> (replicate (Z.to_nat NCELLS) blank_cell))
          (replicate (Z.to_nat NCELLS) blank_cell) 0.

(** ** Observations used in the further properties *)

(** A bot whose fields index the genome and the direction tables within
    their bounds, and whose genome is [GENOME_SIZE] bytes. *)
Definition wf_bot (b : Bot) : Prop :=
  0 <= ip b < GENOME_SIZE /\ 0 <= dir b < 8 /\
  length (genome b) = Z.to_nat GENOME_SIZE /\
  Forall (fun c => 0 <= c <= 255) (genome b).

(** The outcomes of one call [ProcessBot idx] on the buffers [g], as the
    write grid it leaves.  [bot_before idx g k] is the bot as the loop
    holds it when the command of iteration [k] is fetched, and [advance]
    of it the same bot once the instruction pointer has moved past that
    command; every outcome but [Died] includes the existence cost of 1.
    - [Died]: the bot has no energy left and decomposes.
    - [Idled]: none of the ten commands ends the turn; [me] is the bot
      after the tenth.
    - [Photosynthesised], [Ate], [Fasted]: opcode 20, and opcode 30 on a
      cell with and without organic matter.
    - [Attacked], [Moved], [Blocked]: opcode 40 towards a cell that holds
      a living bot in the read grid, in neither grid, or in the write grid
      only. *)
Inductive Outcome (idx : Z) (g : Grids) : Grid -> Prop :=
| Died :
    energy (bot (cell_at (readGrid g) idx)) <= 0 ->
    Outcome idx g (decompose idx (writeGrid g))
| Idled (me : Bot) :
    0 < energy (bot (cell_at (readGrid g) idx)) ->
    (forall k, (k <= 10)%nat -> turnEnded (state_after k idx g) = false) ->
    me = bot_before idx g 10 ->
    Outcome idx g (upd_bot idx (fun _ => add_energy (-1) me) (writeGrid g))
| Photosynthesised (k : nat) :
    0 < energy (bot (cell_at (readGrid g) idx)) ->
    executes idx g k 20 ->
    Outcome idx g
      (upd_bot idx
         (fun _ => add_energy (-1)
                     (set_color GREEN (add_energy 5 (advance (bot_before idx g k)))))
         (writeGrid g))
| Ate (k : nat) :
    0 < energy (bot (cell_at (readGrid g) idx)) ->
    executes idx g k 30 ->
    0 < organic (cell_at (readGrid g) idx) ->
    Outcome idx g
      (upd_cell idx
         (fun c =>
            mkCell
              (add_energy (-1)
                 (set_color RED
                    (add_energy (Z.min (organic (cell_at (readGrid g) idx)) 20)
                                (advance (bot_before idx g k)))))
              (organic c - Z.min (organic (cell_at (readGrid g) idx)) 20))
         (writeGrid g))
| Fasted (k : nat) :
    0 < energy (bot (cell_at (readGrid g) idx)) ->
    executes idx g k 30 ->
    organic (cell_at (readGrid g) idx) <= 0 ->
    Outcome idx g
      (upd_bot idx (fun _ => add_energy (-1) (advance (bot_before idx g k)))
               (writeGrid g))
| Attacked (k : nat) :
    0 < energy (bot (cell_at (readGrid g) idx)) ->
    executes idx g k 40 ->
    alive (bot (cell_at (readGrid g) (target idx g k))) = true ->
    Outcome idx g
      (upd_bot idx
         (fun _ =>
            add_energy
              (Z.quot (energy (bot (cell_at (readGrid g) (target idx g k)))) 2 - 1)
              (advance (bot_before idx g k)))
         (writeGrid g))
| Moved (k : nat) :
    0 < energy (bot (cell_at (readGrid g) idx)) ->
    executes idx g k 40 ->
    alive (bot (cell_at (readGrid g) (target idx g k))) = false ->
    alive (bot (cell_at (writeGrid g) (target idx g k))) = false ->
    Outcome idx g
      (upd_bot idx
         (fun _ => add_energy (-3) (set_alive false (advance (bot_before idx g k))))
         (upd_bot (target idx g k) (fun _ => advance (bot_before idx g k))
                  (writeGrid g)))
| Blocked (k : nat) :
    0 < energy (bot (cell_at (readGrid g) idx)) ->
    executes idx g k 40 ->
    alive (bot (cell_at (readGrid g) (target idx g k))) = false ->
    alive (bot (cell_at (writeGrid g) (target idx g k))) = true ->
    Outcome idx g
      (upd_bot idx (fun _ => add_energy (-1) (advance (bot_before idx g k)))
               (writeGrid g)).

(** A bot that carries the genome [G] and indexes it, and the direction
    tables, within bounds. *)
Definition in_bounds (G : list Z) (b : Bot) : Prop :=
  0 <= ip b < GENOME_SIZE /\ 0 <= dir b < 8 /\ genome b = G.

(** The bot [b'] that a turn makes of the living bot of cell [i] of the
    read grid [r]: it is alive and carries the same genome; it indexes
    within bounds when the bot it comes from does; a turn costs it at
    most one unit of energy when no living bot of [r] has negative energy
    (the gain of an attack is half the energy of the neighbour); and when
    the energy of every living bot of [r] lies between 0 and [cap], with
    [cap] at least 40, its energy is at most [cap + cap / 2]. *)
Definition heir (r : Grid) (i : Z) (b' : Bot) : Prop :=
  alive b' = true /\
  genome b' = genome (bot (cell_at r i)) /\
  (wf_bot (bot (cell_at r i)) -> wf_bot b') /\
  ((forall j, 0 <= j < NCELLS -> alive (bot (cell_at r j)) = true ->
      0 <= energy (bot (cell_at r j))) ->
   energy (bot (cell_at r i)) - 1 <= energy b') /\
  (forall cap, 40 <= cap ->
     (forall j, 0 <= j < NCELLS -> alive (bot (cell_at r j)) = true ->
        0 <= energy (bot (cell_at r j)) <= cap) ->
     energy b' <= cap + cap / 2).

(** The three shapes of the write grid after [ProcessBot i]: the corpse is
    cleared; the bot stays in its cell as [b'], having eaten [eaten] units
    of organic matter; or it leaves [v], not alive, behind and occupies the
    empty neighbour cell [t] as [b']. *)
Inductive Effect (i : Z) (g : Grids) : Grid -> Prop :=
| Cleared :
    energy (bot (cell_at (readGrid g) i)) <= 0 ->
    Effect i g (decompose i (writeGrid g))
| Stayed (b' : Bot) (eaten : Z) :
    0 < energy (bot (cell_at (readGrid g) i)) ->
    heir (readGrid g) i b' ->
    eaten = 0 \/
    (0 < organic (cell_at (readGrid g) i) /\
     eaten = Z.min (organic (cell_at (readGrid g) i)) 20) ->
    Effect i g
      (upd_cell i (fun c => mkCell b' (organic c - eaten)) (writeGrid g))
| Left (b' v : Bot) (t : Z) :
    0 < energy (bot (cell_at (readGrid g) i)) ->
    heir (readGrid g) i b' ->
    energy b' = energy (bot (cell_at (readGrid g) i)) ->
    alive v = false ->
    t <> i -> 0 <= t < NCELLS -> (exists d, t = neighbour i d) ->
    alive (bot (cell_at (readGrid g) t)) = false ->
    alive (bot (cell_at (writeGrid g) t)) = false ->
    Effect i g (upd_bot i (fun _ => v) (upd_bot t (fun _ => b') (writeGrid g))).

(** A cell whose bot is alive with energy left: the bots that [ProcessBot]
    lets live. *)
Definition fit (c : Cell) : bool := alive (bot c) && (0 <? energy (bot c)).

Definition count_fit (grid : Grid) : nat := length (List.filter fit grid).

(** Number of cells of the list [l] that hold such a bot in [r]. *)
Definition fit_in (r : Grid) (l : list Z) : nat :=
  length (List.filter (fun i => fit (cell_at r i)) l).

(** The bot [b'] of cell [j] comes from a living bot of the read grid [r]
    that had energy left, in the same cell or in a cell that has [j] as a
    neighbour. *)
Definition parented (r : Grid) (j : Z) (b' : Bot) : Prop :=
  exists i, 0 <= i < NCELLS /\
    alive (bot (cell_at r i)) = true /\ 0 < energy (bot (cell_at r i)) /\
    (j = i \/ exists d, j = neighbour i d) /\
    heir r i b'.

(** Every living bot of the grid indexes within bounds and has no negative
    energy. *)
Definition sound_grid (grid : Grid) : Prop :=
  forall j, 0 <= j < NCELLS -> alive (bot (cell_at grid j)) = true ->
    wf_bot (bot (cell_at grid j)) /\ 0 <= energy (bot (cell_at grid j)).

(** Every living bot of the grid has at most [cap] units of energy. *)
Definition capped_grid (cap : Z) (grid : Grid) : Prop :=
  forall j, 0 <= j < NCELLS -> alive (bot (cell_at grid j)) = true ->
    energy (bot (cell_at grid j)) <= cap.

(** A bound on the energy of a bot after [n] ticks from the 500 units that
    [InitWorld] gives: a tick adds at most half of the largest energy (an
    attack; photosynthesis and a meal add at most 20). *)
Fixpoint energy_cap (n : nat) : Z :=
  match n with
  | O => 500
  | S n' => let c := energy_cap n' in c + c / 2
  end.

(** No addition or subtraction of [ProcessBot idx] on the buffers [g]
    leaves the range of [int]: the energy of the bot leaves room for a
    meal and for half the energy of any other living bot, and the organic
    level of its cell of the write grid for a corpse and for a meal. *)
Definition turn_fits (idx : Z) (g : Grids) : Prop :=
  INT_MIN <= energy (bot (cell_at (readGrid g) idx)) <= INT_MAX - 20 /\
  INT_MIN + 20 <= organic (cell_at (writeGrid g) idx) <= INT_MAX - 50 /\
  forall j, 0 <= j < NCELLS -> j <> idx ->
    alive (bot (cell_at (readGrid g) j)) = true ->
    INT_MIN <= energy (bot (cell_at (readGrid g) j)) /\
    energy (bot (cell_at (readGrid g) idx)) +
      Z.quot (energy (bot (cell_at (readGrid g) j))) 2 <= INT_MAX.

(** The bytes that [m] consecutive calls of [byteDist] store, starting with
    the draw number [p]. *)
Definition genes (ds : nat -> Z) (p m : nat) : list Z :=
  List.map (fun n => to_uchar (ds (p + n)%nat)) (List.seq 0 m).

(** The draw with which [InitWorld] starts cell [i], when the cells before
    it hold [bots] living bots: two draws for every cell, and 65 more for
    every bot placed (the direction and the 64 genes). *)
Definition first_draw (i : Z) (bots : nat) : nat := (2 * Z.to_nat i + 65 * bots)%nat.

(** What [InitWorld] leaves in a cell that held [c0] and whose draws start
    at number [p]. *)
Definition placed (ds : nat -> Z) (p : nat) (c0 c : Cell) : Prop :=
  organic c = Z.rem (ds p) 50 /\
  if spawns (ds (S p))
  then bot c =
       mkBot true (genes ds (p + 3) 64 ++ drop 64 (genome (bot c0)))
             (ip (bot c0)) (to_uchar (Z.rem (ds (S (S p))) 8)) 500 (color (bot c0))
  else bot c = bot c0.

(** ** The renderer ([DrawWorld]) *)

(** The colour computed for one cell: the colour of its living bot, or a
    shade of its organic level.  [organic * 2] is a product of integers,
    the one of the program for a level below [2 ^ 30]. *)
Definition pixel (c : Cell) : Color :=
  if alive (bot c) then color (bot c)
  else
    let org := Z.min (organic c * 2) 255 in
    mkColor (to_uchar org) (to_uchar (Z.quot org 2)) 0 255.

(** The loop of [DrawWorld] over the pixel buffer of the image. *)
Definition DrawWorld (grid : Grid) (pixels : list Color) : list Color :=
  for_range 0 NCELLS
    (fun i px => <[Z.to_nat i := pixel (cell_at grid i)]> px) pixels.

(** ** The frames of [main] *)

(** The globals when [main] has called [InitWorld]: both vectors are
    value-initialised, [currentGrid] points to the first one. *)
Definition start_world (ds : nat -> Z) : World :=
  mkWorld (InitWorld ds blank_grid) blank_grid 0.

(** The world after [n] iterations of the loop of [main], which calls
    [UpdateWorld] once per frame: [rands k] are the values that
    [GetRandomValue] returns in frame [k], [hcs k] is what
    [hardware_concurrency] reports in that frame. *)
Fixpoint frames (rands : nat -> Z -> Z) (hcs : nat -> Z) (n : nat) (wd : World) : World :=
  match n with
  | O => wd
  | S n' => UpdateWorld (rands n') (hcs n') (frames rands hcs n' wd)
  end.

(** The cells handed to the workers, in the order in which they are
    spawned. *)
Definition worker_cells (tc : Z) : list Z :=
  flat_map (fun i => seqZ (chunk_start tc i) (chunk_stop tc i - chunk_start tc i))
           (seqZ 0 tc).

(** A world with one bot, at cell 0, that has energy left. *)
Definition hunter_world : World := mkWorld (readGrid lone_hunter) blank_grid 0.

(** * Array access *)

Section array.
Implicit Types (g : Grid) (f : Cell -> Cell) (i j : Z).

Lemma length_upd_cell i f g : length (upd_cell i f g) = length g.
Proof. apply length_alter. Qed.

Lemma length_upd_bot i h g : length (upd_bot i h g) = length g.
Proof. apply length_alter. Qed.

Lemma cell_at_upd_cell i j f g :
  0 <= i < Z.of_nat (length g) -> 0 <= j ->
  cell_at (upd_cell i f g) j = if i =? j then f (cell_at g j) else cell_at g j.
Proof.
  intros Hi Hj. unfold cell_at, arr_get, upd_cell.
  destruct (Z.eqb_spec i j) as [->|Hne].
  - rewrite list_lookup_alter_eq.
    destruct (lookup_lt_is_Some_2 g (Z.to_nat j)) as [c Hc]; [lia|].
    now rewrite Hc.
  - rewrite list_lookup_alter_ne by lia. reflexivity.
Qed.

Lemma cell_at_upd_bot i j h g :
  0 <= i < Z.of_nat (length g) -> 0 <= j ->
  cell_at (upd_bot i h g) j =
  if i =? j then map_bot h (cell_at g j) else cell_at g j.
Proof. apply cell_at_upd_cell. Qed.

Lemma cell_at_lookup g (n : nat) c :
  g !! n = Some c -> cell_at g (Z.of_nat n) = c.
Proof.
  intros H. unfold cell_at, arr_get. rewrite Nat2Z.id, H. reflexivity.
Qed.

(** A grid is determined by its cells. *)
Lemma grid_ext g1 g2 :
  length g1 = length g2 ->
  (forall j, 0 <= j < Z.of_nat (length g1) -> cell_at g1 j = cell_at g2 j) ->
  g1 = g2.
Proof.
  intros Hlen H. apply list_eq. intros n.
  destruct (g1 !! n) as [c1|] eqn:E1.
  - pose proof (lookup_lt_Some _ _ _ E1) as Hn.
    destruct (lookup_lt_is_Some_2 g2 n) as [c2 E2]; [lia|].
    rewrite E2. f_equal.
    rewrite <- (cell_at_lookup _ _ _ E1), <- (cell_at_lookup _ _ _ E2).
    apply H. lia.
  - symmetry. apply lookup_ge_None. apply lookup_ge_None in E1. lia.
Qed.

(** Each update moves the number of living bots by what it does to the
    updated cell. *)
Lemma count_alive_upd_cell i f g :
  (count_alive (upd_cell i f g) + Nat.b2n (alive (bot (cell_at g i))) =
   count_alive g + Nat.b2n (alive (bot (cell_at (upd_cell i f g) i))))%nat.
Proof.
  unfold upd_cell, cell_at, arr_get, count_alive.
  generalize (Z.to_nat i) as n. clear i.
  induction g as [|c g IH]; intros n; [reflexivity|].
  destruct n as [|n]; simpl.
  - destruct (alive (bot c)), (alive (bot (f c))); simpl; lia.
  - specialize (IH n). destruct (alive (bot c)); simpl; [f_equal|]; exact IH.
Qed.

Lemma count_alive_none g :
  (forall j, 0 <= j < Z.of_nat (length g) -> alive (bot (cell_at g j)) = false) ->
  count_alive g = 0%nat.
Proof.
  intros H. unfold count_alive.
  assert (Hall : Forall (fun c => alive (bot c) = false) g).
  { apply Forall_lookup_2. intros n c Hc.
    rewrite <- (cell_at_lookup _ _ _ Hc). apply H.
    apply lookup_lt_Some in Hc. lia. }
  clear H. induction Hall as [|c g Hc _ IH]; [reflexivity|].
  simpl. now rewrite Hc.
Qed.
End array.

(** * The toroidal neighbour stays on the grid *)

Section neighbour.
Lemma DIR_X_bound d : -1 <= arr_get 0 DIR_X d <= 1.
Proof.
  unfold arr_get, DIR_X. generalize (Z.to_nat d) as n. intros n.
  do 9 (destruct n as [|n]; [simpl; lia|]). simpl. lia.
Qed.

Lemma DIR_Y_bound d : -1 <= arr_get 0 DIR_Y d <= 1.
Proof.
  unfold arr_get, DIR_Y. generalize (Z.to_nat d) as n. intros n.
  do 9 (destruct n as [|n]; [simpl; lia|]). simpl. lia.
Qed.

Lemma neighbour_range idx d :
  0 <= idx < NCELLS -> 0 <= neighbour idx d < NCELLS.
Proof.
  unfold neighbour, NCELLS, WORLD_W, WORLD_H. intros Hidx.
  pose proof (DIR_X_bound d) as Hx. pose proof (DIR_Y_bound d) as Hy.
  set (dx := arr_get 0 DIR_X d) in *. set (dy := arr_get 0 DIR_Y d) in *.
  rewrite (Z.rem_mod_nonneg idx 256) by lia.
  rewrite (Z.quot_div_nonneg idx 256) by lia.
  assert (0 <= idx mod 256 < 256) by (apply Z.mod_pos_bound; lia).
  assert (0 <= idx / 256 < 128).
  { split; [apply Z.div_pos; lia | apply Z.div_lt_upper_bound; lia]. }
  rewrite !Z.rem_mod_nonneg by lia.
  assert (0 <= (idx mod 256 + dx + 256) mod 256 < 256)
    by (apply Z.mod_pos_bound; lia).
  assert (0 <= (idx / 256 + dy + 128) mod 128 < 128)
    by (apply Z.mod_pos_bound; lia).
  lia.
Qed.
End neighbour.

(** * One command *)

(** Rewriting of reads of updated grids, side conditions by [lia]. *)
Ltac upd_len :=
  cbv zeta; repeat first [rewrite length_upd_bot | rewrite length_upd_cell].
Ltac upd_read :=
  repeat first
    [ rewrite cell_at_upd_bot by (upd_len; lia)
    | rewrite cell_at_upd_cell by (upd_len; lia) ].

Section command.
Variables (idx : Z) (r w : Grid).
Hypothesis Hidx : 0 <= idx < NCELLS.
Hypothesis Hlen : Z.of_nat (length w) = NCELLS.

Lemma length_op_eat : length (op_eat idx r w) = length w.
Proof. unfold op_eat. destruct (0 <? _); now upd_len. Qed.

Lemma length_op_move : length (op_move idx r w) = length w.
Proof.
  unfold op_move.
  destruct (alive (bot (cell_at r _))); [now upd_len|].
  destruct (negb _); now upd_len.
Qed.

Lemma length_exec_cmd cmd : length (fst (exec_cmd idx cmd r w)) = length w.
Proof.
  unfold exec_cmd, op_jump, op_turn, op_photo.
  repeat match goal with |- context [if ?c then _ else _] => destruct c end;
    simpl; upd_len; auto using length_op_eat, length_op_move.
Qed.

(** The three outcomes of opcode 40. *)
Lemma op_move_cases :
  let me := nextBot idx w in
  let n := neighbour idx (dir me) in
  (alive (bot (cell_at r n)) = true /\
   op_move idx r w =
     upd_bot idx (add_energy (Z.quot (energy (bot (cell_at r n))) 2)) w) \/
  (alive (bot (cell_at r n)) = false /\ alive (bot (cell_at w n)) = false /\
   op_move idx r w =
     upd_bot idx (add_energy (-2))
       (upd_bot idx (set_alive false) (upd_bot n (fun _ => me) w))) \/
  (alive (bot (cell_at r n)) = false /\ alive (bot (cell_at w n)) = true /\
   op_move idx r w = w).
Proof.
  intros me n. unfold op_move. fold me. fold n.
  destruct (alive (bot (cell_at r n))); [left; auto|right].
  destruct (alive (bot (cell_at w n))); simpl; [right|left]; auto.
Qed.

(** A command writes its own cell and, when it relocates, the cell of the
    neighbour, which holds no living bot in the read grid. *)
Lemma exec_cmd_frame cmd j :
  0 <= j -> j <> idx -> alive (bot (cell_at r j)) = true ->
  cell_at (fst (exec_cmd idx cmd r w)) j = cell_at w j.
Proof.
  intros Hj Hne Hal.
  unfold exec_cmd, op_jump, op_turn, op_photo, op_eat.
  repeat match goal with |- context [if ?c then _ else _] => destruct c end;
    simpl; upd_read;
    repeat match goal with |- context [?a =? ?b] =>
      destruct (Z.eqb_spec a b); try lia end; auto.
  destruct op_move_cases as [(_ & ->)|[(Hr & _ & ->)|(_ & _ & ->)]]; auto.
  - upd_read. destruct (Z.eqb_spec idx j); [lia|auto].
  - pose proof (neighbour_range idx (dir (nextBot idx w)) Hidx).
    upd_read. destruct (Z.eqb_spec idx j); [lia|].
    destruct (Z.eqb_spec (neighbour idx (dir (nextBot idx w))) j); auto.
    subst j. congruence.
Qed.

(** Organic matter is only ever written at the bot's own index. *)
Lemma exec_cmd_organic_frame cmd j :
  0 <= j -> j <> idx ->
  organic (cell_at (fst (exec_cmd idx cmd r w)) j) = organic (cell_at w j).
Proof.
  intros Hj Hne.
  unfold exec_cmd, op_jump, op_turn, op_photo, op_eat.
  repeat match goal with |- context [if ?c then _ else _] => destruct c end;
    simpl; upd_read;
    repeat match goal with |- context [?a =? ?b] =>
      destruct (Z.eqb_spec a b); try lia end; auto.
  destruct op_move_cases as [(_ & ->)|[(Hr & _ & ->)|(_ & _ & ->)]]; auto.
  - upd_read. destruct (Z.eqb_spec idx j); [lia|auto].
  - pose proof (neighbour_range idx (dir (nextBot idx w)) Hidx).
    upd_read. destruct (Z.eqb_spec idx j); [lia|].
    destruct (Z.eqb_spec (neighbour idx (dir (nextBot idx w))) j); auto.
Qed.

(** At the own index a command leaves the organic level alone, except
    that opcode 30 removes what it eats. *)
Lemma exec_cmd_organic_own cmd :
  organic (cell_at (fst (exec_cmd idx cmd r w)) idx) = organic (cell_at w idx) \/
  (snd (exec_cmd idx cmd r w) = true /\ 0 < organic (cell_at r idx) /\
   organic (cell_at (fst (exec_cmd idx cmd r w)) idx) =
   organic (cell_at w idx) - Z.min (organic (cell_at r idx)) 20).
Proof.
  unfold exec_cmd, op_jump, op_turn, op_photo, op_eat.
  repeat match goal with |- context [if ?c then _ else _] =>
    destruct c eqn:? end;
    simpl; upd_read; rewrite ?Z.eqb_refl; simpl; auto.
  - right. split; [reflexivity|]. split; [lia|reflexivity].
  - left.
    destruct op_move_cases as [(_ & ->)|[(Hr & _ & ->)|(_ & _ & ->)]]; auto.
    + upd_read. rewrite Z.eqb_refl. reflexivity.
    + pose proof (neighbour_range idx (dir (nextBot idx w)) Hidx).
      upd_read. rewrite Z.eqb_refl. simpl.
      destruct (_ =? idx); reflexivity.
Qed.
End command.

(** * Counting living bots across a command *)

Section counting.
Lemma alive_upd_cell_own i f (g : Grid) :
  alive (bot (cell_at (upd_cell i f g) i)) =
  match g !! Z.to_nat i with
  | Some c => alive (bot (f c))
  | None => false
  end.
Proof.
  unfold cell_at, arr_get, upd_cell. rewrite list_lookup_alter_eq.
  destruct (g !! Z.to_nat i); reflexivity.
Qed.

Lemma count_alive_upd_cell_keep i f (g : Grid) :
  (forall c, alive (bot (f c)) = alive (bot c)) ->
  count_alive (upd_cell i f g) = count_alive g.
Proof.
  intros Hf. pose proof (count_alive_upd_cell i f g) as H.
  rewrite alive_upd_cell_own in H. unfold cell_at, arr_get in H.
  destruct (g !! Z.to_nat i) as [c|]; simpl in H; [rewrite Hf in H|]; lia.
Qed.

Lemma count_alive_upd_bot_keep i h (g : Grid) :
  (forall b, alive (h b) = alive b) ->
  count_alive (upd_bot i h g) = count_alive g.
Proof. intros Hh. apply count_alive_upd_cell_keep. intros c. apply Hh. Qed.

(** Clearing a flag never adds a living bot. *)
Lemma count_alive_clear i (g : Grid) :
  (count_alive (upd_bot i (set_alive false) g) +
   Nat.b2n (alive (bot (cell_at g i))) = count_alive g)%nat.
Proof.
  pose proof (count_alive_upd_cell i (map_bot (set_alive false)) g) as H.
  rewrite alive_upd_cell_own in H. unfold upd_bot.
  destruct (g !! Z.to_nat i); simpl in H; lia.
Qed.

(** Overwriting a bot adds at most one living bot. *)
Lemma count_alive_overwrite i b (g : Grid) :
  (count_alive (upd_bot i (fun _ => b) g) + Nat.b2n (alive (bot (cell_at g i)))
   <= count_alive g + Nat.b2n (alive b))%nat.
Proof.
  pose proof (count_alive_upd_cell i (map_bot (fun _ => b)) g) as H.
  rewrite alive_upd_cell_own in H. unfold upd_bot.
  destruct (g !! Z.to_nat i); simpl in H; destruct (alive b); simpl in *; lia.
Qed.

Variables (idx : Z) (r w : Grid).
Hypothesis Hidx : 0 <= idx < NCELLS.
Hypothesis Hlen : Z.of_nat (length w) = NCELLS.

Lemma count_alive_op_move :
  (count_alive (op_move idx r w) <= count_alive w)%nat.
Proof.
  destruct (op_move_cases idx r w) as [(_ & ->)|[(_ & Hw & ->)|(_ & _ & ->)]];
    [| |lia].
  { rewrite count_alive_upd_bot_keep by reflexivity. lia. }
  set (me := nextBot idx w) in *. set (n := neighbour idx (dir me)) in *.
  pose proof (neighbour_range idx (dir me) Hidx) as Hn. fold n in Hn.
  rewrite count_alive_upd_bot_keep by reflexivity.
  pose proof (count_alive_clear idx (upd_bot n (fun _ => me) w)) as H1.
  pose proof (count_alive_overwrite n me w) as H2.
  rewrite Hw in H2. simpl in H2.
  assert (alive (bot (cell_at (upd_bot n (fun _ => me) w) idx)) = alive me) as E.
  { upd_read. destruct (n =? idx); reflexivity. }
  rewrite E in H1. lia.
Qed.

Lemma count_alive_exec_cmd cmd :
  (count_alive (fst (exec_cmd idx cmd r w)) <= count_alive w)%nat.
Proof.
  unfold exec_cmd, op_jump, op_turn, op_photo, op_eat.
  repeat match goal with |- context [if ?c then _ else _] => destruct c end;
    simpl;
    rewrite ?count_alive_upd_bot_keep, ?count_alive_upd_cell_keep,
            ?count_alive_upd_bot_keep by reflexivity;
    auto using count_alive_op_move.
Qed.
End counting.

(** * The instruction loop *)

Section loop.
Variable idx : Z.
Hypothesis Hidx : 0 <= idx < NCELLS.

Lemma vm_step_readGrid s : readGrid (grids (vm_step idx s)) = readGrid (grids s).
Proof. unfold vm_step. destruct (exec_cmd _ _ _ _). reflexivity. Qed.

Lemma vm_step_writeGrid s :
  writeGrid (grids (vm_step idx s)) =
  fst (exec_cmd idx (fetch idx (grids s)) (readGrid (grids s))
         (upd_bot idx (fun b => set_ip (to_uchar (Z.rem (ip b + 1) GENOME_SIZE)) b)
                  (writeGrid (grids s)))).
Proof. unfold vm_step. destruct (exec_cmd _ _ _ _). reflexivity. Qed.

Lemma vm_step_commandsExecuted s :
  commandsExecuted (vm_step idx s) = commandsExecuted s + 1.
Proof. unfold vm_step. destruct (exec_cmd _ _ _ _). reflexivity. Qed.

Lemma vm_step_turnEnded s :
  turnEnded (vm_step idx s) =
  turnEnded s ||
  snd (exec_cmd idx (fetch idx (grids s)) (readGrid (grids s))
         (upd_bot idx (fun b => set_ip (to_uchar (Z.rem (ip b + 1) GENOME_SIZE)) b)
                  (writeGrid (grids s)))).
Proof. unfold vm_step. destruct (exec_cmd _ _ _ _). reflexivity. Qed.

Lemma vm_step_length s :
  length (writeGrid (grids (vm_step idx s))) = length (writeGrid (grids s)).
Proof. rewrite vm_step_writeGrid, length_exec_cmd. now upd_len. Qed.

(** Whether a command ends the turn depends on the command alone. *)
Lemma exec_cmd_ends cmd r w :
  snd (exec_cmd idx cmd r w) = (cmd =? 20) || (cmd =? 30) || (cmd =? 40).
Proof.
  unfold exec_cmd.
  destruct (Z.ltb_spec cmd 8), (Z.leb_spec 10 cmd), (Z.leb_spec cmd 15),
    (Z.eqb_spec cmd 20), (Z.eqb_spec cmd 30), (Z.eqb_spec cmd 40);
    simpl; auto; lia.
Qed.

(** An invariant of the loop body holds when the loop is left. *)
Lemma vm_loop_invariant (P : VM -> Prop) :
  (forall s, loop_cond s = true -> P s -> P (vm_step idx s)) ->
  forall fuel s s', P s -> vm_loop fuel idx s = Some s' -> P s'.
Proof.
  intros Hstep fuel. induction fuel as [|fuel IH]; intros s s' Hs; simpl.
  - destruct (loop_cond s); [discriminate|]. now intros [= <-].
  - destruct (loop_cond s) eqn:Hc; [|now intros [= <-]].
    apply IH. now apply Hstep.
Qed.

Lemma vm_run_invariant (P : VM -> Prop) g :
  (forall s, loop_cond s = true -> P s -> P (vm_step idx s)) ->
  P (vm_init idx g) -> P (vm_run idx g).
Proof.
  intros Hstep H0. unfold vm_run.
  destruct (vm_loop VM_FUEL idx (vm_init idx g)) as [s'|] eqn:E; [|exact H0].
  eapply vm_loop_invariant; eauto.
Qed.
End loop.

(** * Termination of the loop and the shape of a run *)

Section run.
Variable idx : Z.

Lemma state_after_S k g :
  state_after (S k) idx g = vm_step idx (state_after k idx g).
Proof. reflexivity. Qed.

Lemma state_after_commandsExecuted k g :
  commandsExecuted (state_after k idx g) = Z.of_nat k.
Proof.
  induction k as [|k IH]; [reflexivity|].
  rewrite state_after_S, vm_step_commandsExecuted, IH. lia.
Qed.

Lemma state_after_readGrid k g :
  readGrid (grids (state_after k idx g)) = readGrid g.
Proof.
  induction k as [|k IH]; [reflexivity|].
  now rewrite state_after_S, vm_step_readGrid.
Qed.

(** Once the turn has ended it stays ended. *)
Lemma state_after_turnEnded_mono j k g :
  (j <= k)%nat ->
  turnEnded (state_after k idx g) = false ->
  turnEnded (state_after j idx g) = false.
Proof.
  induction 1 as [|k Hle IH]; [auto|].
  rewrite state_after_S, vm_step_turnEnded. intros H.
  apply orb_false_iff in H. tauto.
Qed.

(** With fuel for the iterations that the counter still allows, the loop
    returns, and it has run the body [m] times for some [m] within that
    allowance. *)
Lemma vm_loop_terminates fuel s :
  10 - commandsExecuted s <= Z.of_nat fuel ->
  exists m : nat,
    Z.of_nat m <= Z.max 0 (10 - commandsExecuted s) /\
    vm_loop fuel idx s = Some (Nat.iter m (vm_step idx) s) /\
    loop_cond (Nat.iter m (vm_step idx) s) = false /\
    (forall j, (j < m)%nat -> loop_cond (Nat.iter j (vm_step idx) s) = true).
Proof.
  revert s. induction fuel as [|fuel IH]; intros s Hfuel.
  - exists 0%nat. simpl.
    assert (loop_cond s = false) as ->.
    { unfold loop_cond. destruct (Z.ltb_spec (commandsExecuted s) 10); [lia|auto]. }
    repeat split; [lia|lia].
  - simpl. destruct (loop_cond s) eqn:Hc.
    + destruct (IH (vm_step idx s)) as (m & Hm & Hrun & Hend & Hbefore).
      { rewrite vm_step_commandsExecuted. lia. }
      assert (commandsExecuted s < 10).
      { unfold loop_cond in Hc. apply andb_true_iff in Hc as [Hc _]. lia. }
      rewrite vm_step_commandsExecuted in Hm.
      exists (S m). rewrite !Nat.iter_succ_r. repeat split; auto; [lia|].
      intros [|j] Hj; [exact Hc|]. rewrite Nat.iter_succ_r. apply Hbefore. lia.
    + exists 0%nat. simpl. repeat split; auto; lia.
Qed.

(** More fuel does not change the result of a loop that returned. *)
Lemma vm_loop_more_fuel fuel fuel' s s' :
  (fuel <= fuel')%nat ->
  vm_loop fuel idx s = Some s' -> vm_loop fuel' idx s = Some s'.
Proof.
  revert fuel' s. induction fuel as [|fuel IH]; intros fuel' s Hle; simpl.
  - destruct (loop_cond s) eqn:Hc; [discriminate|].
    intros H. destruct fuel'; simpl; now rewrite Hc.
  - destruct (loop_cond s) eqn:Hc.
    + destruct fuel' as [|fuel']; [lia|]. simpl. rewrite Hc. apply IH. lia.
    + intros H. destruct fuel'; simpl; now rewrite Hc.
Qed.

(** [ProcessBot] leaves the loop after at most 10 iterations. *)
Lemma vm_run_spec g :
  exists m : nat,
    (m <= 10)%nat /\
    vm_loop VM_FUEL idx (vm_init idx g) = Some (state_after m idx g) /\
    vm_run idx g = state_after m idx g /\
    loop_cond (state_after m idx g) = false /\
    (forall j, (j < m)%nat -> loop_cond (state_after j idx g) = true).
Proof.
  destruct (vm_loop_terminates VM_FUEL (vm_init idx g)) as (m & Hm & Hrun & Hend & Hb).
  { unfold VM_FUEL, vm_init. simpl. lia. }
  exists m. unfold vm_init in Hm. simpl in Hm. unfold vm_run. rewrite Hrun.
  repeat split; auto. lia.
Qed.

(** A run whose iteration [k] decodes a turn-ending command stops right
    after that iteration. *)
Lemma vm_run_ends g k c :
  executes idx g k c -> c = 20 \/ c = 30 \/ c = 40 ->
  vm_run idx g = vm_step idx (state_after k idx g).
Proof.
  intros (Hk & Hnot & Hfetch) Hc.
  destruct (vm_run_spec g) as (m & Hm & _ & Hrun & Hend & Hbefore).
  rewrite Hrun. clear Hrun.
  assert (turnEnded (state_after (S k) idx g) = true) as Hended.
  { rewrite state_after_S, vm_step_turnEnded, exec_cmd_ends, Hfetch, Hnot.
    destruct Hc as [-> | [-> | ->]]; reflexivity. }
  assert (loop_cond (state_after (S k) idx g) = false) as Hstop.
  { unfold loop_cond. rewrite Hended. apply andb_false_r. }
  assert (forall j, (j <= k)%nat -> loop_cond (state_after j idx g) = true) as Hgo.
  { intros j Hj. unfold loop_cond.
    rewrite state_after_commandsExecuted,
      (state_after_turnEnded_mono j k g Hj Hnot).
    destruct (Z.ltb_spec (Z.of_nat j) 10); [reflexivity|lia]. }
  assert (m = S k) as ->; [|reflexivity].
  destruct (Nat.lt_trichotomy m (S k)) as [Hlt|[Heq|Hgt]]; [|exact Heq|].
  - rewrite Hgo in Hend by lia. discriminate.
  - rewrite Hbefore in Hstop by lia. discriminate.
Qed.
End run.

(** * What one call of [ProcessBot] can change *)

Lemma wf_grids_length g :
  wf_grids g ->
  Z.of_nat (length (readGrid g)) = NCELLS /\ Z.of_nat (length (writeGrid g)) = NCELLS.
Proof.
  intros [-> ->]. rewrite Z2Nat.id; [auto|]. unfold NCELLS, WORLD_W, WORLD_H. lia.
Qed.

Section process.
Variables (idx : Z) (g : Grids).
Hypothesis Hidx : 0 <= idx < NCELLS.
Hypothesis Hwf : wf_grids g.

Let o := organic (cell_at (writeGrid g) idx).
Let ro := organic (cell_at (readGrid g) idx).

Lemma run_inv_init : run_inv idx g (vm_init idx g).
Proof.
  destruct (wf_grids_length g Hwf) as [_ Hl]. unfold run_inv, vm_init. simpl.
  split; [reflexivity|]. split; [now upd_len|].
  split; [|split; [|split]].
  - intros j Hj Hne _. upd_read. destruct (Z.eqb_spec idx j); [lia|auto].
  - intros j Hj Hne. upd_read. destruct (Z.eqb_spec idx j); [lia|auto].
  - pose proof (count_alive_overwrite idx (bot (cell_at (readGrid g) idx)) (writeGrid g)).
    destruct (alive (bot (cell_at (readGrid g) idx))); simpl in *; lia.
  - left. upd_read. rewrite Z.eqb_refl. reflexivity.
Qed.

Lemma run_inv_step s :
  loop_cond s = true -> run_inv idx g s -> run_inv idx g (vm_step idx s).
Proof.
  destruct (wf_grids_length g Hwf) as [_ Hl].
  intros Hc (Hr & Hlen & Hfr & Hofr & Hcnt & Hown).
  assert (turnEnded s = false) as Hnot.
  { unfold loop_cond in Hc. apply andb_true_iff in Hc as [_ Hc].
    now apply negb_true_iff in Hc. }
  set (w1 := upd_bot idx (fun b => set_ip (to_uchar (Z.rem (ip b + 1) GENOME_SIZE)) b)
                     (writeGrid (grids s))).
  assert (Z.of_nat (length w1) = NCELLS) as Hl1.
  { unfold w1. upd_len. now rewrite Hlen. }
  assert (forall j, 0 <= j -> j <> idx -> cell_at w1 j = cell_at (writeGrid (grids s)) j)
    as Hw1.
  { intros j Hj Hne. unfold w1. upd_read.
    destruct (Z.eqb_spec idx j); [lia|reflexivity]. }
  unfold run_inv.
  rewrite vm_step_readGrid, vm_step_length, vm_step_writeGrid, vm_step_turnEnded.
  fold w1. rewrite Hr.
  split; [reflexivity|]. split; [exact Hlen|]. split; [|split; [|split]].
  - intros j Hj Hne Hal.
    rewrite exec_cmd_frame, Hw1 by auto. now apply Hfr.
  - intros j Hj Hne.
    rewrite exec_cmd_organic_frame, Hw1 by auto. now apply Hofr.
  - pose proof (count_alive_exec_cmd idx (readGrid g) w1 Hidx Hl1
                  (fetch idx (grids s))) as H1.
    assert (count_alive w1 = count_alive (writeGrid (grids s))) as H2
      by (apply count_alive_upd_bot_keep; reflexivity).
    lia.
  - assert (organic (cell_at w1 idx) = o) as Ho.
    { unfold w1. upd_read. rewrite Z.eqb_refl. simpl.
      destruct Hown as [H|(H & _)]; [exact H|congruence]. }
    destruct (exec_cmd_organic_own idx (readGrid g) w1 Hidx Hl1
                (fetch idx (grids s))) as [H|(He & Hpos & H)].
    + left. now rewrite H.
    + right. rewrite He, H, Ho, orb_true_r. auto.
Qed.

Lemma vm_run_inv : run_inv idx g (vm_run idx g).
Proof.
  apply vm_run_invariant; [apply run_inv_step|apply run_inv_init].
Qed.

Lemma ProcessBot_readGrid : readGrid (ProcessBot idx g) = readGrid g.
Proof.
  unfold ProcessBot. destruct (_ <=? 0); [reflexivity|]. cbn zeta beta iota delta [writeGrid readGrid].
  apply vm_run_inv.
Qed.

Lemma ProcessBot_length :
  length (writeGrid (ProcessBot idx g)) = length (writeGrid g).
Proof.
  unfold ProcessBot, decompose. destruct (_ <=? 0); cbn zeta beta iota delta [writeGrid readGrid]; upd_len; [reflexivity|].
  apply vm_run_inv.
Qed.

Lemma ProcessBot_wf : wf_grids (ProcessBot idx g).
Proof.
  unfold wf_grids. rewrite ProcessBot_readGrid, ProcessBot_length. exact Hwf.
Qed.

(** Cells other than [idx] that hold a living bot in the read grid are
    not written. *)
Lemma ProcessBot_frame j :
  0 <= j -> j <> idx -> alive (bot (cell_at (readGrid g) j)) = true ->
  cell_at (writeGrid (ProcessBot idx g)) j = cell_at (writeGrid g) j.
Proof.
  destruct (wf_grids_length g Hwf) as [_ Hl]. intros Hj Hne Hal.
  destruct vm_run_inv as (_ & Hlen & Hfr & _).
  unfold ProcessBot, decompose. destruct (_ <=? 0); cbn zeta beta iota delta [writeGrid readGrid].
  - upd_read. destruct (Z.eqb_spec idx j); [lia|reflexivity].
  - rewrite cell_at_upd_bot by (rewrite ?Hlen; lia).
    destruct (Z.eqb_spec idx j); [lia|]. now apply Hfr.
Qed.

(** The organic level of every other cell is left alone. *)
Lemma ProcessBot_organic_frame j :
  0 <= j -> j <> idx ->
  organic (cell_at (writeGrid (ProcessBot idx g)) j) =
  organic (cell_at (writeGrid g) j).
Proof.
  destruct (wf_grids_length g Hwf) as [_ Hl]. intros Hj Hne.
  destruct vm_run_inv as (_ & Hlen & _ & Hofr & _).
  unfold ProcessBot, decompose. destruct (_ <=? 0); cbn zeta beta iota delta [writeGrid readGrid].
  - upd_read. destruct (Z.eqb_spec idx j); [lia|reflexivity].
  - rewrite cell_at_upd_bot by (rewrite ?Hlen; lia).
    destruct (Z.eqb_spec idx j); [lia|]. now apply Hofr.
Qed.

(** The organic level of the own cell: a corpse adds 50, a meal removes
    what is eaten, nothing else changes it. *)
Lemma ProcessBot_organic_own :
  let o' := organic (cell_at (writeGrid (ProcessBot idx g)) idx) in
  o' = o + 50 \/ o' = o \/ (0 < ro /\ o' = o - Z.min ro 20).
Proof.
  destruct (wf_grids_length g Hwf) as [_ Hl]. cbv zeta.
  destruct vm_run_inv as (_ & Hlen & _ & _ & _ & Hown).
  unfold ProcessBot, decompose. destruct (_ <=? 0); cbn zeta beta iota delta [writeGrid readGrid].
  - left. upd_read. rewrite Z.eqb_refl. reflexivity.
  - right. rewrite cell_at_upd_bot by (rewrite ?Hlen; lia).
    rewrite Z.eqb_refl. simpl. tauto.
Qed.

(** One call adds at most one living bot to the write grid. *)
Lemma ProcessBot_count :
  (count_alive (writeGrid (ProcessBot idx g)) <= count_alive (writeGrid g) + 1)%nat.
Proof.
  destruct vm_run_inv as (_ & _ & _ & _ & Hcnt & _).
  unfold ProcessBot, decompose. destruct (_ <=? 0); cbn zeta beta iota delta [writeGrid readGrid].
  - pose proof (count_alive_clear idx
      (upd_cell idx (map_organic (fun o => o + 50)) (writeGrid g))) as H.
    rewrite count_alive_upd_cell_keep in H by reflexivity. lia.
  - rewrite count_alive_upd_bot_keep by reflexivity. exact Hcnt.
Qed.

(** Death handling. *)
Lemma ProcessBot_dead :
  energy (bot (cell_at (readGrid g) idx)) <= 0 ->
  cell_at (writeGrid (ProcessBot idx g)) idx =
  mkCell (set_alive false (bot (cell_at (writeGrid g) idx))) (o + 50).
Proof.
  destruct (wf_grids_length g Hwf) as [_ Hl]. intros He.
  unfold ProcessBot, decompose.
  destruct (Z.leb_spec (energy (bot (cell_at (readGrid g) idx))) 0); [|lia].
  cbn zeta beta iota delta [writeGrid readGrid]. upd_read. rewrite Z.eqb_refl. reflexivity.
Qed.
End process.

(** * One cell of a worker's sweep *)

Section grid_step.
Variables (rand : Z -> Z) (i : Z) (g : Grids).
Hypothesis Hi : 0 <= i < NCELLS.
Hypothesis Hwf : wf_grids g.

Lemma worker_step_fst c : fst (worker_step rand i (g, c)) = grid_step rand i g.
Proof.
  unfold grid_step, worker_step.
  destruct (alive _); [reflexivity|]. destruct (_ >? _); reflexivity.
Qed.

Lemma grid_step_cases :
  (alive (bot (cell_at (readGrid g) i)) = true /\
   grid_step rand i g = ProcessBot i g) \/
  (alive (bot (cell_at (readGrid g) i)) = false /\
   grid_step rand i g =
     mkGrids (readGrid g)
             (upd_cell i (map_organic (fun o => o + 10)) (writeGrid g))) \/
  (alive (bot (cell_at (readGrid g) i)) = false /\ grid_step rand i g = g).
Proof.
  unfold grid_step, worker_step.
  destruct (alive _); [left; auto|right].
  destruct (_ >? _); [left|right]; auto.
Qed.

Lemma grid_step_readGrid : readGrid (grid_step rand i g) = readGrid g.
Proof.
  destruct grid_step_cases as [(_ & ->)|[(_ & ->)|(_ & ->)]]; auto.
  now apply ProcessBot_readGrid.
Qed.

Lemma grid_step_wf : wf_grids (grid_step rand i g).
Proof.
  destruct grid_step_cases as [(_ & ->)|[(_ & ->)|(_ & ->)]]; auto.
  - now apply ProcessBot_wf.
  - unfold wf_grids. simpl. upd_len. exact Hwf.
Qed.

Lemma grid_step_frame j :
  0 <= j -> j <> i -> alive (bot (cell_at (readGrid g) j)) = true ->
  cell_at (writeGrid (grid_step rand i g)) j = cell_at (writeGrid g) j.
Proof.
  intros Hj Hne Hal. destruct (wf_grids_length g Hwf) as [_ Hl].
  destruct grid_step_cases as [(_ & ->)|[(_ & ->)|(_ & ->)]]; auto.
  - now apply ProcessBot_frame.
  - simpl. upd_read. destruct (Z.eqb_spec i j); [lia|reflexivity].
Qed.

Lemma grid_step_organic_frame j :
  0 <= j -> j <> i ->
  organic (cell_at (writeGrid (grid_step rand i g)) j) =
  organic (cell_at (writeGrid g) j).
Proof.
  intros Hj Hne. destruct (wf_grids_length g Hwf) as [_ Hl].
  destruct grid_step_cases as [(_ & ->)|[(_ & ->)|(_ & ->)]]; auto.
  - now apply ProcessBot_organic_frame.
  - simpl. upd_read. destruct (Z.eqb_spec i j); [lia|reflexivity].
Qed.

(** A cell that starts from the carried-over, non-negative organic level
    ends its step with a non-negative level. *)
Lemma grid_step_organic_own :
  organic (cell_at (writeGrid g) i) = organic (cell_at (readGrid g) i) ->
  0 <= organic (cell_at (readGrid g) i) ->
  0 <= organic (cell_at (writeGrid (grid_step rand i g)) i).
Proof.
  intros Heq Hpos. destruct (wf_grids_length g Hwf) as [_ Hl].
  destruct grid_step_cases as [(_ & ->)|[(_ & ->)|(_ & ->)]].
  - pose proof (ProcessBot_organic_own i g Hi Hwf) as H. cbv zeta in H. lia.
  - simpl. upd_read. rewrite Z.eqb_refl. simpl. lia.
  - lia.
Qed.

(** No step raises the organic level of its cell by more than the 50
    units of a corpse. *)
Lemma grid_step_organic_upper :
  organic (cell_at (writeGrid g) i) = organic (cell_at (readGrid g) i) ->
  organic (cell_at (writeGrid (grid_step rand i g)) i) <=
  organic (cell_at (readGrid g) i) + 50.
Proof.
  intros Heq. destruct (wf_grids_length g Hwf) as [_ Hl].
  destruct grid_step_cases as [(_ & ->)|[(_ & ->)|(_ & ->)]].
  - pose proof (ProcessBot_organic_own i g Hi Hwf) as H. cbv zeta in H. lia.
  - simpl. upd_read. rewrite Z.eqb_refl. simpl. lia.
  - lia.
Qed.

Lemma grid_step_count :
  (count_alive (writeGrid (grid_step rand i g)) <=
   count_alive (writeGrid g) + Nat.b2n (alive (bot (cell_at (readGrid g) i))))%nat.
Proof.
  destruct grid_step_cases as [(-> & ->)|[(-> & ->)|(-> & ->)]]; simpl.
  - now apply ProcessBot_count.
  - rewrite count_alive_upd_cell_keep by reflexivity. lia.
  - lia.
Qed.
End grid_step.

(** * A sweep over a list of cells *)

Section sweep.
Variable rand : Z -> Z.

Lemma sweep_app l1 l2 g :
  sweep rand (l1 ++ l2) g = sweep rand l2 (sweep rand l1 g).
Proof. apply fold_left_app. Qed.

Lemma sweep_worker l g c :
  fst (fold_left (fun acc i => worker_step rand i acc) l (g, c)) = sweep rand l g.
Proof.
  revert g c. induction l as [|i l IH]; intros g c; [reflexivity|].
  unfold sweep. cbn [fold_left]. fold (sweep rand l (grid_step rand i g)).
  rewrite <- (worker_step_fst rand i g c).
  destruct (worker_step rand i (g, c)) as [g' c']. apply IH.
Qed.

Lemma sweep_wf l g :
  Forall (fun i => 0 <= i < NCELLS) l -> wf_grids g ->
  wf_grids (sweep rand l g) /\ readGrid (sweep rand l g) = readGrid g.
Proof.
  intros Hl. revert g. induction Hl as [|i l Hi _ IH]; intros g Hwf; [auto|].
  simpl. destruct (IH (grid_step rand i g)) as [H1 H2].
  { now apply grid_step_wf. }
  split; [exact H1|]. rewrite H2. now apply grid_step_readGrid.
Qed.

(** Cells outside the swept list keep their organic level, and keep
    everything when they hold a living bot in the read grid. *)
Lemma sweep_frame l g j :
  Forall (fun i => 0 <= i < NCELLS) l -> wf_grids g ->
  0 <= j -> j ∉ l ->
  organic (cell_at (writeGrid (sweep rand l g)) j) =
    organic (cell_at (writeGrid g) j) /\
  (alive (bot (cell_at (readGrid g) j)) = true ->
   cell_at (writeGrid (sweep rand l g)) j = cell_at (writeGrid g) j).
Proof.
  intros Hl. revert g. induction Hl as [|i l Hi _ IH]; intros g Hwf Hj Hnin;
    [auto|].
  apply not_elem_of_cons in Hnin as [Hne Hnin]. simpl.
  destruct (IH (grid_step rand i g)) as [H1 H2]; auto.
  { now apply grid_step_wf. }
  rewrite grid_step_readGrid in H2 by auto. split.
  - rewrite H1. now apply grid_step_organic_frame.
  - intros Hal. rewrite H2 by auto. now apply grid_step_frame.
Qed.
End sweep.

(** * Counted loops *)

Lemma for_range_S {S : Type} (body : Z -> S -> S) (s : S) (k : nat) :
  for_range 0 (Z.of_nat (Datatypes.S k)) body s =
  body (Z.of_nat k) (for_range 0 (Z.of_nat k) body s).
Proof.
  unfold for_range. rewrite !Z.sub_0_r, seqZ_S, fold_left_app. reflexivity.
Qed.

Lemma seqZ_in_range (a n : Z) :
  0 <= a -> a + n <= NCELLS -> Forall (fun i => 0 <= i < NCELLS) (seqZ a n).
Proof. intros Ha Hn. apply Forall_seqZ. intros i Hi. lia. Qed.

Lemma seqZ_0_app (a b : Z) :
  0 <= a -> 0 <= b -> seqZ 0 a ++ seqZ a b = seqZ 0 (a + b).
Proof. intros Ha Hb. rewrite seqZ_app by lia. reflexivity. Qed.

(** * Stage 0: the write grid before the workers start *)

Section prepare.
Variables cur nxt : Grid.

Lemma prepare_spec (k : nat) :
  (k <= length nxt)%nat ->
  let res := for_range 0 (Z.of_nat k) (prepare_cell cur) nxt in
  length res = length nxt /\
  forall j, 0 <= j ->
    cell_at res j =
    if j <? Z.of_nat k
    then mkCell (set_alive false (bot (cell_at nxt j))) (organic (cell_at cur j))
    else cell_at nxt j.
Proof.
  induction k as [|k IH]; intros Hk; cbv zeta.
  - split; [reflexivity|]. intros j Hj.
    destruct (Z.ltb_spec j (Z.of_nat 0)); [lia|reflexivity].
  - destruct IH as [Hlen Hcell]; [lia|].
    rewrite for_range_S. set (res := for_range 0 (Z.of_nat k) _ nxt) in *.
    unfold prepare_cell. split; [upd_len; exact Hlen|].
    intros j Hj. upd_read. rewrite (Hcell j Hj).
    destruct (Z.eqb_spec (Z.of_nat k) j) as [<-|Hne].
    + destruct (Z.ltb_spec (Z.of_nat k) (Z.of_nat (S k))); [|lia].
      destruct (Z.ltb_spec (Z.of_nat k) (Z.of_nat k)); [lia|]. reflexivity.
    + destruct (Z.ltb_spec j (Z.of_nat (S k))), (Z.ltb_spec j (Z.of_nat k));
        try lia; reflexivity.
Qed.
End prepare.

(** The write grid handed to the workers. *)
Lemma prepared_grid (cur nxt : Grid) :
  length nxt = Z.to_nat NCELLS ->
  let res := for_range 0 NCELLS (prepare_cell cur) nxt in
  length res = Z.to_nat NCELLS /\
  forall j, 0 <= j < NCELLS ->
    alive (bot (cell_at res j)) = false /\
    organic (cell_at res j) = organic (cell_at cur j).
Proof.
  intros Hlen. cbv zeta.
  assert (0 <= NCELLS) as Hn by (unfold NCELLS, WORLD_W, WORLD_H; lia).
  destruct (prepare_spec cur nxt (Z.to_nat NCELLS)) as [Hl Hcell]; [lia|].
  rewrite Z2Nat.id in Hl, Hcell by exact Hn.
  split; [now rewrite Hl|]. intros j Hj. rewrite Hcell by lia.
  destruct (Z.ltb_spec j NCELLS); [auto|lia].
Qed.

(** * The workers together sweep the grid once, in index order *)

Section schedule.
Variable rand : Z -> Z.

Lemma workerFunc_fst a b g c :
  fst (workerFunc rand a b (g, c)) = sweep rand (seqZ a (b - a)) g.
Proof.
  unfold workerFunc, for_range.
  rewrite <- (sweep_worker rand (seqZ a (b - a)) g 0).
  destruct (fold_left _ _ _). reflexivity.
Qed.

Variable tc : Z.
Hypothesis Htc : 1 <= tc.

Let cs := chunkSize tc.
Let spawn := fun (i : Z) (st : Grids * Z) =>
  workerFunc rand (chunk_start tc i) (chunk_stop tc i) st.

Lemma chunkSize_bounds : 0 <= cs /\ (tc - 1) * cs <= NCELLS.
Proof.
  assert (0 <= NCELLS) as Hn by (unfold NCELLS, WORLD_W, WORLD_H; lia).
  unfold cs, chunkSize. rewrite Z.quot_div_nonneg by lia.
  pose proof (Z.div_pos NCELLS tc). pose proof (Z.mul_div_le NCELLS tc). nia.
Qed.

Lemma workers_prefix (m : nat) g c :
  Z.of_nat m <= tc - 1 ->
  fst (for_range 0 (Z.of_nat m) spawn (g, c)) =
  sweep rand (seqZ 0 (Z.of_nat m * cs)) g.
Proof.
  destruct chunkSize_bounds as [Hcs _].
  induction m as [|m IH]; intros Hm; [reflexivity|].
  rewrite for_range_S.
  destruct (for_range 0 (Z.of_nat m) spawn (g, c)) as [g' c'] eqn:E.
  simpl in IH. unfold spawn at 1. rewrite workerFunc_fst, IH by lia.
  unfold chunk_stop, chunk_start. fold cs.
  destruct (Z.eqb_spec (Z.of_nat m) (tc - 1)); [lia|].
  rewrite <- sweep_app, seqZ_0_app by lia. do 2 f_equal. lia.
Qed.

Lemma workers_all g c :
  fst (for_range 0 tc spawn (g, c)) = sweep rand (seqZ 0 NCELLS) g.
Proof.
  destruct chunkSize_bounds as [Hcs Hlast].
  assert (0 <= (tc - 1) * cs) as Hfirst by nia.
  replace tc with (Z.of_nat (S (Z.to_nat (tc - 1)))) at 1 by lia.
  rewrite for_range_S.
  destruct (for_range 0 (Z.of_nat (Z.to_nat (tc - 1))) spawn (g, c))
    as [g' c'] eqn:E.
  pose proof (workers_prefix (Z.to_nat (tc - 1)) g c) as Hpre.
  rewrite E in Hpre. simpl in Hpre.
  unfold spawn at 1. rewrite workerFunc_fst, Hpre by lia.
  unfold chunk_stop, chunk_start. fold cs.
  rewrite Z2Nat.id by lia.
  rewrite Z.eqb_refl, <- sweep_app, seqZ_0_app by lia. do 2 f_equal. lia.
Qed.
End schedule.

(** The grid shown after a tick is the swept write grid. *)
Lemma UpdateWorld_sweep rand hc wd :
  1 <= threadsCount hc ->
  currentGrid (UpdateWorld rand hc wd) =
    writeGrid
      (sweep rand (seqZ 0 NCELLS)
         (mkGrids (currentGrid wd)
                  (for_range 0 NCELLS (prepare_cell (currentGrid wd)) (nextGrid wd)))) /\
  nextGrid (UpdateWorld rand hc wd) =
    readGrid
      (sweep rand (seqZ 0 NCELLS)
         (mkGrids (currentGrid wd)
                  (for_range 0 NCELLS (prepare_cell (currentGrid wd)) (nextGrid wd)))).
Proof.
  intros Htc.
  pose proof (workers_all rand (threadsCount hc) Htc
    (mkGrids (currentGrid wd)
       (for_range 0 NCELLS (prepare_cell (currentGrid wd)) (nextGrid wd))) 0) as H.
  unfold UpdateWorld.
  destruct (for_range 0 (threadsCount hc) _ _) as [g c].
  cbn [fst] in H. rewrite <- H. split; reflexivity.
Qed.

(** * One tick, cell by cell *)

Lemma threadsCount_pos hc : 0 <= hc <= INT_MAX -> 1 <= threadsCount hc.
Proof.
  intros Hhc. unfold threadsCount, to_int.
  destruct (Z.leb_spec hc INT_MAX); [|lia].
  destruct (Z.eqb_spec hc 0); lia.
Qed.

Lemma count_alive_app (g1 g2 : Grid) :
  count_alive (g1 ++ g2) = (count_alive g1 + count_alive g2)%nat.
Proof. unfold count_alive. now rewrite List.filter_app, length_app. Qed.

Lemma NCELLS_nonneg : 0 <= NCELLS.
Proof. unfold NCELLS, WORLD_W, WORLD_H. lia. Qed.

Lemma NCELLS_val : NCELLS = 32768.
Proof. reflexivity. Qed.

(** From here on the number of cells is not computed with. *)
Opaque NCELLS.

Lemma tick_grids_wf wd : wf_world wd -> wf_grids (tick_grids wd).
Proof.
  intros [Hc Hn]. split; [exact Hc|].
  now destruct (prepared_grid (currentGrid wd) (nextGrid wd) Hn) as [Hl _].
Qed.

(** When the workers start, no cell of the write grid holds a living bot
    and every cell has the organic level of the read grid. *)
Lemma tick_grids_cells wd j :
  wf_world wd -> 0 <= j < NCELLS ->
  alive (bot (cell_at (writeGrid (tick_grids wd)) j)) = false /\
  organic (cell_at (writeGrid (tick_grids wd)) j) =
    organic (cell_at (readGrid (tick_grids wd)) j).
Proof.
  intros [_ Hn] Hj.
  destruct (prepared_grid (currentGrid wd) (nextGrid wd) Hn) as [_ Hprep].
  exact (Hprep j Hj).
Qed.

Lemma UpdateWorld_tick_grids rand hc wd :
  0 <= hc <= INT_MAX ->
  currentGrid (UpdateWorld rand hc wd) =
  writeGrid (sweep rand (seqZ 0 NCELLS) (tick_grids wd)).
Proof.
  intros Hhc.
  now destruct (UpdateWorld_sweep rand hc wd (threadsCount_pos hc Hhc)) as [-> _].
Qed.

Lemma cell_order_seqZ : cell_order (seqZ 0 NCELLS).
Proof. unfold cell_order. reflexivity. Qed.

Lemma cell_order_facts l :
  cell_order l ->
  NoDup l /\ Forall (fun i => 0 <= i < NCELLS) l /\
  (forall i, 0 <= i < NCELLS -> i ∈ l).
Proof.
  unfold cell_order. intros Hperm. split; [|split].
  - rewrite Hperm. apply NoDup_seqZ.
  - apply Forall_forall. intros i Hi. rewrite Hperm in Hi.
    apply elem_of_seqZ in Hi. lia.
  - intros i Hi. rewrite Hperm. apply elem_of_seqZ. lia.
Qed.

Section tick.
Variable rand : Z -> Z.

(** The sweep seen from one of its cells: the cells visited before leave
    it alone, its own step acts on it, and the cells visited after leave
    the result alone. *)
Lemma sweep_around l g idx :
  wf_grids g -> Forall (fun i => 0 <= i < NCELLS) l -> NoDup l -> idx ∈ l ->
  exists g1 : Grids,
    wf_grids g1 /\ readGrid g1 = readGrid g /\
    organic (cell_at (writeGrid g1) idx) = organic (cell_at (writeGrid g) idx) /\
    organic (cell_at (writeGrid (sweep rand l g)) idx) =
      organic (cell_at (writeGrid (grid_step rand idx g1)) idx) /\
    (alive (bot (cell_at (readGrid g) idx)) = true ->
     cell_at (writeGrid g1) idx = cell_at (writeGrid g) idx /\
     cell_at (writeGrid (sweep rand l g)) idx =
       cell_at (writeGrid (grid_step rand idx g1)) idx).
Proof.
  intros Hwf Hl Hnd Hin.
  destruct (list_elem_of_split l idx Hin) as (l1 & l2 & ->).
  apply NoDup_app in Hnd as (_ & Hdisj & Hnd2).
  apply NoDup_cons in Hnd2 as [Hna _].
  assert (idx ∉ l1) as Hnb.
  { intros H. apply (Hdisj idx H). apply elem_of_cons. now left. }
  apply Forall_app in Hl as [Hbefore Hl2].
  apply Forall_cons in Hl2 as [Hidx Hafter].
  destruct (sweep_wf rand l1 g Hbefore Hwf) as [Hwf1 Hr1].
  destruct (sweep_frame rand l1 g idx Hbefore Hwf) as [Ho1 Hc1]; [lia|auto|].
  assert (sweep rand (l1 ++ idx :: l2) g =
          sweep rand l2 (grid_step rand idx (sweep rand l1 g))) as ->
    by (rewrite sweep_app; reflexivity).
  set (g1 := sweep rand l1 g) in *. clearbody g1.
  assert (wf_grids (grid_step rand idx g1)) as Hwf2 by (now apply grid_step_wf).
  assert (readGrid (grid_step rand idx g1) = readGrid g) as Hr2
    by (now rewrite grid_step_readGrid).
  destruct (sweep_frame rand l2 (grid_step rand idx g1) idx Hafter Hwf2)
    as [Ho3 Hc3]; [lia|auto|].
  rewrite Hr2 in Hc3. clear Hr2.
  exists g1. split; [exact Hwf1|]. split; [exact Hr1|]. split; [exact Ho1|].
  split; [exact Ho3|]. intros Hal. split; [exact (Hc1 Hal)|exact (Hc3 Hal)].
Qed.

(** Every cell visited adds at most the bot it holds in the read grid. *)
Lemma sweep_count l g :
  wf_grids g -> Forall (fun i => 0 <= i < NCELLS) l ->
  (count_alive (writeGrid (sweep rand l g)) <=
   count_alive (writeGrid g) + alive_in (readGrid g) l)%nat.
Proof.
  intros Hwf Hl. revert g Hwf.
  induction Hl as [|i l Hi _ IH]; intros g Hwf.
  - unfold sweep, alive_in. simpl. lia.
  - unfold sweep. cbn [fold_left]. fold (sweep rand l (grid_step rand i g)).
    specialize (IH (grid_step rand i g) (grid_step_wf rand i g Hi Hwf)).
    rewrite grid_step_readGrid in IH by auto.
    pose proof (grid_step_count rand i g Hi Hwf) as Hstep.
    assert (alive_in (readGrid g) (i :: l) =
            (Nat.b2n (alive (bot (cell_at (readGrid g) i))) +
             alive_in (readGrid g) l)%nat) as ->.
    { unfold alive_in. simpl.
      destruct (alive (bot (cell_at (readGrid g) i))); reflexivity. }
    lia.
Qed.
End tick.

(** The number of living bots met along a list of cells. *)
Lemma alive_in_Permutation (r : Grid) l l' :
  l ≡ₚ l' -> alive_in r l = alive_in r l'.
Proof.
  unfold alive_in. induction 1 as [|x l l' _ IH|x y l|l l' l'' _ IH1 _ IH2]; simpl.
  - reflexivity.
  - destruct (alive (bot (cell_at r x))); simpl; congruence.
  - destruct (alive (bot (cell_at r x))), (alive (bot (cell_at r y))); reflexivity.
  - congruence.
Qed.

Lemma alive_in_prefix (r : Grid) (k : nat) :
  (k <= length r)%nat ->
  alive_in r (seqZ 0 (Z.of_nat k)) = count_alive (take k r).
Proof.
  induction k as [|k IH]; intros Hk; [reflexivity|].
  destruct (lookup_lt_is_Some_2 r k) as [c Hc]; [lia|].
  rewrite seqZ_S, (take_S_r _ _ _ Hc), count_alive_app, <- IH by lia.
  unfold alive_in at 1. rewrite List.filter_app, length_app. f_equal.
  rewrite Z.add_0_l. unfold count_alive. simpl.
  rewrite (cell_at_lookup _ _ _ Hc). now destruct (alive (bot c)).
Qed.

Lemma alive_in_cell_order (r : Grid) l :
  length r = Z.to_nat NCELLS -> cell_order l -> alive_in r l = count_alive r.
Proof.
  intros Hlen Hperm. pose proof NCELLS_nonneg as Hn.
  rewrite (alive_in_Permutation r _ _ Hperm).
  rewrite <- (Z2Nat.id NCELLS) by exact Hn.
  rewrite alive_in_prefix by lia. now rewrite take_ge by lia.
Qed.

(** * Properties of a whole tick, for every order of the cells *)

Section any_order.
Variables (rand : Z -> Z) (l : list Z) (wd : World).
Hypothesis Hwd : wf_world wd.
Hypothesis Hl : cell_order l.

Lemma death_in_any_order idx :
  0 <= idx < NCELLS ->
  alive (bot (cell_at (currentGrid wd) idx)) = true ->
  energy (bot (cell_at (currentGrid wd) idx)) <= 0 ->
  alive (bot (cell_at (writeGrid (sweep rand l (tick_grids wd))) idx)) = false /\
  organic (cell_at (writeGrid (sweep rand l (tick_grids wd))) idx) =
    organic (cell_at (currentGrid wd) idx) + 50.
Proof.
  intros Hidx Hal He.
  destruct (cell_order_facts l Hl) as (Hnd & Hrange & Hall).
  destruct (tick_grids_cells wd idx Hwd Hidx) as [_ Horg].
  destruct (sweep_around rand l (tick_grids wd) idx (tick_grids_wf wd Hwd)
              Hrange Hnd (Hall idx Hidx)) as (g1 & Hwf1 & Hr1 & _ & _ & Hcell).
  destruct (Hcell Hal) as [Hc1 ->]. clear Hcell.
  assert (grid_step rand idx g1 = ProcessBot idx g1) as ->.
  { unfold grid_step, worker_step. rewrite Hr1.
    change (readGrid (tick_grids wd)) with (currentGrid wd).
    rewrite Hal. reflexivity. }
  rewrite (ProcessBot_dead idx g1 Hidx Hwf1) by (rewrite Hr1; exact He).
  cbn [bot organic set_alive alive]. rewrite Hc1.
  split; [reflexivity|]. now rewrite Horg.
Qed.

Lemma organic_in_any_order i :
  Forall (fun c => 0 <= organic c) (currentGrid wd) ->
  0 <= i < NCELLS ->
  0 <= organic (cell_at (writeGrid (sweep rand l (tick_grids wd))) i).
Proof.
  intros Hpos Hi.
  destruct (cell_order_facts l Hl) as (Hnd & Hrange & Hall).
  destruct (tick_grids_cells wd i Hwd Hi) as [_ Horg].
  destruct (sweep_around rand l (tick_grids wd) i (tick_grids_wf wd Hwd)
              Hrange Hnd (Hall i Hi)) as (g1 & Hwf1 & Hr1 & Ho1 & -> & _).
  apply grid_step_organic_own; auto.
  - rewrite Ho1, Hr1. exact Horg.
  - rewrite Hr1. change (readGrid (tick_grids wd)) with (currentGrid wd).
    unfold cell_at, arr_get.
    destruct (currentGrid wd !! Z.to_nat i) as [c|] eqn:E; simpl; [|lia].
    exact (Forall_lookup_1 _ _ _ _ Hpos E).
Qed.

Lemma organic_upper_in_any_order i :
  0 <= i < NCELLS ->
  organic (cell_at (writeGrid (sweep rand l (tick_grids wd))) i) <=
  organic (cell_at (currentGrid wd) i) + 50.
Proof.
  intros Hi.
  destruct (cell_order_facts l Hl) as (Hnd & Hrange & Hall).
  destruct (tick_grids_cells wd i Hwd Hi) as [_ Horg].
  destruct (sweep_around rand l (tick_grids wd) i (tick_grids_wf wd Hwd)
              Hrange Hnd (Hall i Hi)) as (g1 & Hwf1 & Hr1 & Ho1 & -> & _).
  pose proof (grid_step_organic_upper rand i g1 Hi Hwf1) as H.
  rewrite Ho1, Hr1 in H. specialize (H Horg).
  change (readGrid (tick_grids wd)) with (currentGrid wd) in H. exact H.
Qed.

Lemma population_in_any_order :
  (count_alive (writeGrid (sweep rand l (tick_grids wd))) <=
   count_alive (currentGrid wd))%nat.
Proof.
  destruct (cell_order_facts l Hl) as (_ & Hrange & _).
  pose proof (sweep_count rand l (tick_grids wd) (tick_grids_wf wd Hwd) Hrange) as H.
  change (readGrid (tick_grids wd)) with (currentGrid wd) in H.
  rewrite (alive_in_cell_order (currentGrid wd) l (proj1 Hwd) Hl) in H.
  assert (count_alive (writeGrid (tick_grids wd)) = 0%nat) as E.
  { apply count_alive_none. intros j Hj.
    destruct (wf_grids_length _ (tick_grids_wf wd Hwd)) as [_ Hlen].
    apply tick_grids_cells; [exact Hwd|lia]. }
  lia.
Qed.
End any_order.

(** * Properties of a whole tick *)

(** C2.  A cell whose bot is alive with [energy <= 0] when the tick starts
    holds no living bot after the tick, and its organic level after the
    tick is its level before the tick plus exactly 50, for a level that
    leaves room for the 50 in an [int]; the new level is a value of [int]
    again. *)
Theorem death_turns_into_organic rand hc wd idx :
  wf_world wd -> 0 <= hc <= INT_MAX -> 0 <= idx < NCELLS ->
  alive (bot (cell_at (currentGrid wd) idx)) = true ->
  energy (bot (cell_at (currentGrid wd) idx)) <= 0 ->
  INT_MIN <= organic (cell_at (currentGrid wd) idx) <= INT_MAX - 50 ->
  alive (bot (cell_at (currentGrid (UpdateWorld rand hc wd)) idx)) = false /\
  organic (cell_at (currentGrid (UpdateWorld rand hc wd)) idx) =
    organic (cell_at (currentGrid wd) idx) + 50 /\
  is_int (organic (cell_at (currentGrid (UpdateWorld rand hc wd)) idx)).
Proof.
  intros Hwd Hhc Hidx Hal He Ho. rewrite (UpdateWorld_tick_grids rand hc wd Hhc).
  destruct (death_in_any_order rand _ wd Hwd cell_order_seqZ idx Hidx Hal He)
    as [Hdead Horg].
  split; [exact Hdead|]. split; [exact Horg|].
  rewrite Horg. unfold is_int. lia.
Qed.

(** C5.  If no cell has a negative organic level when the tick starts, and
    every level leaves room in an [int] for the 50 units of a corpse, no
    cell has a negative level after the tick, and every level is a value
    of [int] again. *)
Theorem organic_never_negative rand hc wd :
  wf_world wd -> 0 <= hc <= INT_MAX ->
  Forall (fun c => 0 <= organic c <= INT_MAX - 50) (currentGrid wd) ->
  Forall (fun c => 0 <= organic c <= INT_MAX) (currentGrid (UpdateWorld rand hc wd)).
Proof.
  intros Hwd Hhc Hbound.
  assert (Forall (fun c => 0 <= organic c) (currentGrid wd)) as Hpos.
  { eapply Forall_impl; [exact Hbound|]. intros c [H0 _]. exact H0. }
  rewrite (UpdateWorld_tick_grids rand hc wd Hhc).
  apply Forall_lookup_2. intros n c Hc.
  destruct (sweep_wf rand (seqZ 0 NCELLS) (tick_grids wd)) as [Hwf3 _];
    [apply seqZ_in_range; lia|exact (tick_grids_wf wd Hwd)|].
  assert (0 <= Z.of_nat n < NCELLS) as Hi.
  { apply lookup_lt_Some in Hc. destruct (wf_grids_length _ Hwf3). lia. }
  rewrite <- (cell_at_lookup _ _ _ Hc).
  split; [exact (organic_in_any_order rand _ wd Hwd cell_order_seqZ _ Hpos Hi)|].
  pose proof (organic_upper_in_any_order rand _ wd Hwd cell_order_seqZ _ Hi) as Hup.
  destruct (lookup_lt_is_Some_2 (currentGrid wd) n) as [c0 Hc0].
  { destruct Hwd as [Hlen _]. rewrite Hlen. lia. }
  rewrite (cell_at_lookup _ _ _ Hc0) in Hup.
  pose proof (Forall_lookup_1 _ _ _ _ Hbound Hc0) as Hb0. cbn beta in Hb0. lia.
Qed.

(** C6.  A tick, its cells processed one after the other, never increases
    the number of cells that hold a living bot. *)
Theorem population_never_grows rand hc wd :
  wf_world wd -> 0 <= hc <= INT_MAX ->
  (count_alive (currentGrid (UpdateWorld rand hc wd)) <=
   count_alive (currentGrid wd))%nat.
Proof.
  intros Hwd Hhc. rewrite (UpdateWorld_tick_grids rand hc wd Hhc).
  exact (population_in_any_order rand _ wd Hwd cell_order_seqZ).
Qed.

(** ** The tick theorems at a concrete world *)

Lemma starved_world_wf : wf_world starved_world.
Proof.
  split; unfold starved_world; cbn [currentGrid nextGrid];
    rewrite ?length_insert, length_replicate; reflexivity.
Qed.

Lemma death_turns_into_organic_witness :
  alive (bot (cell_at (currentGrid (UpdateWorld (fun _ => 0) 1 starved_world)) 5)) = false /\
  organic (cell_at (currentGrid (UpdateWorld (fun _ => 0) 1 starved_world)) 5) =
    organic (cell_at (currentGrid starved_world) 5) + 50 /\
  is_int (organic (cell_at (currentGrid (UpdateWorld (fun _ => 0) 1 starved_world)) 5)).
Proof.
  apply death_turns_into_organic.
  - exact starved_world_wf.
  - unfold INT_MAX. lia.
  - rewrite NCELLS_val. lia.
  - vm_compute. reflexivity.
  - vm_compute. discriminate.
  - vm_compute. split; discriminate.
Defined.

Lemma organic_never_negative_witness :
  Forall (fun c => 0 <= organic c <= INT_MAX)
         (currentGrid (UpdateWorld (fun _ => 1000) 4 starved_world)).
Proof.
  apply organic_never_negative.
  - exact starved_world_wf.
  - unfold INT_MAX. lia.
  - unfold starved_world. cbn [currentGrid].
    apply Forall_insert; [apply Forall_replicate|]; simpl; unfold INT_MAX; lia.
Defined.

Lemma population_never_grows_witness :
  (count_alive (currentGrid (UpdateWorld (fun _ => 0%Z) 8%Z starved_world)) <=
   count_alive (currentGrid starved_world))%nat.
Proof.
  apply population_never_grows.
  - exact starved_world_wf.
  - unfold INT_MAX. lia.
Defined.

(** * The bot up to its turn-ending command *)

Lemma same_body_refl b : same_body b b.
Proof. repeat split. Qed.

Lemma same_body_trans b1 b2 b3 :
  same_body b1 b2 -> same_body b2 b3 -> same_body b1 b3.
Proof. unfold same_body. intuition congruence. Qed.

Section rewrite_bot.
Variables (idx : Z) (w : Grid).
Hypothesis Hidx : 0 <= idx < Z.of_nat (length w).

Lemma upd_bot_upd_bot f h :
  upd_bot idx f (upd_bot idx h w) = upd_bot idx (fun b => f (h b)) w.
Proof.
  apply grid_ext; [now upd_len|]. intros j Hj. revert Hj. upd_len. intros Hj.
  upd_read. destruct (idx =? j); reflexivity.
Qed.

Lemma upd_bot_result f :
  upd_bot idx f w = upd_bot idx (fun _ => nextBot idx (upd_bot idx f w)) w.
Proof.
  apply grid_ext; [now upd_len|]. intros j Hj. revert Hj. upd_len. intros Hj.
  unfold nextBot. upd_read. rewrite Z.eqb_refl.
  destruct (Z.eqb_spec idx j) as [<-|Hne]; reflexivity.
Qed.

Lemma nextBot_upd_bot f : nextBot idx (upd_bot idx f w) = f (nextBot idx w).
Proof. unfold nextBot. upd_read. rewrite Z.eqb_refl. reflexivity. Qed.
End rewrite_bot.

Lemma upd_bot_ext idx f h (w : Grid) :
  (forall b, f b = h b) -> upd_bot idx f w = upd_bot idx h w.
Proof.
  intros H. apply list_alter_ext; [|reflexivity].
  intros [b o] _. unfold map_bot. cbn. now rewrite H.
Qed.

Lemma upd_bot_id idx (w : Grid) : upd_bot idx (fun b => b) w = w.
Proof. apply list_alter_id. now intros [b o]. Qed.

(** A command that does not end the turn rewrites the bot in place. *)
Lemma exec_cmd_quiet idx cmd r :
  cmd <> 20 -> cmd <> 30 -> cmd <> 40 ->
  exists F : Bot -> Bot,
    (forall w, fst (exec_cmd idx cmd r w) = upd_bot idx F w) /\
    (forall b, same_body b (F b)).
Proof.
  intros H20 H30 H40. unfold exec_cmd.
  destruct (cmd <? 8).
  { eexists. split; [intros w; reflexivity|]. intros b. repeat split. }
  destruct ((10 <=? cmd) && (cmd <=? 15)).
  { eexists. split; [intros w; reflexivity|]. intros b. repeat split. }
  destruct (Z.eqb_spec cmd 20); [lia|].
  destruct (Z.eqb_spec cmd 30); [lia|].
  destruct (Z.eqb_spec cmd 40); [lia|].
  exists (fun b => b). split; [intros w; simpl; now rewrite upd_bot_id|].
  intros b. apply same_body_refl.
Qed.

Section prefix.
Variables (idx : Z) (g : Grids).
Hypothesis Hidx : 0 <= idx < NCELLS.
Hypothesis Hwf : wf_grids g.

(** While the turn has not ended, the write grid differs from the initial
    one in the bot at [idx] only, and that bot has kept its body. *)
Lemma state_before_ending k :
  turnEnded (state_after k idx g) = false ->
  writeGrid (grids (state_after k idx g)) =
    upd_bot idx (fun _ => bot_before idx g k) (writeGrid g) /\
  same_body (bot (cell_at (readGrid g) idx)) (bot_before idx g k).
Proof.
  destruct (wf_grids_length g Hwf) as [_ Hl].
  unfold bot_before. induction k as [|k IH]; intros Hnot.
  - change (state_after 0 idx g) with (vm_init idx g).
    unfold vm_init. cbn [grids writeGrid]. split.
    + apply upd_bot_result. lia.
    + rewrite nextBot_upd_bot by lia. apply same_body_refl.
  - rewrite state_after_S in *. rewrite vm_step_turnEnded in Hnot.
    apply orb_false_iff in Hnot as [Hk Hq].
    destruct (IH Hk) as [Hw Hsame]. clear IH.
    rewrite exec_cmd_ends in Hq.
    set (cmd := fetch idx (grids (state_after k idx g))) in *.
    destruct (exec_cmd_quiet idx cmd (readGrid (grids (state_after k idx g))))
      as (F & HF & HFsame).
    { intros ->. discriminate. }
    { intros ->. discriminate. }
    { intros ->. discriminate. }
    rewrite vm_step_writeGrid. fold cmd. rewrite HF.
    set (me := nextBot idx (writeGrid (grids (state_after k idx g)))) in *.
    rewrite Hw. rewrite !upd_bot_upd_bot by (upd_len; lia).
    rewrite nextBot_upd_bot by lia. split; [reflexivity|].
    eapply same_body_trans; [exact Hsame|].
    eapply same_body_trans; [|apply HFsame]. repeat split.
Qed.

(** The write grid right after the instruction pointer has moved past the
    command of iteration [k]. *)
Lemma state_at_decode k :
  turnEnded (state_after k idx g) = false ->
  upd_bot idx (fun b => set_ip (to_uchar (Z.rem (ip b + 1) GENOME_SIZE)) b)
          (writeGrid (grids (state_after k idx g))) =
  upd_bot idx (fun _ => advance (bot_before idx g k)) (writeGrid g).
Proof.
  destruct (wf_grids_length g Hwf) as [_ Hl]. intros Hnot.
  destruct (state_before_ending k Hnot) as [Hw _].
  rewrite Hw at 1. rewrite upd_bot_upd_bot by lia. reflexivity.
Qed.

(** [ProcessBot] when iteration [k] decodes a turn-ending command [c]. *)
Lemma ProcessBot_ends k c :
  0 < energy (bot (cell_at (readGrid g) idx)) ->
  executes idx g k c -> c = 20 \/ c = 30 \/ c = 40 ->
  ProcessBot idx g =
  mkGrids (readGrid g)
    (upd_bot idx (add_energy (-1))
       (fst (exec_cmd idx c (readGrid g)
               (upd_bot idx (fun _ => advance (bot_before idx g k)) (writeGrid g))))) /\
  turnEnded (vm_run idx g) = true /\
  commandsExecuted (vm_run idx g) = Z.of_nat k + 1.
Proof.
  intros He Hex Hc. pose proof (vm_run_ends idx g k c Hex Hc) as Hrun.
  destruct Hex as (Hk & Hnot & Hfetch).
  unfold ProcessBot. destruct (Z.leb_spec (energy (bot (cell_at (readGrid g) idx))) 0);
    [lia|].
  cbv zeta. rewrite Hrun, vm_step_readGrid, vm_step_writeGrid, vm_step_turnEnded,
    vm_step_commandsExecuted, state_after_commandsExecuted, state_after_readGrid,
    Hfetch, (state_at_decode k Hnot), exec_cmd_ends.
  split; [reflexivity|]. split; [|reflexivity].
  rewrite Hnot. destruct Hc as [-> | [-> | ->]]; reflexivity.
Qed.
End prefix.

(** * Opcode 40 *)

Section opcode40.
Variables (idx : Z) (g : Grids) (k : nat).
Hypothesis Hidx : 0 <= idx < NCELLS.
Hypothesis Hwf : wf_grids g.
Hypothesis Halive : alive (bot (cell_at (readGrid g) idx)) = true.
Hypothesis Henergy : 0 < energy (bot (cell_at (readGrid g) idx)).
Hypothesis Hexec : executes idx g k 40.

Let me := bot_before idx g k.
Let n := target idx g k.
Let w1 := upd_bot idx (fun _ => advance me) (writeGrid g).

Lemma target_range : 0 <= n < NCELLS.
Proof. apply neighbour_range, Hidx. Qed.

Lemma me_body : same_body (bot (cell_at (readGrid g) idx)) me.
Proof. destruct Hexec as (_ & Hnot & _). now apply state_before_ending. Qed.

Lemma decode40 :
  ProcessBot idx g =
    mkGrids (readGrid g) (upd_bot idx (add_energy (-1)) (op_move idx (readGrid g) w1)) /\
  neighbour idx (dir (nextBot idx w1)) = n /\
  nextBot idx w1 = advance me.
Proof.
  destruct (wf_grids_length g Hwf) as [_ Hl].
  destruct (ProcessBot_ends idx g Hidx Hwf k 40 Henergy Hexec) as [-> _]; [auto|].
  assert (nextBot idx w1 = advance me) as E
    by (unfold w1; now rewrite nextBot_upd_bot by lia).
  rewrite E. repeat split.
Qed.

(** The neighbour holds a living bot: the attacker gains half of its
    energy, rounded towards zero, and nothing else is written. *)
Lemma ProcessBot_attack :
  alive (bot (cell_at (readGrid g) n)) = true ->
  writeGrid (ProcessBot idx g) =
  upd_bot idx
    (fun _ => add_energy (Z.quot (energy (bot (cell_at (readGrid g) n))) 2 - 1)
                         (advance me))
    (writeGrid g).
Proof.
  intros Hn. destruct (wf_grids_length g Hwf) as [_ Hl].
  destruct decode40 as (-> & Hnb & Hme). cbn [writeGrid].
  destruct (op_move_cases idx (readGrid g) w1) as [(_ & ->)|[(H & _)|(H & _)]];
    rewrite Hnb in *; [|congruence|congruence].
  unfold w1. rewrite !upd_bot_upd_bot by (upd_len; lia).
  apply upd_bot_ext. intros b. unfold add_energy. cbn. f_equal. lia.
Qed.

(** The neighbour is empty in both grids: the bot is copied there as it is
    when the command is decoded, and the costs are charged to the cell it
    leaves. *)
Lemma ProcessBot_relocate :
  alive (bot (cell_at (readGrid g) n)) = false ->
  alive (bot (cell_at (writeGrid g) n)) = false ->
  n <> idx /\
  writeGrid (ProcessBot idx g) =
  upd_bot idx (fun _ => add_energy (-3) (set_alive false (advance me)))
    (upd_bot n (fun _ => advance me) (writeGrid g)).
Proof.
  intros Hr Hw. destruct (wf_grids_length g Hwf) as [_ Hl].
  pose proof target_range as Hn.
  assert (n <> idx) as Hne by (intros E; rewrite E in Hr; congruence).
  split; [exact Hne|].
  destruct decode40 as (-> & Hnb & Hme). cbn [writeGrid].
  assert (alive (bot (cell_at w1 n)) = false) as Hw1.
  { unfold w1. upd_read. destruct (Z.eqb_spec idx n); [congruence|exact Hw]. }
  destruct (op_move_cases idx (readGrid g) w1) as [(H & _)|[(_ & _ & ->)|(_ & H & _)]];
    rewrite Hnb in *; [congruence| |congruence].
  rewrite Hme. apply grid_ext; [unfold w1; now upd_len|].
  intros j Hj. revert Hj. unfold w1. upd_len. intros Hj. upd_read.
  destruct (Z.eqb_spec idx j) as [Hij|Hij].
  - subst j. destruct (Z.eqb_spec n idx); [congruence|].
    unfold map_bot, add_energy. cbn. do 2 f_equal. lia.
  - destruct (Z.eqb_spec n j); reflexivity.
Qed.

(** The neighbour is empty in the read grid but taken in the write grid:
    the bot stays where it is and pays the existence cost only. *)
Lemma ProcessBot_blocked :
  alive (bot (cell_at (readGrid g) n)) = false ->
  alive (bot (cell_at (writeGrid g) n)) = true ->
  writeGrid (ProcessBot idx g) =
  upd_bot idx (fun _ => add_energy (-1) (advance me)) (writeGrid g).
Proof.
  intros Hr Hw. destruct (wf_grids_length g Hwf) as [_ Hl].
  pose proof target_range as Hn.
  assert (n <> idx) as Hne by (intros E; rewrite E in Hr; congruence).
  destruct decode40 as (-> & Hnb & Hme). cbn [writeGrid].
  assert (alive (bot (cell_at w1 n)) = true) as Hw1.
  { unfold w1. upd_read. destruct (Z.eqb_spec idx n); [congruence|exact Hw]. }
  destruct (op_move_cases idx (readGrid g) w1) as [(H & _)|[(_ & H & _)|(_ & _ & ->)]];
    try rewrite Hnb in *; [congruence|congruence|].
  unfold w1. now rewrite upd_bot_upd_bot by lia.
Qed.
End opcode40.

(** The write grid after iteration [k], in terms of the command decoded. *)
Lemma state_after_decode idx g k :
  0 <= idx < NCELLS -> wf_grids g ->
  turnEnded (state_after k idx g) = false ->
  writeGrid (grids (state_after (S k) idx g)) =
  fst (exec_cmd idx (fetch idx (grids (state_after k idx g))) (readGrid g)
         (upd_bot idx (fun _ => advance (bot_before idx g k)) (writeGrid g))).
Proof.
  intros Hidx Hwf Hnot.
  rewrite state_after_S, vm_step_writeGrid, state_after_readGrid.
  now rewrite (state_at_decode idx g Hidx Hwf k Hnot).
Qed.

(** * Opcode 40: the three outcomes *)

Lemma blank_grid_length : length blank_grid = Z.to_nat NCELLS.
Proof. apply length_replicate. Qed.

Lemma lone_hunter_wf : wf_grids lone_hunter.
Proof.
  split; unfold lone_hunter; cbn [readGrid writeGrid];
    rewrite ?length_insert; apply blank_grid_length.
Qed.

Lemma hunter_and_prey_wf e ne : wf_grids (hunter_and_prey e ne).
Proof.
  split; unfold hunter_and_prey; cbn [readGrid writeGrid];
    rewrite ?length_insert; apply blank_grid_length.
Qed.

Lemma hunter_blocked_wf : wf_grids hunter_blocked.
Proof.
  split; unfold hunter_blocked; cbn [readGrid writeGrid];
    rewrite ?length_insert; apply blank_grid_length.
Qed.

Lemma zero_in_range : 0 <= 0 < NCELLS.
Proof. rewrite NCELLS_val. lia. Qed.

(** Half of a value of [int], rounded towards zero. *)
Lemma quot2_is_int x :
  is_int x -> -1073741824 <= Z.quot x 2 <= 1073741823.
Proof.
  unfold is_int, INT_MIN, INT_MAX. intros Hx.
  pose proof (Z.quot_rem' x 2) as Hq.
  destruct (Z.le_gt_cases 0 x) as [Hpos|Hneg].
  - pose proof (Z.rem_bound_pos x 2 Hpos ltac:(lia)). lia.
  - pose proof (Z.rem_bound_pos_neg x 2 ltac:(lia) ltac:(lia)). lia.
Qed.

(** C1 (what the code does).  A bot that executes opcode 40 towards a cell
    that holds no living bot in either grid relocates: the neighbour's cell
    of the write grid receives the bot as it is when the command is
    decoded, alive and with its energy unchanged; the bot's own cell is
    marked not-alive, and it is that vacated cell whose energy is reduced
    by 2 and by the existence cost of 1. *)
Theorem move_charges_the_vacated_cell idx g k :
  0 <= idx < NCELLS -> wf_grids g ->
  alive (bot (cell_at (readGrid g) idx)) = true ->
  0 < energy (bot (cell_at (readGrid g) idx)) ->
  executes idx g k 40 ->
  alive (bot (cell_at (readGrid g) (target idx g k))) = false ->
  alive (bot (cell_at (writeGrid g) (target idx g k))) = false ->
  bot (cell_at (writeGrid (ProcessBot idx g)) (target idx g k)) =
    advance (bot_before idx g k) /\
  alive (bot (cell_at (writeGrid (ProcessBot idx g)) (target idx g k))) = true /\
  energy (bot (cell_at (writeGrid (ProcessBot idx g)) (target idx g k))) =
    energy (bot (cell_at (readGrid g) idx)) /\
  alive (bot (cell_at (writeGrid (ProcessBot idx g)) idx)) = false /\
  energy (bot (cell_at (writeGrid (ProcessBot idx g)) idx)) =
    energy (bot (cell_at (readGrid g) idx)) - 2 - 1.
Proof.
  intros Hidx Hwf Hal He Hex Hr Hw.
  destruct (wf_grids_length g Hwf) as [_ Hl].
  pose proof (target_range idx g k Hidx) as Hn.
  destruct (me_body idx g k Hidx Hwf Hex) as (Ha & _ & Hen & _).
  destruct (ProcessBot_relocate idx g k Hidx Hwf Hal He Hex Hr Hw) as [Hne ->].
  upd_read. rewrite Z.eqb_refl.
  destruct (Z.eqb_spec idx (target idx g k)); [congruence|].
  destruct (Z.eqb_spec (target idx g k) idx); [congruence|].
  rewrite ?Z.eqb_refl. cbn. rewrite Ha, Hen, Hal. repeat split. lia.
Qed.

Lemma move_charges_the_vacated_cell_witness :
  bot (cell_at (writeGrid (ProcessBot 0 lone_hunter)) (target 0 lone_hunter 0)) =
    advance (bot_before 0 lone_hunter 0) /\
  alive (bot (cell_at (writeGrid (ProcessBot 0 lone_hunter)) (target 0 lone_hunter 0))) = true /\
  energy (bot (cell_at (writeGrid (ProcessBot 0 lone_hunter)) (target 0 lone_hunter 0))) =
    energy (bot (cell_at (readGrid lone_hunter) 0)) /\
  alive (bot (cell_at (writeGrid (ProcessBot 0 lone_hunter)) 0)) = false /\
  energy (bot (cell_at (writeGrid (ProcessBot 0 lone_hunter)) 0)) =
    energy (bot (cell_at (readGrid lone_hunter) 0)) - 2 - 1.
Proof.
  apply move_charges_the_vacated_cell.
  - exact zero_in_range.
  - exact lone_hunter_wf.
  - vm_compute. reflexivity.
  - vm_compute. reflexivity.
  - split; [lia|]. split; vm_compute; reflexivity.
  - vm_compute. reflexivity.
  - vm_compute. reflexivity.
Defined.

(** The relocated bot of [lone_hunter] arrives at cell 1 with its 500
    units of energy, not with 497. *)
Lemma lone_hunter_moves_for_free :
  target 0 lone_hunter 0 = 1 /\
  energy (bot (cell_at (readGrid lone_hunter) 0)) = 500 /\
  alive (bot (cell_at (writeGrid (ProcessBot 0 lone_hunter)) 1)) = true /\
  energy (bot (cell_at (writeGrid (ProcessBot 0 lone_hunter)) 1)) = 500 /\
  alive (bot (cell_at (writeGrid (ProcessBot 0 lone_hunter)) 0)) = false /\
  energy (bot (cell_at (writeGrid (ProcessBot 0 lone_hunter)) 0)) = 497.
Proof. vm_compute. repeat split. Qed.

(** C3 (amended).  A bot that executes opcode 40 towards a cell whose
    occupant in the read grid is alive does not relocate: it stays alive
    at its own index, its energy increases by the neighbour's energy
    divided by 2 with C++ integer division, which rounds towards zero
    (this is [floor (energy / 2)] when the neighbour's energy is not
    negative), and the call changes neither the read grid nor any other
    cell of the write grid, the neighbour's included.  The two energies
    are values of [int], and so is the sum that the attack computes; the
    energy that the call leaves is then a value of [int] too. *)
Theorem attack_gains_truncated_half idx g k :
  0 <= idx < NCELLS -> wf_grids g ->
  alive (bot (cell_at (readGrid g) idx)) = true ->
  0 < energy (bot (cell_at (readGrid g) idx)) ->
  executes idx g k 40 ->
  alive (bot (cell_at (readGrid g) (target idx g k))) = true ->
  is_int (energy (bot (cell_at (readGrid g) idx))) ->
  is_int (energy (bot (cell_at (readGrid g) (target idx g k)))) ->
  is_int (energy (bot (cell_at (readGrid g) idx)) +
          Z.quot (energy (bot (cell_at (readGrid g) (target idx g k)))) 2) ->
  energy (bot_before idx g (S k)) =
    energy (bot_before idx g k) +
    Z.quot (energy (bot (cell_at (readGrid g) (target idx g k)))) 2 /\
  (0 <= energy (bot (cell_at (readGrid g) (target idx g k))) ->
   Z.quot (energy (bot (cell_at (readGrid g) (target idx g k)))) 2 =
   energy (bot (cell_at (readGrid g) (target idx g k))) / 2) /\
  alive (bot (cell_at (writeGrid (ProcessBot idx g)) idx)) = true /\
  energy (bot (cell_at (writeGrid (ProcessBot idx g)) idx)) =
    energy (bot (cell_at (readGrid g) idx)) +
    Z.quot (energy (bot (cell_at (readGrid g) (target idx g k)))) 2 - 1 /\
  is_int (energy (bot (cell_at (writeGrid (ProcessBot idx g)) idx))) /\
  readGrid (ProcessBot idx g) = readGrid g /\
  (forall j, 0 <= j -> j <> idx ->
     cell_at (writeGrid (ProcessBot idx g)) j = cell_at (writeGrid g) j).
Proof.
  intros Hidx Hwf Hal He Hex Hn _ Hine Hisum.
  destruct (wf_grids_length g Hwf) as [_ Hl].
  destruct (me_body idx g k Hidx Hwf Hex) as (Ha & _ & Hen & _).
  split; [|split; [|split; [|split; [|split; [|split]]]]].
  - unfold bot_before at 1. destruct Hex as (_ & Hnot & Hfetch).
    rewrite (state_after_decode idx g k Hidx Hwf Hnot), Hfetch.
    cbn [exec_cmd Z.ltb Z.leb Z.eqb Z.compare Pos.compare Pos.compare_cont
         Pos.eqb andb fst].
    destruct (op_move_cases idx (readGrid g)
                (upd_bot idx (fun _ => advance (bot_before idx g k)) (writeGrid g)))
      as [(_ & ->)|[(H & _)|(H & _)]];
      rewrite !nextBot_upd_bot in * by (upd_len; lia);
      [reflexivity|unfold target in Hn; cbn in H; congruence
                  |unfold target in Hn; cbn in H; congruence].
  - intros Hpos. now apply Z.quot_div_nonneg.
  - rewrite (ProcessBot_attack idx g k Hidx Hwf He Hex Hn). upd_read.
    rewrite Z.eqb_refl. cbn. now rewrite Ha.
  - rewrite (ProcessBot_attack idx g k Hidx Hwf He Hex Hn). upd_read.
    rewrite Z.eqb_refl. cbn. rewrite Hen. lia.
  - rewrite (ProcessBot_attack idx g k Hidx Hwf He Hex Hn). upd_read.
    rewrite Z.eqb_refl. cbn. rewrite Hen.
    pose proof (quot2_is_int _ Hine) as Hq.
    unfold is_int, INT_MIN, INT_MAX in *. lia.
  - now apply ProcessBot_readGrid.
  - intros j Hj Hne.
    rewrite (ProcessBot_attack idx g k Hidx Hwf He Hex Hn). upd_read.
    destruct (Z.eqb_spec idx j); [congruence|reflexivity].
Qed.

Lemma attack_gains_truncated_half_witness :
  energy (bot_before 0 (hunter_and_prey 10 7) 1) =
    energy (bot_before 0 (hunter_and_prey 10 7) 0) +
    Z.quot (energy (bot (cell_at (readGrid (hunter_and_prey 10 7))
                                 (target 0 (hunter_and_prey 10 7) 0)))) 2 /\
  (0 <= energy (bot (cell_at (readGrid (hunter_and_prey 10 7))
                             (target 0 (hunter_and_prey 10 7) 0))) ->
   Z.quot (energy (bot (cell_at (readGrid (hunter_and_prey 10 7))
                                (target 0 (hunter_and_prey 10 7) 0)))) 2 =
   energy (bot (cell_at (readGrid (hunter_and_prey 10 7))
                        (target 0 (hunter_and_prey 10 7) 0))) / 2) /\
  alive (bot (cell_at (writeGrid (ProcessBot 0 (hunter_and_prey 10 7))) 0)) = true /\
  energy (bot (cell_at (writeGrid (ProcessBot 0 (hunter_and_prey 10 7))) 0)) =
    energy (bot (cell_at (readGrid (hunter_and_prey 10 7)) 0)) +
    Z.quot (energy (bot (cell_at (readGrid (hunter_and_prey 10 7))
                                 (target 0 (hunter_and_prey 10 7) 0)))) 2 - 1 /\
  is_int (energy (bot (cell_at (writeGrid (ProcessBot 0 (hunter_and_prey 10 7))) 0))) /\
  readGrid (ProcessBot 0 (hunter_and_prey 10 7)) = readGrid (hunter_and_prey 10 7) /\
  (forall j, 0 <= j -> j <> 0 ->
     cell_at (writeGrid (ProcessBot 0 (hunter_and_prey 10 7))) j =
     cell_at (writeGrid (hunter_and_prey 10 7)) j).
Proof.
  apply (attack_gains_truncated_half 0 (hunter_and_prey 10 7) 0).
  - exact zero_in_range.
  - apply hunter_and_prey_wf.
  - vm_compute. reflexivity.
  - vm_compute. reflexivity.
  - split; [lia|]. split; vm_compute; reflexivity.
  - vm_compute. reflexivity.
  - vm_compute. split; discriminate.
  - vm_compute. split; discriminate.
  - vm_compute. split; discriminate.
Defined.

(** C3 as stated fails when the living neighbour has a negative odd
    energy: with energy -3 the attacker's energy changes by -1, while
    [floor (-3 / 2)] is -2. *)
Lemma attack_gain_is_not_floor :
  executes 0 (hunter_and_prey 10 (-3)) 0 40 /\
  target 0 (hunter_and_prey 10 (-3)) 0 = 1 /\
  alive (bot (cell_at (readGrid (hunter_and_prey 10 (-3))) 1)) = true /\
  energy (bot (cell_at (readGrid (hunter_and_prey 10 (-3))) 1)) = -3 /\
  energy (bot_before 0 (hunter_and_prey 10 (-3)) 0) = 10 /\
  energy (bot_before 0 (hunter_and_prey 10 (-3)) 1) = 9 /\
  energy (bot_before 0 (hunter_and_prey 10 (-3)) 1) <>
    energy (bot_before 0 (hunter_and_prey 10 (-3)) 0) +
    energy (bot (cell_at (readGrid (hunter_and_prey 10 (-3))) 1)) / 2.
Proof.
  split; [split; [lia|split; vm_compute; reflexivity]|].
  vm_compute. repeat split. discriminate.
Qed.

(** C10.  A bot that executes opcode 40 towards a cell that holds no
    living bot in the read grid but already holds one in the write grid
    does not relocate: it stays alive at its own index, no cell other than
    its own is written, it pays the existence cost of 1 and no movement
    cost, and its turn ends with that command. *)
Theorem blocked_move_stays idx g k :
  0 <= idx < NCELLS -> wf_grids g ->
  alive (bot (cell_at (readGrid g) idx)) = true ->
  0 < energy (bot (cell_at (readGrid g) idx)) ->
  executes idx g k 40 ->
  alive (bot (cell_at (readGrid g) (target idx g k))) = false ->
  alive (bot (cell_at (writeGrid g) (target idx g k))) = true ->
  alive (bot (cell_at (writeGrid (ProcessBot idx g)) idx)) = true /\
  bot (cell_at (writeGrid (ProcessBot idx g)) idx) =
    add_energy (-1) (advance (bot_before idx g k)) /\
  energy (bot (cell_at (writeGrid (ProcessBot idx g)) idx)) =
    energy (bot (cell_at (readGrid g) idx)) - 1 /\
  (forall j, 0 <= j -> j <> idx ->
     cell_at (writeGrid (ProcessBot idx g)) j = cell_at (writeGrid g) j) /\
  organic (cell_at (writeGrid (ProcessBot idx g)) idx) =
    organic (cell_at (writeGrid g) idx) /\
  turnEnded (vm_run idx g) = true /\
  commandsExecuted (vm_run idx g) = Z.of_nat k + 1.
Proof.
  intros Hidx Hwf Hal He Hex Hr Hw.
  destruct (wf_grids_length g Hwf) as [_ Hl].
  destruct (me_body idx g k Hidx Hwf Hex) as (Ha & _ & Hen & _).
  destruct (ProcessBot_ends idx g Hidx Hwf k 40 He Hex) as (_ & Hend & Hcnt);
    [auto|].
  rewrite (ProcessBot_blocked idx g k Hidx Hwf Hal He Hex Hr Hw).
  split; [|split; [|split; [|split; [|split; [|split]]]]];
    try assumption; upd_read; rewrite ?Z.eqb_refl; cbn.
  - now rewrite Ha.
  - reflexivity.
  - rewrite Hen. lia.
  - intros j Hj Hne. upd_read.
    destruct (Z.eqb_spec idx j); [congruence|reflexivity].
  - reflexivity.
Qed.

Lemma blocked_move_stays_witness :
  alive (bot (cell_at (writeGrid (ProcessBot 0 hunter_blocked)) 0)) = true /\
  bot (cell_at (writeGrid (ProcessBot 0 hunter_blocked)) 0) =
    add_energy (-1) (advance (bot_before 0 hunter_blocked 0)) /\
  energy (bot (cell_at (writeGrid (ProcessBot 0 hunter_blocked)) 0)) =
    energy (bot (cell_at (readGrid hunter_blocked) 0)) - 1 /\
  (forall j, 0 <= j -> j <> 0 ->
     cell_at (writeGrid (ProcessBot 0 hunter_blocked)) j =
     cell_at (writeGrid hunter_blocked) j) /\
  organic (cell_at (writeGrid (ProcessBot 0 hunter_blocked)) 0) =
    organic (cell_at (writeGrid hunter_blocked) 0) /\
  turnEnded (vm_run 0 hunter_blocked) = true /\
  commandsExecuted (vm_run 0 hunter_blocked) = Z.of_nat 0 + 1.
Proof.
  apply (blocked_move_stays 0 hunter_blocked 0).
  - exact zero_in_range.
  - exact hunter_blocked_wf.
  - vm_compute. reflexivity.
  - vm_compute. reflexivity.
  - split; [lia|]. split; vm_compute; reflexivity.
  - vm_compute. reflexivity.
  - vm_compute. reflexivity.
Defined.

(** * Opcode 30 *)

Lemma pasture_wf e o : wf_grids (pasture e o).
Proof.
  split; unfold pasture; cbn [readGrid writeGrid];
    rewrite ?length_insert; apply blank_grid_length.
Qed.

(** [ProcessBot] when iteration [k] decodes opcode 30. *)
Lemma ProcessBot_eat idx g k :
  0 <= idx < NCELLS -> wf_grids g ->
  0 < energy (bot (cell_at (readGrid g) idx)) ->
  executes idx g k 30 ->
  writeGrid (ProcessBot idx g) =
    upd_bot idx (add_energy (-1))
      (op_eat idx (readGrid g)
         (upd_bot idx (fun _ => advance (bot_before idx g k)) (writeGrid g))) /\
  writeGrid (grids (state_after (S k) idx g)) =
    op_eat idx (readGrid g)
      (upd_bot idx (fun _ => advance (bot_before idx g k)) (writeGrid g)) /\
  turnEnded (vm_run idx g) = true.
Proof.
  intros Hidx Hwf He Hex.
  destruct (ProcessBot_ends idx g Hidx Hwf k 30 He Hex) as (-> & Hend & _); [auto|].
  destruct Hex as (_ & Hnot & Hfetch).
  rewrite (state_after_decode idx g k Hidx Hwf Hnot), Hfetch.
  repeat split. exact Hend.
Qed.

(** C7 (amended).  A living bot that executes opcode 30 ends its turn.
    When the organic level [ro] of its cell in the read grid is positive,
    with [eat = min ro 20] its energy increases by [eat], the organic
    level of its cell in the write grid decreases by [eat] and its colour
    becomes the red marker.  When [ro] is not positive (in particular 0)
    nothing is eaten: energy, organic level and colour are left as they
    are.  In both cases the existence cost of 1 is paid afterwards and no
    other cell is written.  The energy of the bot is a value of [int]
    that leaves room for the meal, and the organic level of its cell of
    the write grid leaves room for the subtraction; the energy and the
    organic level that the call leaves are then values of [int]. *)
Theorem eat_takes_up_to_twenty idx g k :
  0 <= idx < NCELLS -> wf_grids g ->
  alive (bot (cell_at (readGrid g) idx)) = true ->
  0 < energy (bot (cell_at (readGrid g) idx)) ->
  executes idx g k 30 ->
  is_int (energy (bot (cell_at (readGrid g) idx))) ->
  energy (bot (cell_at (readGrid g) idx)) +
    Z.min (organic (cell_at (readGrid g) idx)) 20 <= INT_MAX ->
  INT_MIN + 20 <= organic (cell_at (writeGrid g) idx) <= INT_MAX ->
  (0 < organic (cell_at (readGrid g) idx) ->
   energy (bot_before idx g (S k)) =
     energy (bot_before idx g k) + Z.min (organic (cell_at (readGrid g) idx)) 20 /\
   energy (bot (cell_at (writeGrid (ProcessBot idx g)) idx)) =
     energy (bot (cell_at (readGrid g) idx)) +
     Z.min (organic (cell_at (readGrid g) idx)) 20 - 1 /\
   organic (cell_at (writeGrid (ProcessBot idx g)) idx) =
     organic (cell_at (writeGrid g) idx) -
     Z.min (organic (cell_at (readGrid g) idx)) 20 /\
   color (bot (cell_at (writeGrid (ProcessBot idx g)) idx)) = RED) /\
  (organic (cell_at (readGrid g) idx) <= 0 ->
   energy (bot_before idx g (S k)) = energy (bot_before idx g k) /\
   energy (bot (cell_at (writeGrid (ProcessBot idx g)) idx)) =
     energy (bot (cell_at (readGrid g) idx)) - 1 /\
   organic (cell_at (writeGrid (ProcessBot idx g)) idx) =
     organic (cell_at (writeGrid g) idx) /\
   color (bot (cell_at (writeGrid (ProcessBot idx g)) idx)) =
     color (bot (cell_at (readGrid g) idx))) /\
  is_int (energy (bot (cell_at (writeGrid (ProcessBot idx g)) idx))) /\
  is_int (organic (cell_at (writeGrid (ProcessBot idx g)) idx)) /\
  alive (bot (cell_at (writeGrid (ProcessBot idx g)) idx)) = true /\
  turnEnded (vm_run idx g) = true /\
  (forall j, 0 <= j -> j <> idx ->
     cell_at (writeGrid (ProcessBot idx g)) j = cell_at (writeGrid g) j).
Proof.
  intros Hidx Hwf Hal He Hex Hie Hroom Horg.
  unfold is_int, INT_MIN, INT_MAX in *.
  destruct (wf_grids_length g Hwf) as [_ Hl].
  assert (executes idx g k 30) as Hex' by exact Hex.
  destruct Hex' as (_ & Hnot & _).
  destruct (state_before_ending idx g Hidx Hwf k Hnot) as (_ & Ha & _ & Hen & Hco).
  destruct (ProcessBot_eat idx g k Hidx Hwf He Hex) as (-> & Hafter & Hend).
  assert (bot_before idx g (S k) =
          nextBot idx (op_eat idx (readGrid g)
            (upd_bot idx (fun _ => advance (bot_before idx g k)) (writeGrid g))))
    as -> by (unfold bot_before at 1; now rewrite Hafter).
  clear Hafter. set (me := bot_before idx g k) in *. clearbody me.
  unfold op_eat, nextBot.
  destruct (Z.ltb_spec 0 (organic (cell_at (readGrid g) idx))) as [Hpos|Hnone];
    cbv zeta.
  - split; [intros _|split; [intros; lia|]].
    + upd_read. rewrite !Z.eqb_refl. cbn. rewrite Hen. repeat split; lia.
    + split; [|split; [|split; [|split; [exact Hend|]]]].
      * upd_read. rewrite !Z.eqb_refl. cbn. rewrite Hen. lia.
      * upd_read. rewrite !Z.eqb_refl. cbn. lia.
      * upd_read. rewrite !Z.eqb_refl. cbn. now rewrite Ha.
      * intros j Hj Hne. upd_read.
        destruct (Z.eqb_spec idx j); [congruence|reflexivity].
  - split; [intros; lia|split; [intros _|]].
    + upd_read. rewrite !Z.eqb_refl. cbn. rewrite Hen, Hco. repeat split; lia.
    + split; [|split; [|split; [|split; [exact Hend|]]]].
      * upd_read. rewrite !Z.eqb_refl. cbn. rewrite Hen. lia.
      * upd_read. rewrite !Z.eqb_refl. cbn. lia.
      * upd_read. rewrite !Z.eqb_refl. cbn. now rewrite Ha.
      * intros j Hj Hne. upd_read.
        destruct (Z.eqb_spec idx j); [congruence|reflexivity].
Qed.

Lemma eat_takes_up_to_twenty_witness :
  (0 < organic (cell_at (readGrid (pasture 100 35)) 0) ->
   energy (bot_before 0 (pasture 100 35) 1) =
     energy (bot_before 0 (pasture 100 35) 0) +
     Z.min (organic (cell_at (readGrid (pasture 100 35)) 0)) 20 /\
   energy (bot (cell_at (writeGrid (ProcessBot 0 (pasture 100 35))) 0)) =
     energy (bot (cell_at (readGrid (pasture 100 35)) 0)) +
     Z.min (organic (cell_at (readGrid (pasture 100 35)) 0)) 20 - 1 /\
   organic (cell_at (writeGrid (ProcessBot 0 (pasture 100 35))) 0) =
     organic (cell_at (writeGrid (pasture 100 35)) 0) -
     Z.min (organic (cell_at (readGrid (pasture 100 35)) 0)) 20 /\
   color (bot (cell_at (writeGrid (ProcessBot 0 (pasture 100 35))) 0)) = RED) /\
  (organic (cell_at (readGrid (pasture 100 35)) 0) <= 0 ->
   energy (bot_before 0 (pasture 100 35) 1) = energy (bot_before 0 (pasture 100 35) 0) /\
   energy (bot (cell_at (writeGrid (ProcessBot 0 (pasture 100 35))) 0)) =
     energy (bot (cell_at (readGrid (pasture 100 35)) 0)) - 1 /\
   organic (cell_at (writeGrid (ProcessBot 0 (pasture 100 35))) 0) =
     organic (cell_at (writeGrid (pasture 100 35)) 0) /\
   color (bot (cell_at (writeGrid (ProcessBot 0 (pasture 100 35))) 0)) =
     color (bot (cell_at (readGrid (pasture 100 35)) 0))) /\
  is_int (energy (bot (cell_at (writeGrid (ProcessBot 0 (pasture 100 35))) 0))) /\
  is_int (organic (cell_at (writeGrid (ProcessBot 0 (pasture 100 35))) 0)) /\
  alive (bot (cell_at (writeGrid (ProcessBot 0 (pasture 100 35))) 0)) = true /\
  turnEnded (vm_run 0 (pasture 100 35)) = true /\
  (forall j, 0 <= j -> j <> 0 ->
     cell_at (writeGrid (ProcessBot 0 (pasture 100 35))) j =
     cell_at (writeGrid (pasture 100 35)) j).
Proof.
  apply (eat_takes_up_to_twenty 0 (pasture 100 35) 0).
  - exact zero_in_range.
  - apply pasture_wf.
  - vm_compute. reflexivity.
  - vm_compute. reflexivity.
  - split; [lia|]. split; vm_compute; reflexivity.
  - vm_compute. split; discriminate.
  - vm_compute. discriminate.
  - vm_compute. split; discriminate.
Defined.

(** C7 as stated fails on a cell without organic matter: the bot executes
    opcode 30, and its colour is not set to the red marker. *)
Lemma eating_nothing_keeps_colour :
  executes 0 (pasture 100 0) 0 30 /\
  organic (cell_at (readGrid (pasture 100 0)) 0) = 0 /\
  color (bot (cell_at (writeGrid (ProcessBot 0 (pasture 100 0))) 0)) = COLOR_BOT /\
  color (bot (cell_at (writeGrid (ProcessBot 0 (pasture 100 0))) 0)) <> RED.
Proof.
  split; [split; [lia|split; vm_compute; reflexivity]|].
  vm_compute. repeat split. discriminate.
Qed.

(** * The instruction budget *)

Lemma jump_fetched (l : list Z) i :
  Forall (fun c => 0 <= c < 8) l -> 0 <= arr_get 0 l i < 8.
Proof.
  intros H. unfold arr_get.
  destruct (l !! Z.to_nat i) as [c|] eqn:E; simpl; [|lia].
  exact (Forall_lookup_1 _ _ _ _ H E).
Qed.

(** A genome of jumps never ends the turn. *)
Lemma jumps_never_end idx g k :
  Forall (fun c => 0 <= c < 8) (genome (bot (cell_at (readGrid g) idx))) ->
  turnEnded (state_after k idx g) = false.
Proof.
  intros Hj. induction k as [|k IH]; [reflexivity|].
  rewrite state_after_S, vm_step_turnEnded, IH, exec_cmd_ends.
  unfold fetch. rewrite state_after_readGrid.
  pose proof (jump_fetched _ (ip (nextBot idx (writeGrid (grids (state_after k idx g))))) Hj)
    as Hc.
  set (cmd := arr_get 0 _ _) in *.
  destruct (Z.eqb_spec cmd 20), (Z.eqb_spec cmd 30), (Z.eqb_spec cmd 40);
    try lia; reflexivity.
Qed.

(** The run of a genome of jumps, with the budget [n = 10] kept symbolic. *)
Lemma jumps_use_the_budget idx g (n : nat) :
  n = 10%nat ->
  0 <= idx < NCELLS -> wf_grids g ->
  0 < energy (bot (cell_at (readGrid g) idx)) ->
  Forall (fun c => 0 <= c < 8) (genome (bot (cell_at (readGrid g) idx))) ->
  vm_loop VM_FUEL idx (vm_init idx g) = Some (state_after n idx g) /\
  (forall j, (j <= n)%nat -> turnEnded (state_after j idx g) = false) /\
  commandsExecuted (vm_run idx g) = Z.of_nat n /\
  energy (bot (cell_at (writeGrid (ProcessBot idx g)) idx)) =
    energy (bot (cell_at (readGrid g) idx)) - 1 /\
  alive (bot (cell_at (writeGrid (ProcessBot idx g)) idx)) =
    alive (bot (cell_at (readGrid g) idx)).
Proof.
  intros Hn Hidx Hwf He Hjumps.
  destruct (wf_grids_length g Hwf) as [_ Hl].
  destruct (vm_run_spec idx g) as (m & Hm & Hloop & Hrun & Hend & _).
  assert (m = n) as Hmn.
  { unfold loop_cond in Hend.
    rewrite state_after_commandsExecuted, (jumps_never_end idx g m Hjumps) in Hend.
    destruct (Z.ltb_spec (Z.of_nat m) 10); [discriminate|lia]. }
  subst m. clear Hn Hm Hend.
  split; [exact Hloop|]. split; [intros j _; now apply jumps_never_end|].
  split; [rewrite Hrun; apply state_after_commandsExecuted|].
  destruct (state_before_ending idx g Hidx Hwf n (jumps_never_end idx g n Hjumps))
    as (Hw & Ha & _ & Hen & _).
  unfold ProcessBot.
  destruct (Z.leb_spec (energy (bot (cell_at (readGrid g) idx))) 0); [lia|].
  cbv zeta. rewrite Hrun. cbn [writeGrid]. rewrite Hw.
  set (me := bot_before idx g n) in *. clearbody me.
  upd_read. rewrite !Z.eqb_refl. cbn. rewrite Ha, Hen. split; [lia|reflexivity].
Qed.

(** C4.  The instruction loop of [ProcessBot] returns for every bot and
    genome, and it has then run at most 10 fetch-decode steps.  When the
    genome consists of jump opcodes (values 0 to 7) only, no step ends the
    turn, the loop runs exactly 10 steps, and the existence cost of 1 is
    still deducted afterwards. *)
Theorem instruction_budget idx g :
  (exists m : nat,
     (m <= 10)%nat /\
     (forall fuel, (VM_FUEL <= fuel)%nat ->
        vm_loop fuel idx (vm_init idx g) = Some (state_after m idx g)) /\
     vm_run idx g = state_after m idx g /\
     commandsExecuted (state_after m idx g) = Z.of_nat m /\
     loop_cond (state_after m idx g) = false /\
     (forall j, (j < m)%nat -> loop_cond (state_after j idx g) = true)) /\
  (0 <= idx < NCELLS -> wf_grids g ->
   0 < energy (bot (cell_at (readGrid g) idx)) ->
   Forall (fun c => 0 <= c < 8) (genome (bot (cell_at (readGrid g) idx))) ->
   vm_loop VM_FUEL idx (vm_init idx g) = Some (state_after 10 idx g) /\
   (forall j, (j <= 10)%nat -> turnEnded (state_after j idx g) = false) /\
   commandsExecuted (vm_run idx g) = Z.of_nat 10 /\
   energy (bot (cell_at (writeGrid (ProcessBot idx g)) idx)) =
     energy (bot (cell_at (readGrid g) idx)) - 1 /\
   alive (bot (cell_at (writeGrid (ProcessBot idx g)) idx)) =
     alive (bot (cell_at (readGrid g) idx))).
Proof.
  split.
  - destruct (vm_run_spec idx g) as (m & Hm & Hloop & Hrun & Hend & Hbefore).
    exists m. split; [exact Hm|].
    split; [intros fuel Hfuel; exact (vm_loop_more_fuel idx _ _ _ _ Hfuel Hloop)|].
    split; [exact Hrun|].
    split; [apply state_after_commandsExecuted|]. split; [exact Hend|exact Hbefore].
  - exact (jumps_use_the_budget idx g 10 eq_refl).
Qed.

Lemma instruction_budget_witness :
  vm_loop VM_FUEL 0 (vm_init 0 idle_grids) = Some (state_after 10 0 idle_grids) /\
  (forall j, (j <= 10)%nat -> turnEnded (state_after j 0 idle_grids) = false) /\
  commandsExecuted (vm_run 0 idle_grids) = Z.of_nat 10 /\
  energy (bot (cell_at (writeGrid (ProcessBot 0 idle_grids)) 0)) =
    energy (bot (cell_at (readGrid idle_grids) 0)) - 1 /\
  alive (bot (cell_at (writeGrid (ProcessBot 0 idle_grids)) 0)) =
    alive (bot (cell_at (readGrid idle_grids) 0)).
Proof.
  apply (proj2 (instruction_budget 0 idle_grids)).
  - exact zero_in_range.
  - split; unfold idle_grids; cbn [readGrid writeGrid];
      rewrite ?length_insert; apply blank_grid_length.
  - vm_compute. reflexivity.
  - assert (genome (bot (cell_at (readGrid idle_grids) 0)) = replicate 64 0) as ->
      by (vm_compute; reflexivity).
    apply Forall_replicate. lia.
Defined.

(** * The worker count *)

(** C9 (amended).  When the hardware parallelism is reported as zero, the
    tick scheduler uses exactly 4 workers; otherwise it uses the reported
    count.  The worker count is always at least 1. *)
Theorem worker_count_fallback hc :
  0 <= hc <= INT_MAX ->
  (hc = 0 -> threadsCount hc = 4) /\
  (hc <> 0 -> threadsCount hc = hc) /\
  1 <= threadsCount hc.
Proof.
  intros Hhc. unfold threadsCount, to_int.
  destruct (Z.leb_spec hc INT_MAX); [|lia].
  destruct (Z.eqb_spec hc 0); repeat split; lia.
Qed.

Lemma worker_count_fallback_witness :
  (0 = 0 -> threadsCount 0 = 4) /\
  (0 <> 0 -> threadsCount 0 = 0) /\
  1 <= threadsCount 0.
Proof. apply worker_count_fallback. unfold INT_MAX. lia. Defined.

(** C9 as stated fails: with zero reported the worker count is not 1. *)
Lemma zero_parallelism_is_not_one_worker : threadsCount 0 <> 1.
Proof. vm_compute. discriminate. Qed.

(** * The world initialiser *)

Section init.
Variable i : Z.

Lemma init_genes_spec (m : nat) (st : Grid * Rng) :
  0 <= i < Z.of_nat (length (fst st)) ->
  let res := for_range 0 (Z.of_nat m) (init_gene i) st in
  length (fst res) = length (fst st) /\
  draws (snd res) = draws (snd st) /\
  (forall j, 0 <= j -> j <> i -> cell_at (fst res) j = cell_at (fst st) j) /\
  organic (cell_at (fst res) i) = organic (cell_at (fst st) i) /\
  same_but_genome (bot (cell_at (fst st) i)) (bot (cell_at (fst res) i)).
Proof.
  intros Hi. induction m as [|m IH]; cbv zeta.
  - repeat split.
  - rewrite for_range_S.
    set (res := for_range 0 (Z.of_nat m) (init_gene i) st) in *.
    destruct IH as (Hlen & Hds & Hfr & Horg & Hsame).
    unfold init_gene. cbn [fst snd byteDist draws].
    split; [upd_len; exact Hlen|]. split; [exact Hds|].
    split; [|split].
    + intros j Hj Hne. upd_read. destruct (Z.eqb_spec i j); [congruence|].
      now apply Hfr.
    + upd_read. rewrite Z.eqb_refl. exact Horg.
    + upd_read. rewrite Z.eqb_refl. cbn.
      destruct Hsame as (H1 & H2 & H3 & H4 & H5). repeat split; assumption.
Qed.

Lemma init_cell_spec (st : Grid * Rng) :
  0 <= i < Z.of_nat (length (fst st)) ->
  let res := init_cell i st in
  length (fst res) = length (fst st) /\
  draws (snd res) = draws (snd st) /\
  (forall j, 0 <= j -> j <> i -> cell_at (fst res) j = cell_at (fst st) j) /\
  initialised (draws (snd st)) (cell_at (fst st) i) (cell_at (fst res) i).
Proof.
  intros Hi. cbv zeta. unfold init_cell. cbn [byteDist draws drawn fst snd].
  set (ds := draws (snd st)). set (p := drawn (snd st)).
  destruct (spawns (ds (S p))) eqn:Hs.
  - set (grid3 := upd_bot i (set_dir _) _).
    assert (Z.of_nat (length grid3) = Z.of_nat (length (fst st))) as Hl3
      by (unfold grid3; now upd_len).
    change GENOME_SIZE with (Z.of_nat 64).
    destruct (init_genes_spec 64 (grid3, mkRng ds (S (S (S p)))))
      as (Hlen & Hds & Hfr & Horg & Ha & _ & Hd & He & _).
    { cbn [fst]. lia. }
    cbn [fst snd draws] in *.
    split; [lia|]. split; [exact Hds|]. split.
    + intros j Hj Hne. rewrite Hfr by auto. unfold grid3. upd_read.
      destruct (Z.eqb_spec i j); [congruence|reflexivity].
    + exists p. fold ds. rewrite Hs, Horg, Ha, Hd, He. unfold grid3. upd_read.
      rewrite !Z.eqb_refl. repeat split.
  - cbn [fst snd draws].
    split; [now upd_len|]. split; [reflexivity|]. split.
    + intros j Hj Hne. upd_read.
      destruct (Z.eqb_spec i j); [congruence|reflexivity].
    + exists p. fold ds. rewrite Hs. upd_read. rewrite Z.eqb_refl. split; reflexivity.
Qed.
End init.

(** The loop of [InitWorld] after [k] cells. *)
Lemma init_world_prefix (ds : nat -> Z) (grid : Grid) (k : nat) :
  (k <= length grid)%nat ->
  let st := for_range 0 (Z.of_nat k) init_cell (grid, mkRng ds 0) in
  length (fst st) = length grid /\
  draws (snd st) = ds /\
  (forall j, Z.of_nat k <= j -> cell_at (fst st) j = cell_at grid j) /\
  (forall j, 0 <= j < Z.of_nat k ->
     initialised ds (cell_at grid j) (cell_at (fst st) j)).
Proof.
  induction k as [|k IH]; intros Hk; cbv zeta.
  - repeat split. intros j Hj. lia.
  - rewrite for_range_S.
    set (st := for_range 0 (Z.of_nat k) init_cell (grid, mkRng ds 0)) in *.
    destruct IH as (Hlen & Hds & Hrest & Hdone); [lia|].
    destruct (init_cell_spec (Z.of_nat k) st) as (Hlen' & Hds' & Hfr & Hinit).
    { rewrite Hlen. lia. }
    split; [congruence|]. split; [congruence|]. split.
    + intros j Hj. rewrite Hfr by lia. apply Hrest. lia.
    + intros j Hj. destruct (Z.eq_dec j (Z.of_nat k)) as [->|Hne].
      * rewrite Hds, Hrest in Hinit by lia. exact Hinit.
      * rewrite Hfr by lia. apply Hdone. lia.
Qed.

(** C8 (amended).  [InitWorld] sets the organic level of every cell to a
    draw reduced to the range [0, 50), and places a living bot in a cell
    exactly when the spawn draw, a byte in [0, 256), is greater than 200,
    which is the case for exactly 55 of the 256 possible values; every
    bot placed has energy 500 and a direction in [0, 8). *)
Theorem init_world_cells (ds : nat -> Z) (grid : Grid) :
  (forall n, 0 <= ds n <= 255) ->
  length grid = Z.to_nat NCELLS ->
  (forall j, alive (bot (cell_at grid j)) = false) ->
  length (List.filter spawns (seqZ 0 256)) = 55%nat /\
  length (InitWorld ds grid) = Z.to_nat NCELLS /\
  forall i, 0 <= i < NCELLS ->
    0 <= organic (cell_at (InitWorld ds grid) i) < 50 /\
    exists p : nat,
      organic (cell_at (InitWorld ds grid) i) = Z.rem (ds p) 50 /\
      alive (bot (cell_at (InitWorld ds grid) i)) = spawns (ds (S p)) /\
      (alive (bot (cell_at (InitWorld ds grid) i)) = true ->
       energy (bot (cell_at (InitWorld ds grid) i)) = 500 /\
       0 <= dir (bot (cell_at (InitWorld ds grid) i)) < 8).
Proof.
  intros Hds Hlen Hdead. split; [vm_compute; reflexivity|].
  pose proof NCELLS_nonneg as Hn.
  destruct (init_world_prefix ds grid (Z.to_nat NCELLS)) as (Hl & _ & _ & Hcells);
    [lia|].
  rewrite Z2Nat.id in Hl, Hcells by exact Hn.
  unfold InitWorld. split; [congruence|].
  intros i Hi. destruct (Hcells i Hi) as (p & Horg & Hbot).
  set (c := cell_at (fst (for_range 0 NCELLS init_cell (grid, mkRng ds 0))) i) in *.
  clearbody c.
  assert (0 <= Z.rem (ds p) 50 < 50) as Hrange.
  { apply Z.rem_bound_pos; [apply Hds|lia]. }
  split; [lia|]. exists p. split; [exact Horg|].
  destruct (spawns (ds (S p))).
  - destruct Hbot as (Ha & He & Hd). split; [exact Ha|]. intros _.
    split; [exact He|]. rewrite Hd. unfold to_uchar.
    pose proof (Hds (S (S p))) as Hb.
    assert (0 <= Z.rem (ds (S (S p))) 8 < 8) by (apply Z.rem_bound_pos; lia).
    rewrite Z.mod_small by lia. lia.
  - rewrite Hbot, Hdead. split; [reflexivity|discriminate].
Qed.

Lemma init_world_cells_witness :
  length (List.filter spawns (seqZ 0 256)) = 55%nat /\
  length (InitWorld (fun n => Z.of_nat n mod 256) blank_grid) = Z.to_nat NCELLS /\
  forall i, 0 <= i < NCELLS ->
    0 <= organic (cell_at (InitWorld (fun n => Z.of_nat n mod 256) blank_grid) i) < 50 /\
    exists p : nat,
      organic (cell_at (InitWorld (fun n => Z.of_nat n mod 256) blank_grid) i) =
        Z.rem ((fun n => Z.of_nat n mod 256) p) 50 /\
      alive (bot (cell_at (InitWorld (fun n => Z.of_nat n mod 256) blank_grid) i)) =
        spawns ((fun n => Z.of_nat n mod 256) (S p)) /\
      (alive (bot (cell_at (InitWorld (fun n => Z.of_nat n mod 256) blank_grid) i)) = true ->
       energy (bot (cell_at (InitWorld (fun n => Z.of_nat n mod 256) blank_grid) i)) = 500 /\
       0 <= dir (bot (cell_at (InitWorld (fun n => Z.of_nat n mod 256) blank_grid) i)) < 8).
Proof.
  apply (init_world_cells (fun n => Z.of_nat n mod 256) blank_grid).
  - intros n. pose proof (Z.mod_pos_bound (Z.of_nat n) 256). lia.
  - exact blank_grid_length.
  - intros j. unfold cell_at, arr_get, blank_grid.
    destruct (replicate (Z.to_nat NCELLS) blank_cell !! Z.to_nat j) as [c|] eqn:E;
      [|reflexivity].
    apply lookup_replicate in E as [-> _]. reflexivity.
Defined.

(** C8 as stated fails: the spawn test does not succeed for 56 of the 256
    byte values. *)
Lemma spawn_draws_are_not_56 :
  length (List.filter spawns (seqZ 0 256)) <> 56%nat.
Proof. vm_compute. discriminate. Qed.
(** * The toroidal neighbourhood *)

Lemma dir_offsets d :
  0 <= d < 8 ->
  (d = 0 /\ arr_get 0 DIR_X d = 0 /\ arr_get 0 DIR_Y d = -1) \/
  (d = 1 /\ arr_get 0 DIR_X d = 1 /\ arr_get 0 DIR_Y d = -1) \/
  (d = 2 /\ arr_get 0 DIR_X d = 1 /\ arr_get 0 DIR_Y d = 0) \/
  (d = 3 /\ arr_get 0 DIR_X d = 1 /\ arr_get 0 DIR_Y d = 1) \/
  (d = 4 /\ arr_get 0 DIR_X d = 0 /\ arr_get 0 DIR_Y d = 1) \/
  (d = 5 /\ arr_get 0 DIR_X d = -1 /\ arr_get 0 DIR_Y d = 1) \/
  (d = 6 /\ arr_get 0 DIR_X d = -1 /\ arr_get 0 DIR_Y d = 0) \/
  (d = 7 /\ arr_get 0 DIR_X d = -1 /\ arr_get 0 DIR_Y d = -1).
Proof.
  intros Hd.
  assert (d = 0 \/ d = 1 \/ d = 2 \/ d = 3 \/ d = 4 \/ d = 5 \/ d = 6 \/ d = 7)
    as [->|[->|[->|[->|[->|[->|[->| ->]]]]]]] by lia;
    vm_compute; intuition congruence.
Qed.

(** The column and the row of the neighbour. *)
Lemma neighbour_coords idx d :
  0 <= idx < NCELLS ->
  (neighbour idx d) mod WORLD_W = (idx mod WORLD_W + arr_get 0 DIR_X d) mod WORLD_W /\
  (neighbour idx d) / WORLD_W = (idx / WORLD_W + arr_get 0 DIR_Y d) mod WORLD_H.
Proof.
  rewrite NCELLS_val. intros Hidx. unfold neighbour, WORLD_W, WORLD_H.
  pose proof (DIR_X_bound d) as Hx. pose proof (DIR_Y_bound d) as Hy.
  set (dx := arr_get 0 DIR_X d) in *. set (dy := arr_get 0 DIR_Y d) in *.
  rewrite (Z.rem_mod_nonneg idx 256) by lia.
  rewrite (Z.quot_div_nonneg idx 256) by lia.
  assert (0 <= idx mod 256 < 256) as Hxr by (apply Z.mod_pos_bound; lia).
  assert (0 <= idx / 256 < 128) as Hyr.
  { split; [apply Z.div_pos; lia | apply Z.div_lt_upper_bound; lia]. }
  rewrite !Z.rem_mod_nonneg by lia.
  split; Z.div_mod_to_equations; lia.
Qed.

(** A cell is determined by its column and its row. *)
Lemma index_of_coords i j :
  i mod WORLD_W = j mod WORLD_W -> i / WORLD_W = j / WORLD_W -> i = j.
Proof. unfold WORLD_W. intros Hx Hy. Z.div_mod_to_equations. lia. Qed.

Lemma neighbour_not_self idx d :
  0 <= idx < NCELLS -> 0 <= d < 8 -> neighbour idx d <> idx.
Proof.
  intros Hidx Hd E. destruct (neighbour_coords idx d Hidx) as [Hx Hy]. rewrite E in *.
  rewrite NCELLS_val in Hidx. unfold WORLD_W, WORLD_H in *.
  destruct (dir_offsets d Hd) as [H|[H|[H|[H|[H|[H|[H|H]]]]]]];
    destruct H as (_ & Hdx & Hdy); rewrite Hdx, Hdy in *;
    Z.div_mod_to_equations; lia.
Qed.

Lemma neighbour_injective idx d1 d2 :
  0 <= idx < NCELLS -> 0 <= d1 < 8 -> 0 <= d2 < 8 ->
  neighbour idx d1 = neighbour idx d2 -> d1 = d2.
Proof.
  intros Hidx H1 H2 E.
  destruct (neighbour_coords idx d1 Hidx) as [Hx1 Hy1].
  destruct (neighbour_coords idx d2 Hidx) as [Hx2 Hy2].
  rewrite E, Hx2 in Hx1. rewrite E, Hy2 in Hy1. clear Hx2 Hy2 E.
  rewrite NCELLS_val in *. unfold WORLD_W, WORLD_H in *.
  assert (0 <= idx mod 256 < 256) as Hxr by (apply Z.mod_pos_bound; lia).
  assert (0 <= idx / 256 < 128) as Hyr.
  { split; [apply Z.div_pos; lia | apply Z.div_lt_upper_bound; lia]. }
  set (x := idx mod 256) in *. set (y := idx / 256) in *. clearbody x y.
  destruct (dir_offsets d1 H1) as [H|[H|[H|[H|[H|[H|[H|H]]]]]]];
    destruct H as (-> & Hdx & Hdy); rewrite Hdx, Hdy in *; clear Hdx Hdy;
  destruct (dir_offsets d2 H2) as [K|[K|[K|[K|[K|[K|[K|K]]]]]]];
    destruct K as (-> & Hdx & Hdy); rewrite Hdx, Hdy in *; clear Hdx Hdy;
    try reflexivity; exfalso; Z.div_mod_to_equations; lia.
Qed.

(** * The instruction pointer and the direction stay within bounds *)

Lemma to_uchar_rem x m :
  0 <= x -> 0 < m <= 256 -> to_uchar (Z.rem x m) = x mod m /\ 0 <= x mod m < m.
Proof.
  intros Hx Hm. rewrite Z.rem_mod_nonneg by lia.
  pose proof (Z.mod_pos_bound x m ltac:(lia)) as Hb.
  unfold to_uchar. rewrite (Z.mod_small (x mod m)) by lia. auto.
Qed.

Lemma advance_in_bounds G b : in_bounds G b -> in_bounds G (advance b).
Proof.
  intros (Hip & Hdir & HG). unfold in_bounds, advance, GENOME_SIZE in *. cbn.
  destruct (to_uchar_rem (ip b + 1) 64) as [-> Hb]; [lia|lia|]. auto.
Qed.

Lemma fetched_byte (l : list Z) i :
  Forall (fun c => 0 <= c <= 255) l -> 0 <= arr_get 0 l i <= 255.
Proof.
  intros H. unfold arr_get.
  destruct (l !! Z.to_nat i) as [c|] eqn:E; simpl; [|lia].
  exact (Forall_lookup_1 _ _ _ _ H E).
Qed.

Lemma nextBot_upd_cell_organic idx f (w : Grid) :
  nextBot idx (upd_cell idx (map_organic f) w) = nextBot idx w.
Proof.
  unfold nextBot, cell_at, arr_get, upd_cell. rewrite list_lookup_alter_eq.
  destruct (w !! Z.to_nat idx); reflexivity.
Qed.

Section bounds.
Variables (idx : Z) (r w : Grid) (G : list Z).
Hypothesis Hidx : 0 <= idx < NCELLS.
Hypothesis Hlen : Z.of_nat (length w) = NCELLS.

Lemma nextBot_op_move :
  nextBot idx (op_move idx r w) = nextBot idx w \/
  (exists d, nextBot idx (op_move idx r w) = add_energy d (nextBot idx w)) \/
  nextBot idx (op_move idx r w) =
    add_energy (-2) (set_alive false (nextBot idx w)).
Proof.
  destruct (op_move_cases idx r w) as [(_ & ->)|[(_ & _ & ->)|(_ & _ & ->)]].
  - right. left. eexists. now rewrite nextBot_upd_bot by lia.
  - right. right.
    pose proof (neighbour_range idx (dir (nextBot idx w)) Hidx) as Hn.
    rewrite !nextBot_upd_bot by (upd_len; lia).
    do 2 f_equal. unfold nextBot in *. upd_read.
    match goal with |- context [?a =? idx] => destruct (a =? idx) end; reflexivity.
  - now left.
Qed.

Lemma exec_cmd_in_bounds cmd :
  0 <= cmd <= 255 ->
  in_bounds G (nextBot idx w) ->
  in_bounds G (nextBot idx (fst (exec_cmd idx cmd r w))).
Proof.
  intros Hcmd Hb. assert (Hb' := Hb). destruct Hb' as (Hip & Hdir & HG).
  unfold exec_cmd, GENOME_SIZE in *.
  destruct (Z.ltb_spec cmd 8).
  { cbn [fst]. unfold op_jump. rewrite nextBot_upd_bot by lia.
    unfold in_bounds, GENOME_SIZE. cbn.
    destruct (to_uchar_rem (ip (nextBot idx w) + cmd) 64) as [-> ?]; [lia|lia|]. auto. }
  destruct (Z.leb_spec 10 cmd); destruct (Z.leb_spec cmd 15); cbn [andb].
  { cbn [fst]. unfold op_turn. rewrite nextBot_upd_bot by lia.
    unfold in_bounds, GENOME_SIZE. cbn.
    destruct (to_uchar_rem (dir (nextBot idx w) + (cmd - 10)) 8) as [-> ?];
      [lia|lia|]. auto. }
  all: destruct (cmd =? 20);
    [cbn [fst]; unfold op_photo; rewrite !nextBot_upd_bot by (upd_len; lia); exact Hb|].
  all: destruct (cmd =? 30);
    [cbn [fst]; unfold op_eat; destruct (0 <? _); [|exact Hb];
     cbv zeta; rewrite nextBot_upd_bot by (upd_len; lia);
     rewrite nextBot_upd_cell_organic, nextBot_upd_bot by lia; exact Hb|].
  all: destruct (cmd =? 40); [|exact Hb].
  all: cbn [fst];
    destruct nextBot_op_move as [->|[[d ->]| ->]]; exact Hb.
Qed.
End bounds.

Lemma state_after_length idx k g :
  length (writeGrid (grids (state_after k idx g))) = length (writeGrid g).
Proof.
  induction k as [|k IH].
  - change (state_after 0 idx g) with (vm_init idx g). unfold vm_init.
    cbn [grids writeGrid]. now upd_len.
  - now rewrite state_after_S, vm_step_length.
Qed.

Lemma fetch_is_a_byte idx g k :
  Forall (fun c => 0 <= c <= 255) (genome (bot (cell_at (readGrid g) idx))) ->
  0 <= fetch idx (grids (state_after k idx g)) <= 255.
Proof.
  intros H. unfold fetch. rewrite state_after_readGrid. now apply fetched_byte.
Qed.

(** At every iteration of the loop the bot in the write grid carries the
    genome of the read grid and indexes within bounds. *)
Lemma bot_before_in_bounds idx g k :
  0 <= idx < NCELLS -> wf_grids g ->
  wf_bot (bot (cell_at (readGrid g) idx)) ->
  in_bounds (genome (bot (cell_at (readGrid g) idx))) (bot_before idx g k).
Proof.
  intros Hidx Hwf (Hip & Hdir & Hlen & Hbytes).
  destruct (wf_grids_length g Hwf) as [_ Hl].
  unfold bot_before. induction k as [|k IH].
  - change (state_after 0 idx g) with (vm_init idx g). unfold vm_init.
    cbn [grids writeGrid]. rewrite nextBot_upd_bot by lia.
    split; [exact Hip|split; [exact Hdir|reflexivity]].
  - rewrite state_after_S, vm_step_writeGrid, state_after_readGrid.
    apply exec_cmd_in_bounds; auto.
    + upd_len. now rewrite state_after_length.
    + now apply fetch_is_a_byte.
    + rewrite nextBot_upd_bot.
      * now apply advance_in_bounds.
      * rewrite state_after_length. lia.
Qed.

(** * The outcomes of [ProcessBot] *)

Lemma exec_cmd_20 idx r w : fst (exec_cmd idx 20 r w) = op_photo idx w.
Proof. reflexivity. Qed.

Section outcomes.
Variables (idx : Z) (g : Grids).
Hypothesis Hidx : 0 <= idx < NCELLS.
Hypothesis Hwf : wf_grids g.

(** Either some iteration decodes a turn-ending command, or the budget of
    [n = 10] iterations is used up with the turn still open. *)
Lemma run_cases (n : nat) :
  n = 10%nat ->
  (exists k c, executes idx g k c /\ (c = 20 \/ c = 30 \/ c = 40)) \/
  ((forall k, (k <= n)%nat -> turnEnded (state_after k idx g) = false) /\
   vm_run idx g = state_after n idx g).
Proof.
  intros Hn. destruct (vm_run_spec idx g) as (m & Hm & _ & Hrun & Hend & Hbefore).
  destruct (turnEnded (state_after m idx g)) eqn:Ht.
  - left. destruct m as [|k].
    { change (state_after 0 idx g) with (vm_init idx g) in Ht. discriminate Ht. }
    pose proof (Hbefore k ltac:(lia)) as Hc. unfold loop_cond in Hc.
    apply andb_true_iff in Hc as [_ Hnot]. apply negb_true_iff in Hnot.
    rewrite state_after_S, vm_step_turnEnded, Hnot, exec_cmd_ends in Ht.
    cbn [orb] in Ht.
    exists k, (fetch idx (grids (state_after k idx g))).
    split; [split; [lia|split; [exact Hnot|reflexivity]]|].
    destruct (Z.eqb_spec (fetch idx (grids (state_after k idx g))) 20); [auto|].
    destruct (Z.eqb_spec (fetch idx (grids (state_after k idx g))) 30); [auto|].
    destruct (Z.eqb_spec (fetch idx (grids (state_after k idx g))) 40); [auto|].
    discriminate Ht.
  - right. unfold loop_cond in Hend.
    rewrite Ht, state_after_commandsExecuted in Hend.
    assert (m = n) as ->.
    { destruct (Z.ltb_spec (Z.of_nat m) 10); [discriminate|lia]. }
    split; [|exact Hrun].
    intros k Hk. exact (state_after_turnEnded_mono idx k n g Hk Ht).
Qed.

Hypothesis Henergy : 0 < energy (bot (cell_at (readGrid g) idx)).

Lemma ProcessBot_idle (n : nat) :
  turnEnded (state_after n idx g) = false ->
  vm_run idx g = state_after n idx g ->
  writeGrid (ProcessBot idx g) =
  upd_bot idx (fun _ => add_energy (-1) (bot_before idx g n)) (writeGrid g).
Proof.
  intros Hnot Hrun. destruct (wf_grids_length g Hwf) as [_ Hl].
  destruct (state_before_ending idx g Hidx Hwf n Hnot) as [Hw _].
  unfold ProcessBot.
  destruct (Z.leb_spec (energy (bot (cell_at (readGrid g) idx))) 0); [lia|].
  cbv zeta. rewrite Hrun. cbn [writeGrid]. rewrite Hw.
  now rewrite upd_bot_upd_bot by lia.
Qed.

Lemma ProcessBot_photo k :
  executes idx g k 20 ->
  writeGrid (ProcessBot idx g) =
  upd_bot idx
    (fun _ => add_energy (-1)
                (set_color GREEN (add_energy 5 (advance (bot_before idx g k)))))
    (writeGrid g).
Proof.
  intros Hex. destruct (wf_grids_length g Hwf) as [_ Hl].
  destruct (ProcessBot_ends idx g Hidx Hwf k 20 Henergy Hex) as [-> _]; [auto|].
  cbn [writeGrid]. rewrite exec_cmd_20. unfold op_photo.
  now rewrite !upd_bot_upd_bot by (upd_len; lia).
Qed.

Lemma ProcessBot_ate k :
  executes idx g k 30 -> 0 < organic (cell_at (readGrid g) idx) ->
  writeGrid (ProcessBot idx g) =
  upd_cell idx
    (fun c =>
       mkCell
         (add_energy (-1)
            (set_color RED
               (add_energy (Z.min (organic (cell_at (readGrid g) idx)) 20)
                           (advance (bot_before idx g k)))))
         (organic c - Z.min (organic (cell_at (readGrid g) idx)) 20))
    (writeGrid g).
Proof.
  intros Hex Hpos. destruct (wf_grids_length g Hwf) as [_ Hl].
  destruct (ProcessBot_eat idx g k Hidx Hwf Henergy Hex) as (-> & _ & _).
  unfold op_eat.
  destruct (Z.ltb_spec 0 (organic (cell_at (readGrid g) idx))); [|lia].
  cbv zeta. set (me := bot_before idx g k). clearbody me.
  apply grid_ext; [now upd_len|]. intros j Hj. revert Hj. upd_len. intros Hj.
  upd_read. destruct (Z.eqb_spec idx j); reflexivity.
Qed.

Lemma ProcessBot_fasted k :
  executes idx g k 30 -> organic (cell_at (readGrid g) idx) <= 0 ->
  writeGrid (ProcessBot idx g) =
  upd_bot idx (fun _ => add_energy (-1) (advance (bot_before idx g k)))
          (writeGrid g).
Proof.
  intros Hex Hnone. destruct (wf_grids_length g Hwf) as [_ Hl].
  destruct (ProcessBot_eat idx g k Hidx Hwf Henergy Hex) as (-> & _ & _).
  unfold op_eat.
  destruct (Z.ltb_spec 0 (organic (cell_at (readGrid g) idx))); [lia|].
  now rewrite upd_bot_upd_bot by lia.
Qed.
End outcomes.

(** Every call of [ProcessBot] on a living bot has one of the outcomes. *)
Lemma ProcessBot_outcome_cases idx g :
  0 <= idx < NCELLS -> wf_grids g ->
  alive (bot (cell_at (readGrid g) idx)) = true ->
  Outcome idx g (writeGrid (ProcessBot idx g)).
Proof.
  intros Hidx Hwf Hal.
  destruct (Z.leb_spec (energy (bot (cell_at (readGrid g) idx))) 0) as [He|He].
  { assert (writeGrid (ProcessBot idx g) = decompose idx (writeGrid g)) as ->.
    { unfold ProcessBot.
      destruct (Z.leb_spec (energy (bot (cell_at (readGrid g) idx))) 0); [|lia].
      reflexivity. }
    now apply Died. }
  destruct (run_cases idx g 10 eq_refl) as [(k & c & Hex & Hc)|[Hnot Hrun]].
  - destruct Hc as [-> | [-> | ->]].
    + rewrite (ProcessBot_photo idx g Hidx Hwf He k Hex). now apply Photosynthesised.
    + destruct (Z.lt_ge_cases 0 (organic (cell_at (readGrid g) idx))) as [Hpos|Hnone].
      * rewrite (ProcessBot_ate idx g Hidx Hwf He k Hex Hpos). now apply Ate.
      * rewrite (ProcessBot_fasted idx g Hidx Hwf He k Hex) by lia.
        apply Fasted; auto; lia.
    + destruct (alive (bot (cell_at (readGrid g) (target idx g k)))) eqn:Hr.
      * rewrite (ProcessBot_attack idx g k Hidx Hwf He Hex Hr). now apply Attacked.
      * destruct (alive (bot (cell_at (writeGrid g) (target idx g k)))) eqn:Hw.
        -- rewrite (ProcessBot_blocked idx g k Hidx Hwf Hal He Hex Hr Hw).
           now apply Blocked.
        -- destruct (ProcessBot_relocate idx g k Hidx Hwf Hal He Hex Hr Hw) as [_ ->].
           now apply Moved.
  - rewrite (ProcessBot_idle idx g Hidx Hwf He 10 (Hnot 10%nat (le_n _)) Hrun).
    now apply (Idled idx g (bot_before idx g 10)).
Qed.

(** * What a turn makes of a bot *)

Lemma wf_bot_in_bounds b b' :
  wf_bot b -> in_bounds (genome b) b' -> wf_bot b'.
Proof.
  intros (_ & _ & Hlen & Hbytes) (Hip & Hdir & HG).
  unfold wf_bot. rewrite HG. auto.
Qed.

Lemma upd_bot_const idx b (w : Grid) :
  upd_bot idx (fun _ => b) w = upd_cell idx (fun c => mkCell b (organic c - 0)) w.
Proof.
  unfold upd_bot, upd_cell. apply list_alter_ext; [|reflexivity].
  intros [b0 o] _. unfold map_bot. cbn. f_equal. lia.
Qed.

Section turn.
Variables (idx : Z) (g : Grids).
Hypothesis Hidx : 0 <= idx < NCELLS.
Hypothesis Hwf : wf_grids g.

Let b := bot (cell_at (readGrid g) idx).

(** The bot found by iteration [k], once its instruction pointer has moved
    past the command and its energy has changed by [d >= -1], is an heir. *)
Lemma heir_of_turn k (F : Bot -> Bot) :
  alive b = true ->
  turnEnded (state_after k idx g) = false ->
  (forall x, alive (F x) = alive x /\ genome (F x) = genome x /\
             ip (F x) = ip x /\ dir (F x) = dir x) ->
  ((forall j, 0 <= j < NCELLS -> alive (bot (cell_at (readGrid g) j)) = true ->
      0 <= energy (bot (cell_at (readGrid g) j))) ->
   forall x, energy x - 1 <= energy (F x)) ->
  (forall cap, 40 <= cap ->
     (forall j, 0 <= j < NCELLS -> alive (bot (cell_at (readGrid g) j)) = true ->
        0 <= energy (bot (cell_at (readGrid g) j)) <= cap) ->
     forall x, energy x <= cap -> energy (F x) <= cap + cap / 2) ->
  heir (readGrid g) idx (F (bot_before idx g k)) /\
  heir (readGrid g) idx (F (advance (bot_before idx g k))).
Proof.
  intros Hal Hnot HF He Hcap.
  destruct (state_before_ending idx g Hidx Hwf k Hnot) as [_ (Ha & Hg & Hen & _)].
  fold b in Ha, Hg, Hen.
  assert (forall x, in_bounds (genome b) x -> wf_bot b -> wf_bot (F x)) as Hwfb.
  { intros x Hx Hb. apply (wf_bot_in_bounds b); [exact Hb|].
    destruct Hx as (H1 & H2 & H3). destruct (HF x) as (_ & F2 & F3 & F4).
    unfold in_bounds. rewrite F2, F3, F4. auto. }
  split.
  - destruct (HF (bot_before idx g k)) as (F1 & F2 & _).
    split; [rewrite F1, Ha; exact Hal|]. split; [rewrite F2; exact Hg|].
    split; [|split].
    + intros Hb. apply Hwfb; [|exact Hb]. now apply bot_before_in_bounds.
    + intros Hpos. specialize (He Hpos (bot_before idx g k)). fold b. lia.
    + intros cap Hc HM. apply (Hcap cap Hc HM). rewrite Hen.
      apply (HM idx Hidx Hal).
  - destruct (HF (advance (bot_before idx g k))) as (F1 & F2 & _).
    split; [rewrite F1; exact (eq_trans Ha Hal)|]. split; [rewrite F2; exact Hg|].
    split; [|split].
    + intros Hb. apply Hwfb; [|exact Hb].
      apply advance_in_bounds. now apply bot_before_in_bounds.
    + intros Hpos. specialize (He Hpos (advance (bot_before idx g k))).
      fold b. change (energy (advance (bot_before idx g k)))
        with (energy (bot_before idx g k)) in He. lia.
    + intros cap Hc HM. apply (Hcap cap Hc HM).
      change (energy (advance (bot_before idx g k)))
        with (energy (bot_before idx g k)).
      rewrite Hen. apply (HM idx Hidx Hal).
Qed.

Lemma Outcome_Effect w' :
  alive b = true -> Outcome idx g w' -> Effect idx g w'.
Proof.
  intros Hal Hout. destruct (wf_grids_length g Hwf) as [_ Hl].
  assert (forall cap, 40 <= cap -> 0 <= cap / 2 /\ 20 <= cap / 2) as Hhalf.
  { intros cap Hc. split; [apply Z.div_pos; lia|].
    apply Z.div_le_lower_bound; lia. }
  destruct Hout as [He|me He Hnot Hme|k He Hex|k He Hex Hpos|k He Hex Hnone
                   |k He Hex Hr|k He Hex Hr Hw|k He Hex Hr Hw].
  - now apply Cleared.
  - rewrite upd_bot_const. apply Stayed; [exact He| |now left].
    rewrite Hme.
    refine (proj1 (heir_of_turn _ (add_energy (-1)) Hal (Hnot _ (le_n _)) _ _ _)).
    + intros x. repeat split.
    + intros _ x. cbn. lia.
    + intros cap Hc _ x Hx. destruct (Hhalf cap Hc). cbn. lia.
  - rewrite upd_bot_const. apply Stayed; [exact He| |now left].
    destruct Hex as (_ & Hnot & _).
    refine (proj2 (heir_of_turn k
              (fun x => add_energy (-1) (set_color GREEN (add_energy 5 x)))
              Hal Hnot _ _ _)).
    + intros x. repeat split.
    + intros _ x. cbn. lia.
    + intros cap Hc _ x Hx. destruct (Hhalf cap Hc). cbn. lia.
  - apply Stayed; [exact He| |right; auto].
    destruct Hex as (_ & Hnot & _).
    refine (proj2 (heir_of_turn k
              (fun x => add_energy (-1)
                          (set_color RED
                             (add_energy (Z.min (organic (cell_at (readGrid g) idx)) 20) x)))
              Hal Hnot _ _ _)).
    + intros x. repeat split.
    + intros _ x. cbn. lia.
    + intros cap Hc _ x Hx. destruct (Hhalf cap Hc). cbn. lia.
  - rewrite upd_bot_const. apply Stayed; [exact He| |now left].
    destruct Hex as (_ & Hnot & _).
    refine (proj2 (heir_of_turn k (add_energy (-1)) Hal Hnot _ _ _)).
    + intros x. repeat split.
    + intros _ x. cbn. lia.
    + intros cap Hc _ x Hx. destruct (Hhalf cap Hc). cbn. lia.
  - rewrite upd_bot_const. apply Stayed; [exact He| |now left].
    pose proof (target_range idx g k Hidx) as Hn.
    destruct Hex as (_ & Hnot & _).
    refine (proj2 (heir_of_turn k
              (add_energy
                 (Z.quot (energy (bot (cell_at (readGrid g) (target idx g k)))) 2 - 1))
              Hal Hnot _ _ _)).
    + intros x. repeat split.
    + intros Hpos x. specialize (Hpos _ Hn Hr). cbn.
      pose proof (Z.quot_pos _ 2 Hpos ltac:(lia)). lia.
    + intros cap Hc HM x Hx. specialize (HM _ Hn Hr). cbn.
      rewrite Z.quot_div_nonneg by lia.
      pose proof (Z.div_le_mono _ _ 2 ltac:(lia) (proj2 HM)). lia.
  - pose proof (target_range idx g k Hidx) as Hn.
    assert (Hnot := Hex). destruct Hnot as (_ & Hnot & _).
    apply Left.
    + exact He.
    + refine (proj2 (heir_of_turn k (fun x => x) Hal Hnot _ _ _)).
      * intros x. repeat split.
      * intros _ x. lia.
      * intros cap Hc _ x Hx. destruct (Hhalf cap Hc). lia.
    + destruct (state_before_ending idx g Hidx Hwf k Hnot) as [_ (_ & _ & Hen & _)].
      exact Hen.
    + reflexivity.
    + intros E. rewrite E in Hr. unfold b in Hal. congruence.
    + exact Hn.
    + eexists. reflexivity.
    + exact Hr.
    + exact Hw.
  - rewrite upd_bot_const. apply Stayed; [exact He| |now left].
    destruct Hex as (_ & Hnot & _).
    refine (proj2 (heir_of_turn k (add_energy (-1)) Hal Hnot _ _ _)).
    + intros x. repeat split.
    + intros _ x. cbn. lia.
    + intros cap Hc _ x Hx. destruct (Hhalf cap Hc). cbn. lia.
Qed.

Lemma ProcessBot_effect :
  alive b = true -> Effect idx g (writeGrid (ProcessBot idx g)).
Proof.
  intros Hal. apply Outcome_Effect; [exact Hal|].
  now apply ProcessBot_outcome_cases.
Qed.
End turn.

(** * One cell of a sweep, seen through its effect *)

Lemma upd_cell_id i f (w : Grid) : (forall c, f c = c) -> upd_cell i f w = w.
Proof. intros H. apply list_alter_id. exact H. Qed.

Section step_effect.
Variables (rand : Z -> Z) (i : Z) (g : Grids).
Hypothesis Hi : 0 <= i < NCELLS.
Hypothesis Hwf : wf_grids g.

Lemma grid_step_alive :
  alive (bot (cell_at (readGrid g) i)) = true ->
  grid_step rand i g = ProcessBot i g.
Proof. intros Hal. unfold grid_step, worker_step. now rewrite Hal. Qed.

Lemma grid_step_empty :
  alive (bot (cell_at (readGrid g) i)) = false ->
  writeGrid (grid_step rand i g) =
  upd_cell i (map_organic (fun o => o + (if rand i >? 999 then 10 else 0)))
           (writeGrid g).
Proof.
  intros Hal. unfold grid_step, worker_step. rewrite Hal.
  destruct (rand i >? 999); [reflexivity|]. cbn [fst writeGrid].
  symmetry. apply upd_cell_id. intros [b o]. unfold map_organic. cbn.
  f_equal. lia.
Qed.

Lemma grid_step_effect :
  alive (bot (cell_at (readGrid g) i)) = true ->
  Effect i g (writeGrid (grid_step rand i g)).
Proof.
  intros Hal. rewrite (grid_step_alive Hal). now apply ProcessBot_effect.
Qed.

(** The living bots of the write grid stay parented. *)
Lemma grid_step_parented :
  (forall j, 0 <= j < NCELLS -> alive (bot (cell_at (writeGrid g) j)) = true ->
     parented (readGrid g) j (bot (cell_at (writeGrid g) j))) ->
  forall j, 0 <= j < NCELLS ->
    alive (bot (cell_at (writeGrid (grid_step rand i g)) j)) = true ->
    parented (readGrid g) j (bot (cell_at (writeGrid (grid_step rand i g)) j)).
Proof.
  intros HP j Hj. destruct (wf_grids_length g Hwf) as [_ Hl].
  destruct (alive (bot (cell_at (readGrid g) i))) eqn:Hal.
  - destruct (grid_step_effect Hal)
      as [He|b' eaten He Hheir _|b' v t He Hheir _ Hv Hne Ht Hd Hr Hw].
    + unfold decompose. upd_read.
      destruct (Z.eqb_spec i j); [discriminate|]. now apply HP.
    + upd_read. destruct (Z.eqb_spec i j) as [<-|Hne]; [|now apply HP].
      intros _. exists i. cbn [bot]. auto 6.
    + upd_read. destruct (Z.eqb_spec i j) as [<-|Hij].
      { unfold map_bot. cbn [bot]. congruence. }
      destruct (Z.eqb_spec t j) as [<-|Htj]; [|now apply HP].
      intros _. exists i. unfold map_bot. cbn [bot]. auto 6.
  - rewrite (grid_step_empty Hal). upd_read.
    destruct (Z.eqb_spec i j); [|now apply HP].
    unfold map_organic. cbn [bot]. now apply HP.
Qed.

(** The step adds exactly the bot of its cell, when that bot has energy
    left and its cell of the write grid is still empty. *)
Lemma grid_step_count_exact :
  (alive (bot (cell_at (readGrid g) i)) = true ->
   alive (bot (cell_at (writeGrid g) i)) = false) ->
  count_alive (writeGrid (grid_step rand i g)) =
  (count_alive (writeGrid g) + Nat.b2n (fit (cell_at (readGrid g) i)))%nat.
Proof.
  intros Hfree. destruct (wf_grids_length g Hwf) as [_ Hl]. unfold fit.
  destruct (alive (bot (cell_at (readGrid g) i))) eqn:Hal.
  - specialize (Hfree eq_refl).
    destruct (grid_step_effect Hal)
      as [He|b' eaten He (Hb' & _) _|b' v t He (Hb' & _) _ Hv Hne Ht Hd Hr Hw].
    + destruct (Z.ltb_spec 0 (energy (bot (cell_at (readGrid g) i)))); [lia|].
      unfold decompose.
      pose proof (count_alive_clear i
        (upd_cell i (map_organic (fun o => o + 50)) (writeGrid g))) as H1.
      rewrite count_alive_upd_cell_keep in H1 by reflexivity.
      revert H1. upd_read. rewrite Z.eqb_refl. unfold map_organic. cbn [bot].
      rewrite Hfree. cbn. lia.
    + destruct (Z.ltb_spec 0 (energy (bot (cell_at (readGrid g) i)))); [|lia].
      pose proof (count_alive_upd_cell i
        (fun c => mkCell b' (organic c - eaten)) (writeGrid g)) as H1.
      revert H1. upd_read. rewrite Z.eqb_refl. cbn [bot]. rewrite Hfree, Hb'.
      cbn. lia.
    + destruct (Z.ltb_spec 0 (energy (bot (cell_at (readGrid g) i)))); [|lia].
      pose proof (count_alive_upd_cell t (map_bot (fun _ => b')) (writeGrid g)) as H1.
      pose proof (count_alive_upd_cell i (map_bot (fun _ => v))
                    (upd_bot t (fun _ => b') (writeGrid g))) as H2.
      fold (upd_bot t (fun _ => b') (writeGrid g)) in H1.
      fold (upd_bot i (fun _ => v) (upd_bot t (fun _ => b') (writeGrid g))) in H2.
      revert H1 H2. upd_read. rewrite !Z.eqb_refl.
      destruct (Z.eqb_spec t i); [lia|]. unfold map_bot. cbn [bot].
      rewrite Hfree, Hw, Hb', Hv. cbn. lia.
  - rewrite (grid_step_empty Hal), count_alive_upd_cell_keep by reflexivity.
    cbn. lia.
Qed.

(** The organic level of the cell of the step. *)
Lemma grid_step_organic_exact :
  let o := organic (cell_at (writeGrid g) i) in
  let ro := organic (cell_at (readGrid g) i) in
  let o' := organic (cell_at (writeGrid (grid_step rand i g)) i) in
  if alive (bot (cell_at (readGrid g) i)) then
    if energy (bot (cell_at (readGrid g) i)) <=? 0 then o' = o + 50
    else o' = o \/ (0 < ro /\ o' = o - Z.min ro 20)
  else o' = o + (if rand i >? 999 then 10 else 0).
Proof.
  cbv zeta. destruct (wf_grids_length g Hwf) as [_ Hl].
  destruct (alive (bot (cell_at (readGrid g) i))) eqn:Hal.
  - destruct (grid_step_effect Hal)
      as [He|b' eaten He _ Heat|b' v t He _ _ Hv Hne Ht Hd Hr Hw].
    + destruct (Z.leb_spec (energy (bot (cell_at (readGrid g) i))) 0); [|lia].
      unfold decompose. upd_read. rewrite Z.eqb_refl. reflexivity.
    + destruct (Z.leb_spec (energy (bot (cell_at (readGrid g) i))) 0); [lia|].
      upd_read. rewrite Z.eqb_refl. cbn [organic].
      destruct Heat as [->|[Hpos ->]]; [left; lia|right; auto].
    + destruct (Z.leb_spec (energy (bot (cell_at (readGrid g) i))) 0); [lia|].
      left. upd_read. rewrite Z.eqb_refl.
      destruct (Z.eqb_spec t i); [lia|]. reflexivity.
  - rewrite (grid_step_empty Hal). upd_read. rewrite Z.eqb_refl. reflexivity.
Qed.
End step_effect.

(** * A sweep, seen through the effects of its steps *)

Section sweep_effect.
Variable rand : Z -> Z.

Lemma sweep_parented l g :
  wf_grids g -> Forall (fun i => 0 <= i < NCELLS) l ->
  (forall j, 0 <= j < NCELLS -> alive (bot (cell_at (writeGrid g) j)) = true ->
     parented (readGrid g) j (bot (cell_at (writeGrid g) j))) ->
  forall j, 0 <= j < NCELLS ->
    alive (bot (cell_at (writeGrid (sweep rand l g)) j)) = true ->
    parented (readGrid g) j (bot (cell_at (writeGrid (sweep rand l g)) j)).
Proof.
  intros Hwf Hl. revert g Hwf.
  induction Hl as [|i l Hi _ IH]; intros g Hwf HP; [exact HP|].
  unfold sweep. cbn [fold_left]. fold (sweep rand l (grid_step rand i g)).
  rewrite <- (grid_step_readGrid rand i g Hi Hwf).
  apply IH; [now apply grid_step_wf|].
  rewrite (grid_step_readGrid rand i g Hi Hwf).
  now apply grid_step_parented.
Qed.

Lemma fit_in_cons r i l :
  fit_in r (i :: l) = (Nat.b2n (fit (cell_at r i)) + fit_in r l)%nat.
Proof. unfold fit_in. simpl. destruct (fit (cell_at r i)); reflexivity. Qed.

(** Every cell visited adds exactly the bot it holds in the read grid, if
    that bot has energy left. *)
Lemma sweep_count_exact l g :
  wf_grids g -> Forall (fun i => 0 <= i < NCELLS) l -> NoDup l ->
  (forall j, j ∈ l -> alive (bot (cell_at (readGrid g) j)) = true ->
     alive (bot (cell_at (writeGrid g) j)) = false) ->
  count_alive (writeGrid (sweep rand l g)) =
  (count_alive (writeGrid g) + fit_in (readGrid g) l)%nat.
Proof.
  intros Hwf Hl. revert g Hwf.
  induction Hl as [|i l Hi Hl IH]; intros g Hwf Hnd Hfree.
  - unfold sweep, fit_in. simpl. lia.
  - apply NoDup_cons in Hnd as [Hni Hnd].
    unfold sweep. cbn [fold_left]. fold (sweep rand l (grid_step rand i g)).
    rewrite IH; [| now apply grid_step_wf | exact Hnd |].
    + rewrite grid_step_readGrid, fit_in_cons by auto.
      rewrite (grid_step_count_exact rand i g Hi Hwf).
      * lia.
      * apply Hfree. apply elem_of_cons. now left.
    + intros j Hj. rewrite grid_step_readGrid by auto. intros Hal.
      assert (0 <= j < NCELLS) as Hjr.
      { rewrite Forall_forall in Hl. now apply Hl. }
      rewrite grid_step_frame; auto; [|lia|congruence].
      apply Hfree; [|exact Hal]. apply elem_of_cons. now right.
Qed.
End sweep_effect.

(** The bots with energy left, met along a list of cells. *)
Lemma fit_in_Permutation (r : Grid) l l' :
  l ≡ₚ l' -> fit_in r l = fit_in r l'.
Proof.
  induction 1 as [|x l l' _ IH|x y l|l l' l'' _ IH1 _ IH2].
  - reflexivity.
  - rewrite !fit_in_cons. congruence.
  - rewrite !fit_in_cons. lia.
  - congruence.
Qed.

Lemma fit_in_prefix (r : Grid) (k : nat) :
  (k <= length r)%nat ->
  fit_in r (seqZ 0 (Z.of_nat k)) = count_fit (take k r).
Proof.
  induction k as [|k IH]; intros Hk; [reflexivity|].
  destruct (lookup_lt_is_Some_2 r k) as [c Hc]; [lia|].
  rewrite seqZ_S, (take_S_r _ _ _ Hc). unfold count_fit.
  rewrite List.filter_app, length_app. fold (count_fit (take k r)).
  rewrite <- IH by lia.
  unfold fit_in at 1. rewrite List.filter_app, length_app. f_equal.
  rewrite Z.add_0_l. simpl.
  rewrite (cell_at_lookup _ _ _ Hc). now destruct (fit c).
Qed.

Lemma fit_in_cell_order (r : Grid) l :
  length r = Z.to_nat NCELLS -> cell_order l -> fit_in r l = count_fit r.
Proof.
  intros Hlen Hperm. pose proof NCELLS_nonneg as Hn.
  rewrite (fit_in_Permutation r _ _ Hperm).
  rewrite <- (Z2Nat.id NCELLS) by exact Hn.
  rewrite fit_in_prefix by lia. now rewrite take_ge by lia.
Qed.

(** * Further properties of a tick, for every order of the cells *)

Section any_order_more.
Variables (rand : Z -> Z) (l : list Z) (wd : World).
Hypothesis Hwd : wf_world wd.
Hypothesis Hl : cell_order l.

Lemma heirs_in_any_order j :
  0 <= j < NCELLS ->
  alive (bot (cell_at (writeGrid (sweep rand l (tick_grids wd))) j)) = true ->
  parented (currentGrid wd) j
           (bot (cell_at (writeGrid (sweep rand l (tick_grids wd))) j)).
Proof.
  destruct (cell_order_facts l Hl) as (_ & Hrange & _).
  apply (sweep_parented rand l (tick_grids wd) (tick_grids_wf wd Hwd) Hrange).
  intros i Hi Hal.
  destruct (tick_grids_cells wd i Hwd Hi) as [Hdead _]. congruence.
Qed.

Lemma survivors_in_any_order :
  count_alive (writeGrid (sweep rand l (tick_grids wd))) =
  count_fit (currentGrid wd).
Proof.
  destruct (cell_order_facts l Hl) as (Hnd & Hrange & _).
  rewrite (sweep_count_exact rand l (tick_grids wd) (tick_grids_wf wd Hwd) Hrange Hnd).
  - change (readGrid (tick_grids wd)) with (currentGrid wd).
    rewrite (fit_in_cell_order (currentGrid wd) l (proj1 Hwd) Hl).
    assert (count_alive (writeGrid (tick_grids wd)) = 0%nat) as ->; [|reflexivity].
    apply count_alive_none. intros j Hj.
    destruct (wf_grids_length _ (tick_grids_wf wd Hwd)) as [_ Hlen].
    apply tick_grids_cells; [exact Hwd|lia].
  - intros j Hj _. rewrite Forall_forall in Hrange.
    now apply tick_grids_cells; [|apply Hrange].
Qed.

Lemma ledger_in_any_order i :
  0 <= i < NCELLS ->
  let o := organic (cell_at (currentGrid wd) i) in
  let o' := organic (cell_at (writeGrid (sweep rand l (tick_grids wd))) i) in
  if alive (bot (cell_at (currentGrid wd) i)) then
    if energy (bot (cell_at (currentGrid wd) i)) <=? 0 then o' = o + 50
    else o' = o \/ (0 < o /\ o' = o - Z.min o 20)
  else o' = o + (if rand i >? 999 then 10 else 0).
Proof.
  intros Hi. cbv zeta.
  destruct (cell_order_facts l Hl) as (Hnd & Hrange & Hall).
  destruct (tick_grids_cells wd i Hwd Hi) as [_ Horg].
  destruct (sweep_around rand l (tick_grids wd) i (tick_grids_wf wd Hwd)
              Hrange Hnd (Hall i Hi)) as (g1 & Hwf1 & Hr1 & Ho1 & -> & _).
  pose proof (grid_step_organic_exact rand i g1 Hi Hwf1) as H. cbv zeta in H.
  rewrite Hr1, Ho1, Horg in H.
  change (readGrid (tick_grids wd)) with (currentGrid wd) in H. exact H.
Qed.
End any_order_more.

(** * The counter of living bots *)

Lemma alive_in_app (r : Grid) l1 l2 :
  alive_in r (l1 ++ l2) = (alive_in r l1 + alive_in r l2)%nat.
Proof. unfold alive_in. now rewrite List.filter_app, length_app. Qed.

Section counter.
Variable rand : Z -> Z.

Lemma worker_step_snd i g c :
  snd (worker_step rand i (g, c)) =
  c + Z.of_nat (Nat.b2n (alive (bot (cell_at (readGrid g) i)))).
Proof.
  unfold worker_step. destruct (alive _); [cbn; lia|].
  destruct (_ >? _); cbn; lia.
Qed.

(** A worker's loop counts the living bots of the read grid it meets. *)
Lemma worker_loop l g c :
  wf_grids g -> Forall (fun i => 0 <= i < NCELLS) l ->
  fold_left (fun acc i => worker_step rand i acc) l (g, c) =
  (sweep rand l g, c + Z.of_nat (alive_in (readGrid g) l)).
Proof.
  intros Hwf Hl. revert g c Hwf.
  induction Hl as [|i l Hi _ IH]; intros g c Hwf.
  - unfold sweep, alive_in. simpl. f_equal. lia.
  - cbn [fold_left].
    pose proof (worker_step_fst rand i g c) as H1.
    pose proof (worker_step_snd i g c) as H2.
    destruct (worker_step rand i (g, c)) as [g' c']. cbn [fst snd] in H1, H2.
    subst g' c'. rewrite IH by (now apply grid_step_wf).
    rewrite grid_step_readGrid by auto. f_equal.
    unfold alive_in at 2. simpl.
    destruct (alive (bot (cell_at (readGrid g) i))); simpl;
      fold (alive_in (readGrid g) l); lia.
Qed.

Lemma workerFunc_spec a b g c :
  wf_grids g -> 0 <= a -> b <= NCELLS ->
  workerFunc rand a b (g, c) =
  (sweep rand (seqZ a (b - a)) g,
   c + Z.of_nat (alive_in (readGrid g) (seqZ a (b - a)))).
Proof.
  intros Hwf Ha Hb. unfold workerFunc, for_range.
  rewrite worker_loop by (auto; apply seqZ_in_range; lia).
  f_equal.
Qed.

Variable tc : Z.
Hypothesis Htc : 1 <= tc.

Lemma workers_prefix_count (m : nat) g c :
  wf_grids g -> Z.of_nat m <= tc - 1 ->
  for_range 0 (Z.of_nat m)
    (fun i st => workerFunc rand (chunk_start tc i) (chunk_stop tc i) st) (g, c) =
  (sweep rand (seqZ 0 (Z.of_nat m * chunkSize tc)) g,
   c + Z.of_nat (alive_in (readGrid g) (seqZ 0 (Z.of_nat m * chunkSize tc)))).
Proof.
  intros Hwf. destruct (chunkSize_bounds tc Htc) as [Hcs Hlast].
  induction m as [|m IH]; intros Hm.
  - unfold for_range, sweep, alive_in. simpl. f_equal. lia.
  - rewrite for_range_S, IH by lia.
    assert (Forall (fun i => 0 <= i < NCELLS) (seqZ 0 (Z.of_nat m * chunkSize tc)))
      as Hr by (apply seqZ_in_range; nia).
    destruct (sweep_wf rand _ g Hr Hwf) as [Hwf' Hr'].
    unfold chunk_stop, chunk_start.
    destruct (Z.eqb_spec (Z.of_nat m) (tc - 1)); [lia|].
    rewrite workerFunc_spec by (auto; nia). rewrite Hr'.
    replace (Z.of_nat m * chunkSize tc + chunkSize tc - Z.of_nat m * chunkSize tc)
      with (chunkSize tc) by lia.
    replace (Z.of_nat (S m) * chunkSize tc)
      with (Z.of_nat m * chunkSize tc + chunkSize tc) by lia.
    rewrite <- (seqZ_0_app (Z.of_nat m * chunkSize tc) (chunkSize tc)) by nia.
    rewrite sweep_app, alive_in_app. apply (f_equal2 pair); [reflexivity|lia].
Qed.

Lemma workers_all_count g c :
  wf_grids g ->
  for_range 0 tc
    (fun i st => workerFunc rand (chunk_start tc i) (chunk_stop tc i) st) (g, c) =
  (sweep rand (seqZ 0 NCELLS) g,
   c + Z.of_nat (alive_in (readGrid g) (seqZ 0 NCELLS))).
Proof.
  intros Hwf. destruct (chunkSize_bounds tc Htc) as [Hcs Hlast].
  assert (0 <= (tc - 1) * chunkSize tc) as Hfirst by nia.
  replace tc with (Z.of_nat (S (Z.to_nat (tc - 1)))) at 1 by lia.
  rewrite for_range_S, workers_prefix_count by (auto; lia).
  rewrite Z2Nat.id by lia.
  assert (Forall (fun i => 0 <= i < NCELLS) (seqZ 0 ((tc - 1) * chunkSize tc)))
    as Hr by (apply seqZ_in_range; lia).
  destruct (sweep_wf rand _ g Hr Hwf) as [Hwf' Hr'].
  unfold chunk_stop, chunk_start. rewrite Z.eqb_refl.
  rewrite workerFunc_spec by (auto; lia). rewrite Hr'.
  replace (seqZ 0 NCELLS)
    with (seqZ 0 ((tc - 1) * chunkSize tc) ++
          seqZ ((tc - 1) * chunkSize tc) (NCELLS - (tc - 1) * chunkSize tc))
    by (rewrite seqZ_0_app by lia; f_equal; lia).
  rewrite sweep_app, alive_in_app. apply (f_equal2 pair); [reflexivity|lia].
Qed.
End counter.

(** [UpdateWorld] in one equation: the swept write grid becomes the
    current grid, the untouched read grid the next one, and the counter
    holds the number of living bots the tick started from. *)
Lemma UpdateWorld_spec rand hc wd :
  wf_world wd -> 0 <= hc <= INT_MAX ->
  UpdateWorld rand hc wd =
  mkWorld (writeGrid (sweep rand (seqZ 0 NCELLS) (tick_grids wd)))
          (currentGrid wd)
          (Z.of_nat (count_alive (currentGrid wd))).
Proof.
  intros Hwd Hhc. pose proof (threadsCount_pos hc Hhc) as Htc.
  pose proof (tick_grids_wf wd Hwd) as Hwf.
  unfold UpdateWorld. cbv zeta.
  change (mkGrids (currentGrid wd)
            (for_range 0 NCELLS (prepare_cell (currentGrid wd)) (nextGrid wd)))
    with (tick_grids wd).
  rewrite (workers_all_count rand (threadsCount hc) Htc (tick_grids wd) 0 Hwf).
  destruct (sweep_wf rand (seqZ 0 NCELLS) (tick_grids wd)) as [_ Hr];
    [apply seqZ_in_range; pose proof NCELLS_nonneg; lia|exact Hwf|].
  rewrite Hr.
  change (readGrid (tick_grids wd)) with (currentGrid wd).
  rewrite (alive_in_cell_order (currentGrid wd) _ (proj1 Hwd) cell_order_seqZ).
  reflexivity.
Qed.

(** * The draws of [InitWorld] *)

Lemma genes_S ds p m :
  genes ds p (S m) = genes ds p m ++ [to_uchar (ds (p + m)%nat)].
Proof. unfold genes. now rewrite seq_S, List.map_app. Qed.

Lemma length_genes ds p m : length (genes ds p m) = m.
Proof. unfold genes. now rewrite length_map, length_seq. Qed.

Lemma bot_eq (b b' : Bot) :
  alive b = alive b' -> genome b = genome b' -> ip b = ip b' ->
  dir b = dir b' -> energy b = energy b' -> color b = color b' -> b = b'.
Proof. destruct b, b'. cbn. congruence. Qed.

Lemma alive_in_ext (r r' : Grid) l :
  (forall j, j ∈ l -> cell_at r j = cell_at r' j) -> alive_in r l = alive_in r' l.
Proof.
  unfold alive_in. induction l as [|x l IH]; intros H; [reflexivity|].
  simpl. rewrite (H x) by (apply elem_of_cons; now left).
  assert (length (List.filter (fun i => alive (bot (cell_at r i))) l) =
          length (List.filter (fun i => alive (bot (cell_at r' i))) l)) as E.
  { apply IH. intros j Hj. apply H. apply elem_of_cons. now right. }
  destruct (alive (bot (cell_at r' x))); simpl; now rewrite E.
Qed.

Lemma alive_in_one (r : Grid) x :
  alive_in r [x] = Nat.b2n (alive (bot (cell_at r x))).
Proof. unfold alive_in. simpl. now destruct (alive (bot (cell_at r x))). Qed.

Section init_exact.
Variable i : Z.

Lemma init_genes_genome (m : nat) (st : Grid * Rng) :
  0 <= i < Z.of_nat (length (fst st)) ->
  (m <= length (genome (bot (cell_at (fst st) i))))%nat ->
  let res := for_range 0 (Z.of_nat m) (init_gene i) st in
  drawn (snd res) = (drawn (snd st) + m)%nat /\
  genome (bot (cell_at (fst res) i)) =
    genes (draws (snd st)) (drawn (snd st)) m ++
    drop m (genome (bot (cell_at (fst st) i))).
Proof.
  intros Hi. induction m as [|m IH]; intros Hm; cbv zeta.
  - change (for_range 0 (Z.of_nat 0) (init_gene i) st) with st.
    split; [lia|]. reflexivity.
  - rewrite for_range_S.
    destruct (init_genes_spec i m st Hi) as (Hlen & Hds & _).
    set (res := for_range 0 (Z.of_nat m) (init_gene i) st) in *.
    destruct IH as [Hdr Hg]; [lia|].
    unfold init_gene. cbn [fst snd byteDist draws drawn].
    split; [lia|]. upd_read. rewrite Z.eqb_refl. cbn [bot map_bot set_gene genome].
    rewrite Hg, Hds, Hdr, Nat2Z.id, genes_S.
    destruct (lookup_lt_is_Some_2 (genome (bot (cell_at (fst st) i))) m) as [x Hx];
      [lia|].
    rewrite (drop_S _ _ _ Hx).
    rewrite insert_app_r_alt by (rewrite length_genes; lia).
    rewrite length_genes, Nat.sub_diag. cbn. now rewrite <- app_assoc.
Qed.

Lemma init_cell_exact (st : Grid * Rng) :
  0 <= i < Z.of_nat (length (fst st)) ->
  (64 <= length (genome (bot (cell_at (fst st) i))))%nat ->
  let res := init_cell i st in
  placed (draws (snd st)) (drawn (snd st)) (cell_at (fst st) i) (cell_at (fst res) i) /\
  drawn (snd res) =
    (drawn (snd st) + 2 + if spawns (draws (snd st) (S (drawn (snd st)))) then 65 else 0)%nat.
Proof.
  intros Hi Hg. cbv zeta. unfold init_cell, placed.
  cbn [byteDist draws drawn fst snd].
  set (ds := draws (snd st)). set (p := drawn (snd st)).
  destruct (spawns (ds (S p))) eqn:Hs.
  - set (grid3 := upd_bot i (set_dir _) _).
    assert (Z.of_nat (length grid3) = Z.of_nat (length (fst st))) as Hl3
      by (unfold grid3; now upd_len).
    assert (bot (cell_at grid3 i) =
            set_dir (to_uchar (Z.rem (ds (S (S p))) 8))
              (set_energy 500 (set_alive true (bot (cell_at (fst st) i))))) as Hb3.
    { unfold grid3. upd_read. rewrite !Z.eqb_refl. reflexivity. }
    change GENOME_SIZE with (Z.of_nat 64).
    destruct (init_genes_spec i 64 (grid3, mkRng ds (S (S (S p)))))
      as (_ & _ & _ & Horg & Ha & Hi' & Hd & He & Hc).
    { cbn [fst]. lia. }
    destruct (init_genes_genome 64 (grid3, mkRng ds (S (S (S p))))) as [Hdr Hgen].
    { cbn [fst]. lia. }
    { cbn [fst]. rewrite Hb3. exact Hg. }
    cbn [fst snd draws drawn] in *. rewrite Hb3 in *.
    cbn [set_dir set_energy set_alive alive genome ip dir energy color]
      in Ha, Hi', Hd, He, Hc, Hgen.
    split; [split|].
    + rewrite Horg. unfold grid3. upd_read. rewrite !Z.eqb_refl. reflexivity.
    + apply bot_eq; cbn [alive genome ip dir energy color]; auto.
      rewrite Hgen. replace (p + 3)%nat with (S (S (S p))) by lia. reflexivity.
    + rewrite Hdr. lia.
  - cbn [fst snd drawn]. split; [split|lia].
    + upd_read. rewrite Z.eqb_refl. reflexivity.
    + upd_read. rewrite Z.eqb_refl. reflexivity.
Qed.
End init_exact.

(** The loop of [InitWorld] after [k] cells, with the position of every
    draw. *)
Lemma init_world_exact (ds : nat -> Z) (grid : Grid) (k : nat) :
  (k <= length grid)%nat ->
  (forall j, 0 <= j < Z.of_nat (length grid) ->
     alive (bot (cell_at grid j)) = false /\
     (64 <= length (genome (bot (cell_at grid j))))%nat) ->
  let st := for_range 0 (Z.of_nat k) init_cell (grid, mkRng ds 0) in
  drawn (snd st) = first_draw (Z.of_nat k) (alive_in (fst st) (seqZ 0 (Z.of_nat k))) /\
  forall j, 0 <= j < Z.of_nat k ->
    placed ds (first_draw j (alive_in (fst st) (seqZ 0 j)))
           (cell_at grid j) (cell_at (fst st) j).
Proof.
  intros Hk Hgrid. induction k as [|k IH]; cbv zeta.
  - split; [reflexivity|]. intros j Hj. lia.
  - destruct (init_world_prefix ds grid k) as (Hlen & Hds & Hrest & _); [lia|].
    rewrite for_range_S.
    set (st := for_range 0 (Z.of_nat k) init_cell (grid, mkRng ds 0)) in *.
    destruct IH as [Hdr Hdone]; [lia|].
    destruct (init_cell_spec (Z.of_nat k) st) as (_ & _ & Hfr & _).
    { rewrite Hlen. lia. }
    destruct (init_cell_exact (Z.of_nat k) st) as [Hpl Hdr'].
    { rewrite Hlen. lia. }
    { rewrite Hrest by lia. apply Hgrid. lia. }
    set (st' := init_cell (Z.of_nat k) st) in *.
    assert (forall m, m <= Z.of_nat k ->
              alive_in (fst st') (seqZ 0 m) = alive_in (fst st) (seqZ 0 m)) as Hsame.
    { intros m Hm. apply alive_in_ext. intros j Hj.
      apply elem_of_seqZ in Hj. apply Hfr; lia. }
    rewrite Hds, Hrest, Hdr in Hpl by lia.
    assert (alive (bot (cell_at (fst st') (Z.of_nat k))) =
            spawns (ds (S (first_draw (Z.of_nat k)
                              (alive_in (fst st) (seqZ 0 (Z.of_nat k))))))) as Hal.
    { destruct Hpl as [_ Hb].
      destruct (spawns _); rewrite Hb; [reflexivity|]. apply Hgrid. lia. }
    split.
    + rewrite Hdr', Hds, Hdr, seqZ_S, alive_in_app, Hsame by lia.
      rewrite alive_in_one, Z.add_0_l, Hal.
      unfold first_draw. rewrite !Nat2Z.id.
      match goal with |- context [Nat.b2n ?c] => destruct c end;
        cbn [Nat.b2n]; lia.
    + intros j Hj. rewrite Hsame by lia.
      destruct (Z.eq_dec j (Z.of_nat k)) as [->|Hne]; [exact Hpl|].
      rewrite Hfr by lia. apply Hdone. lia.
Qed.

(** * The ranges of the workers *)

Lemma worker_cells_prefix tc (m : nat) :
  1 <= tc -> Z.of_nat m <= tc - 1 ->
  flat_map (fun i => seqZ (chunk_start tc i) (chunk_stop tc i - chunk_start tc i))
           (seqZ 0 (Z.of_nat m)) =
  seqZ 0 (Z.of_nat m * chunkSize tc).
Proof.
  intros Htc. destruct (chunkSize_bounds tc Htc) as [Hcs _].
  induction m as [|m IH]; intros Hm; [reflexivity|].
  rewrite seqZ_S, flat_map_app, IH by lia. cbn [flat_map].
  rewrite app_nil_r, Z.add_0_l. unfold chunk_stop, chunk_start.
  destruct (Z.eqb_spec (Z.of_nat m) (tc - 1)); [lia|].
  replace (Z.of_nat m * chunkSize tc + chunkSize tc - Z.of_nat m * chunkSize tc)
    with (chunkSize tc) by lia.
  rewrite seqZ_0_app by nia. f_equal. lia.
Qed.

Lemma worker_cells_all tc : 1 <= tc -> worker_cells tc = seqZ 0 NCELLS.
Proof.
  intros Htc. destruct (chunkSize_bounds tc Htc) as [Hcs Hlast].
  assert (0 <= (tc - 1) * chunkSize tc) as Hfirst by nia.
  unfold worker_cells.
  replace (seqZ 0 tc) with (seqZ 0 (Z.of_nat (S (Z.to_nat (tc - 1)))))
    by (f_equal; lia).
  rewrite seqZ_S, flat_map_app, worker_cells_prefix by lia.
  cbn [flat_map]. rewrite app_nil_r, Z.add_0_l, Z2Nat.id by lia.
  unfold chunk_stop, chunk_start. rewrite Z.eqb_refl.
  rewrite seqZ_0_app by lia. f_equal. lia.
Qed.

(** * The renderer *)

Lemma pixel_of_organic c :
  alive (bot c) = false -> 0 <= organic c ->
  pixel c = mkColor (Z.min (2 * organic c) 255) (Z.min (organic c) 127) 0 255.
Proof.
  intros Hal Ho. unfold pixel, to_uchar. rewrite Hal. cbv zeta.
  rewrite Z.quot_div_nonneg by lia.
  rewrite (Z.mod_small (Z.min (organic c * 2) 255)) by lia.
  assert (Z.min (organic c * 2) 255 / 2 = Z.min (organic c) 127) as ->.
  { destruct (Z.le_gt_cases (organic c) 127).
    - rewrite !Z.min_l by lia. apply Z.div_mul. lia.
    - rewrite !Z.min_r by lia. reflexivity. }
  rewrite Z.mod_small by lia. f_equal. lia.
Qed.

Lemma draw_prefix (grid : Grid) (pixels : list Color) (k : nat) :
  (k <= length pixels)%nat -> (k <= length grid)%nat ->
  for_range 0 (Z.of_nat k)
    (fun i px => <[Z.to_nat i := pixel (cell_at grid i)]> px) pixels =
  List.map pixel (take k grid) ++ drop k pixels.
Proof.
  induction k as [|k IH]; intros Hp Hg; [reflexivity|].
  rewrite for_range_S, IH by lia. rewrite Nat2Z.id.
  destruct (lookup_lt_is_Some_2 grid k) as [c Hc]; [lia|].
  destruct (lookup_lt_is_Some_2 pixels k) as [x Hx]; [lia|].
  rewrite (take_S_r _ _ _ Hc), (drop_S _ _ _ Hx), List.map_app.
  rewrite insert_app_r_alt by (rewrite length_map, length_take; lia).
  rewrite length_map, length_take, Nat.min_l, Nat.sub_diag by lia.
  rewrite (cell_at_lookup _ _ _ Hc). cbn. now rewrite <- app_assoc.
Qed.

(** * Soundness of the bots across a tick *)

Lemma sound_in_any_order rand l wd :
  wf_world wd -> cell_order l -> sound_grid (currentGrid wd) ->
  sound_grid (writeGrid (sweep rand l (tick_grids wd))).
Proof.
  intros Hwd Hl Hs j Hj Hal.
  destruct (heirs_in_any_order rand l wd Hwd Hl j Hj Hal)
    as (i & Hi & Hali & Hei & _ & _ & _ & Hwfb & Hen & _).
  split.
  - apply Hwfb. now apply Hs.
  - assert (energy (bot (cell_at (currentGrid wd) i)) - 1 <=
            energy (bot (cell_at (writeGrid (sweep rand l (tick_grids wd))) j))) as H.
    { apply Hen. intros n Hn Haln. now apply Hs. }
    lia.
Qed.

(** A tick raises the largest energy of a living bot by at most a half. *)
Lemma capped_in_any_order rand l wd cap :
  wf_world wd -> cell_order l -> sound_grid (currentGrid wd) ->
  capped_grid cap (currentGrid wd) -> 40 <= cap ->
  capped_grid (cap + cap / 2) (writeGrid (sweep rand l (tick_grids wd))).
Proof.
  intros Hwd Hl Hs Hc Hcap j Hj Hal.
  destruct (heirs_in_any_order rand l wd Hwd Hl j Hj Hal)
    as (i & _ & _ & _ & _ & _ & _ & _ & _ & Hup).
  apply (Hup cap Hcap). intros n Hn Haln.
  split; [now apply Hs|now apply Hc].
Qed.

Lemma energy_cap_succ n :
  energy_cap (S n) = energy_cap n + energy_cap n / 2.
Proof. reflexivity. Qed.

Lemma energy_cap_lower n : 500 <= energy_cap n.
Proof.
  induction n as [|n IH]; [cbn; lia|]. rewrite energy_cap_succ.
  pose proof (Z.div_pos (energy_cap n) 2 ltac:(lia) ltac:(lia)). lia.
Qed.

Lemma energy_cap_S n : energy_cap n <= energy_cap (S n).
Proof.
  rewrite energy_cap_succ. pose proof (energy_cap_lower n).
  pose proof (Z.div_pos (energy_cap n) 2 ltac:(lia) ltac:(lia)). lia.
Qed.

Lemma organic_after_tick rand hc wd M :
  wf_world wd -> 0 <= hc <= INT_MAX ->
  Forall (fun c => 0 <= organic c <= M) (currentGrid wd) ->
  Forall (fun c => 0 <= organic c <= M + 50) (currentGrid (UpdateWorld rand hc wd)).
Proof.
  intros Hwd Hhc Hpos. rewrite (UpdateWorld_tick_grids rand hc wd Hhc).
  apply Forall_lookup_2. intros n c Hc.
  destruct (sweep_wf rand (seqZ 0 NCELLS) (tick_grids wd)) as [Hwf3 _];
    [apply seqZ_in_range; pose proof NCELLS_nonneg; lia|exact (tick_grids_wf wd Hwd)|].
  assert (0 <= Z.of_nat n < NCELLS) as Hi.
  { apply lookup_lt_Some in Hc. destruct (wf_grids_length _ Hwf3). lia. }
  rewrite <- (cell_at_lookup _ _ _ Hc).
  assert (0 <= organic (cell_at (currentGrid wd) (Z.of_nat n)) <= M) as Ho.
  { destruct (lookup_lt_is_Some_2 (currentGrid wd) n) as [c0 Hc0].
    - destruct Hwd as [Hlen _]. rewrite Hlen. lia.
    - rewrite (cell_at_lookup _ _ _ Hc0).
      exact (Forall_lookup_1 _ _ _ _ Hpos Hc0). }
  pose proof (ledger_in_any_order rand _ wd Hwd cell_order_seqZ _ Hi) as H.
  cbv zeta in H.
  destruct (alive (bot (cell_at (currentGrid wd) (Z.of_nat n)))).
  - destruct (energy (bot (cell_at (currentGrid wd) (Z.of_nat n))) <=? 0); lia.
  - destruct (rand (Z.of_nat n) >? 999); lia.
Qed.

Lemma UpdateWorld_wf rand hc wd :
  wf_world wd -> 0 <= hc <= INT_MAX -> wf_world (UpdateWorld rand hc wd).
Proof.
  intros Hwd Hhc. rewrite (UpdateWorld_spec rand hc wd Hwd Hhc).
  destruct (sweep_wf rand (seqZ 0 NCELLS) (tick_grids wd)) as [[_ Hlen] _];
    [apply seqZ_in_range; pose proof NCELLS_nonneg; lia|exact (tick_grids_wf wd Hwd)|].
  split; [exact Hlen|exact (proj1 Hwd)].
Qed.

(** * The frames of [main] *)

Lemma frames_wf rands hcs n wd :
  wf_world wd -> (forall k, 0 <= hcs k <= INT_MAX) ->
  wf_world (frames rands hcs n wd).
Proof.
  intros Hwd Hhc. induction n as [|n IH]; [exact Hwd|].
  cbn [frames]. now apply UpdateWorld_wf.
Qed.

(** * Concrete worlds for the further properties *)

Lemma cell_at_blank j : cell_at blank_grid j = blank_cell.
Proof.
  unfold cell_at, arr_get, blank_grid.
  destruct (replicate (Z.to_nat NCELLS) blank_cell !! Z.to_nat j) as [c|] eqn:E;
    [|reflexivity].
  apply lookup_replicate in E as [-> _]. reflexivity.
Qed.

Lemma cell_at_insert (n : nat) c (l : Grid) j :
  cell_at (<[n := c]> l) j = cell_at l j \/ cell_at (<[n := c]> l) j = c.
Proof.
  unfold cell_at, arr_get.
  destruct (Nat.eq_dec n (Z.to_nat j)) as [Hn|Hn].
  - subst n. destruct (l !! Z.to_nat j) as [c0|] eqn:E.
    + rewrite list_lookup_insert_eq by (eapply lookup_lt_Some; exact E). now right.
    + left. pose proof E as E'. apply lookup_ge_None in E'.
      rewrite list_insert_ge by exact E'. now rewrite E.
  - left. now rewrite list_lookup_insert_ne by exact Hn.
Qed.

Lemma cell_at_insert_blank (n : nat) c j :
  cell_at (<[n := c]> blank_grid) j = blank_cell \/
  cell_at (<[n := c]> blank_grid) j = c.
Proof.
  destruct (cell_at_insert n c blank_grid j) as [-> | ->]; [left|now right].
  apply cell_at_blank.
Qed.

Lemma genes_bytes ds p m : Forall (fun c => 0 <= c <= 255) (genes ds p m).
Proof.
  induction m as [|m IH]; [constructor|].
  rewrite genes_S. apply Forall_app. split; [exact IH|].
  constructor; [|constructor]. unfold to_uchar.
  pose proof (Z.mod_pos_bound (ds (p + m)%nat) 256). lia.
Qed.

Lemma wf_bot_hunter e : wf_bot (hunter e).
Proof.
  unfold wf_bot, hunter, GENOME_SIZE. cbn [ip dir genome].
  split; [lia|]. split; [lia|]. split; [apply length_replicate|].
  apply Forall_replicate. lia.
Qed.

Lemma wf_bot_sitter e : wf_bot (sitter e).
Proof.
  unfold wf_bot, sitter, GENOME_SIZE. cbn [ip dir genome].
  split; [lia|]. split; [lia|]. split; [apply length_replicate|].
  apply Forall_replicate. lia.
Qed.

Lemma hunter_and_prey_sound e ne :
  0 <= e -> 0 <= ne -> sound_grid (readGrid (hunter_and_prey e ne)).
Proof.
  intros He Hne j Hj. unfold hunter_and_prey. cbn [readGrid].
  destruct (cell_at_insert 1 (mkCell (sitter ne) 0)
              (<[0%nat := mkCell (hunter e) 0]> blank_grid) j) as [-> | ->].
  - destruct (cell_at_insert_blank 0 (mkCell (hunter e) 0) j) as [-> | ->].
    + discriminate.
    + intros _. split; [apply wf_bot_hunter|exact He].
  - intros _. split; [apply wf_bot_sitter|exact Hne].
Qed.

Lemma hunter_world_wf : wf_world hunter_world.
Proof. exact lone_hunter_wf. Qed.

Lemma hunter_world_sound : sound_grid (currentGrid hunter_world).
Proof.
  intros j Hj. unfold hunter_world, lone_hunter. cbn [currentGrid readGrid].
  destruct (cell_at_insert_blank 0 (mkCell (hunter 500) 0) j) as [-> | ->].
  - discriminate.
  - intros _. split; [apply wf_bot_hunter|]. cbn. lia.
Qed.

Lemma hunter_world_capped : capped_grid 500 (currentGrid hunter_world).
Proof.
  intros j Hj. unfold hunter_world, lone_hunter. cbn [currentGrid readGrid].
  destruct (cell_at_insert_blank 0 (mkCell (hunter 500) 0) j) as [-> | ->].
  - discriminate.
  - intros _. cbn. lia.
Qed.

Lemma one_in_range : 0 <= 1 < NCELLS.
Proof. rewrite NCELLS_val. lia. Qed.

Lemma one_worker : 0 <= 1 <= INT_MAX.
Proof. unfold INT_MAX. lia. Qed.

(** * [InitWorld] establishes the invariants of the frames *)

Section init_sound.
Variable ds : nat -> Z.
Hypothesis Hds : forall n, 0 <= ds n <= 255.

Lemma blank_cells_ready j :
  0 <= j < Z.of_nat (length blank_grid) ->
  alive (bot (cell_at blank_grid j)) = false /\
  (64 <= length (genome (bot (cell_at blank_grid j))))%nat.
Proof.
  intros _. rewrite cell_at_blank. split; [reflexivity|].
  unfold blank_cell, blank_bot, GENOME_SIZE. cbn [bot genome].
  rewrite length_replicate. lia.
Qed.

Lemma init_world_length : length (InitWorld ds blank_grid) = Z.to_nat NCELLS.
Proof.
  pose proof NCELLS_nonneg as Hn.
  destruct (init_world_prefix ds blank_grid (Z.to_nat NCELLS)) as (Hl & _);
    [rewrite blank_grid_length; lia|].
  rewrite Z2Nat.id in Hl by exact Hn.
  unfold InitWorld. rewrite Hl. apply blank_grid_length.
Qed.

Lemma init_world_placed i :
  0 <= i < NCELLS ->
  placed ds (first_draw i (alive_in (InitWorld ds blank_grid) (seqZ 0 i)))
         blank_cell (cell_at (InitWorld ds blank_grid) i).
Proof.
  intros Hi. pose proof NCELLS_nonneg as Hn.
  destruct (init_world_exact ds blank_grid (Z.to_nat NCELLS)) as [_ H].
  { rewrite blank_grid_length. lia. }
  { exact blank_cells_ready. }
  rewrite Z2Nat.id in H by exact Hn.
  specialize (H i Hi). rewrite cell_at_blank in H. exact H.
Qed.

Lemma init_world_sound : sound_grid (InitWorld ds blank_grid).
Proof.
  intros i Hi Hal. destruct (init_world_placed i Hi) as [_ Hb].
  destruct (spawns _).
  - rewrite Hb. unfold wf_bot, GENOME_SIZE. cbn [ip dir genome energy bot blank_cell blank_bot].
    split; [|lia]. split; [lia|]. split; [|split].
    + match goal with |- context [ds ?n] => pose proof (Hds n) as Hd end.
      match type of Hd with 0 <= ?x <= 255 =>
        destruct (to_uchar_rem x 8) as [-> Hb8]; [lia|lia|exact Hb8] end.
    + rewrite length_app, length_genes. reflexivity.
    + apply Forall_app. split; [apply genes_bytes|]. constructor.
  - rewrite Hb in Hal. discriminate Hal.
Qed.

Lemma init_world_capped : capped_grid 500 (InitWorld ds blank_grid).
Proof.
  intros i Hi Hal. destruct (init_world_placed i Hi) as [_ Hb].
  destruct (spawns _).
  - rewrite Hb. cbn [energy]. lia.
  - rewrite Hb in Hal. discriminate Hal.
Qed.

Lemma init_world_organic :
  Forall (fun c => 0 <= organic c <= 49) (InitWorld ds blank_grid).
Proof.
  apply Forall_lookup_2. intros n c Hc.
  assert (0 <= Z.of_nat n < NCELLS) as Hi.
  { apply lookup_lt_Some in Hc. rewrite init_world_length in Hc.
    pose proof NCELLS_nonneg. lia. }
  rewrite <- (cell_at_lookup _ _ _ Hc).
  destruct (init_world_placed _ Hi) as [-> _].
  match goal with |- context [ds ?p] =>
    pose proof (Hds p) as Hd;
    pose proof (Z.rem_bound_pos (ds p) 50 ltac:(lia) ltac:(lia)) end.
  lia.
Qed.
End init_sound.

(** * The geometry of the torus *)

(** X1.  The cell that opcode 40 aims at lies on the grid; its column is
    the bot's column moved by [DIR_X] and its row the bot's row moved by
    [DIR_Y], both taken modulo the size of the world: the [+ WORLD_W] and
    [+ WORLD_H] of the source make the truncating remainder of C++ a true
    modulus. *)
Theorem neighbour_wraps_around idx d :
  0 <= idx < NCELLS ->
  0 <= neighbour idx d < NCELLS /\
  neighbour idx d mod WORLD_W = (idx mod WORLD_W + arr_get 0 DIR_X d) mod WORLD_W /\
  neighbour idx d / WORLD_W = (idx / WORLD_W + arr_get 0 DIR_Y d) mod WORLD_H.
Proof.
  intros Hidx. split; [now apply neighbour_range|now apply neighbour_coords].
Qed.

Lemma neighbour_wraps_around_witness :
  0 <= neighbour 0 7 < NCELLS /\
  neighbour 0 7 mod WORLD_W = (0 mod WORLD_W + arr_get 0 DIR_X 7) mod WORLD_W /\
  neighbour 0 7 / WORLD_W = (0 / WORLD_W + arr_get 0 DIR_Y 7) mod WORLD_H.
Proof. apply (neighbour_wraps_around 0 7). exact zero_in_range. Defined.

(** X2.  For a direction in [0, 8) the cell aimed at is never the bot's own
    cell, and two different directions aim at two different cells: a bot
    has eight distinct neighbours. *)
Theorem neighbours_are_eight_other_cells idx d1 d2 :
  0 <= idx < NCELLS -> 0 <= d1 < 8 -> 0 <= d2 < 8 ->
  neighbour idx d1 <> idx /\
  (neighbour idx d1 = neighbour idx d2 -> d1 = d2).
Proof.
  intros Hidx H1 H2. split; [now apply neighbour_not_self|].
  now apply neighbour_injective.
Qed.

Lemma neighbours_are_eight_other_cells_witness :
  neighbour 255 2 <> 255 /\ (neighbour 255 2 = neighbour 255 6 -> 2 = 6).
Proof.
  apply (neighbours_are_eight_other_cells 255 2 6).
  - rewrite NCELLS_val. lia.
  - lia.
  - lia.
Defined.

(** X3.  Going to the neighbour in direction [d] and from there to the
    neighbour in the opposite direction [(d + 4) mod 8] leads back to the
    cell one started from. *)
Theorem opposite_direction_leads_back idx d :
  0 <= idx < NCELLS -> 0 <= d < 8 ->
  neighbour (neighbour idx d) ((d + 4) mod 8) = idx.
Proof.
  intros Hidx Hd.
  pose proof (neighbour_range idx d Hidx) as Hn.
  destruct (neighbour_coords idx d Hidx) as [Hx Hy].
  destruct (neighbour_coords (neighbour idx d) ((d + 4) mod 8) Hn) as [Hx2 Hy2].
  apply index_of_coords.
  - rewrite Hx2, Hx. clear Hx2 Hy2 Hx Hy. rewrite NCELLS_val in *. unfold WORLD_W.
    destruct (dir_offsets d Hd) as [H|[H|[H|[H|[H|[H|[H|H]]]]]]];
    destruct H as (-> & Hdx & _); rewrite Hdx; vm_compute (arr_get _ _ _);
    Z.div_mod_to_equations; lia.
  - rewrite Hy2, Hy. clear Hx2 Hy2 Hx Hy. rewrite NCELLS_val in *.
    unfold WORLD_W, WORLD_H.
    destruct (dir_offsets d Hd) as [H|[H|[H|[H|[H|[H|[H|H]]]]]]];
    destruct H as (-> & _ & Hdy); rewrite Hdy; vm_compute (arr_get _ _ _);
    Z.div_mod_to_equations; lia.
Qed.

Lemma opposite_direction_leads_back_witness :
  neighbour (neighbour 0 7) ((7 + 4) mod 8) = 0.
Proof.
  apply (opposite_direction_leads_back 0 7).
  - exact zero_in_range.
  - lia.
Defined.

(** * The instruction loop stays within its arrays *)

(** X4.  When the bot of the read grid has an instruction pointer below
    [GENOME_SIZE], a direction below 8 and a genome of [GENOME_SIZE] bytes,
    every iteration of the loop of [ProcessBot] finds the bot of the write
    grid with such an instruction pointer and direction and with the same
    genome: the genome is read at an index it has, the command fetched is
    a byte, and the cell aimed at lies on the grid. *)
Theorem turn_stays_in_bounds idx g k :
  0 <= idx < NCELLS -> wf_grids g ->
  wf_bot (bot (cell_at (readGrid g) idx)) ->
  0 <= ip (bot_before idx g k) < GENOME_SIZE /\
  0 <= dir (bot_before idx g k) < 8 /\
  genome (bot_before idx g k) = genome (bot (cell_at (readGrid g) idx)) /\
  is_Some (genome (bot (cell_at (readGrid g) idx))
             !! Z.to_nat (ip (bot_before idx g k))) /\
  0 <= fetch idx (grids (state_after k idx g)) <= 255 /\
  0 <= target idx g k < NCELLS.
Proof.
  intros Hidx Hwf Hb.
  destruct (bot_before_in_bounds idx g k Hidx Hwf Hb) as (Hip & Hdir & Hg).
  destruct Hb as (_ & _ & Hlen & Hbytes).
  split; [exact Hip|]. split; [exact Hdir|]. split; [exact Hg|].
  split; [|split].
  - apply lookup_lt_is_Some_2. rewrite Hlen. unfold GENOME_SIZE in *. lia.
  - now apply fetch_is_a_byte.
  - now apply target_range.
Qed.

Lemma turn_stays_in_bounds_witness :
  0 <= ip (bot_before 0 lone_hunter 3) < GENOME_SIZE /\
  0 <= dir (bot_before 0 lone_hunter 3) < 8 /\
  genome (bot_before 0 lone_hunter 3) = genome (bot (cell_at (readGrid lone_hunter) 0)) /\
  is_Some (genome (bot (cell_at (readGrid lone_hunter) 0))
             !! Z.to_nat (ip (bot_before 0 lone_hunter 3))) /\
  0 <= fetch 0 (grids (state_after 3 0 lone_hunter)) <= 255 /\
  0 <= target 0 lone_hunter 3 < NCELLS.
Proof.
  apply (turn_stays_in_bounds 0 lone_hunter 3).
  - exact zero_in_range.
  - exact lone_hunter_wf.
  - unfold lone_hunter. cbn [readGrid].
    destruct (cell_at_insert_blank 0 (mkCell (hunter 500) 0) 0) as [-> | ->].
    + unfold wf_bot, GENOME_SIZE. cbn.
      split; [lia|]. split; [lia|]. split; [reflexivity|].
      apply (Forall_replicate (fun c => 0 <= c <= 255) 64 0). lia.
    + apply wf_bot_hunter.
Defined.

(** * Opcode 20 *)

(** X5.  A living bot with energy left that decodes opcode 20 ends its
    turn, having run [k + 1] commands; its energy has grown by 5 and has
    paid the existence cost of 1, its colour is the green literal, it is
    alive with the genome it had, the organic level of its cell is left
    alone and no other cell of the write grid is written.  The energy it
    had leaves room for the 5 in an [int], and the new energy is a value
    of [int]. *)
Theorem photosynthesis_gains_five idx g k :
  0 <= idx < NCELLS -> wf_grids g ->
  alive (bot (cell_at (readGrid g) idx)) = true ->
  0 < energy (bot (cell_at (readGrid g) idx)) ->
  executes idx g k 20 ->
  energy (bot (cell_at (readGrid g) idx)) <= INT_MAX - 5 ->
  energy (bot (cell_at (writeGrid (ProcessBot idx g)) idx)) =
    energy (bot (cell_at (readGrid g) idx)) + 5 - 1 /\
  is_int (energy (bot (cell_at (writeGrid (ProcessBot idx g)) idx))) /\
  color (bot (cell_at (writeGrid (ProcessBot idx g)) idx)) = GREEN /\
  alive (bot (cell_at (writeGrid (ProcessBot idx g)) idx)) = true /\
  genome (bot (cell_at (writeGrid (ProcessBot idx g)) idx)) =
    genome (bot (cell_at (readGrid g) idx)) /\
  organic (cell_at (writeGrid (ProcessBot idx g)) idx) =
    organic (cell_at (writeGrid g) idx) /\
  turnEnded (vm_run idx g) = true /\
  commandsExecuted (vm_run idx g) = Z.of_nat k + 1 /\
  (forall j, 0 <= j -> j <> idx ->
     cell_at (writeGrid (ProcessBot idx g)) j = cell_at (writeGrid g) j).
Proof.
  intros Hidx Hwf Hal He Hex Hroom. destruct (wf_grids_length g Hwf) as [_ Hl].
  assert (Hnot := Hex). destruct Hnot as (_ & Hnot & _).
  destruct (state_before_ending idx g Hidx Hwf k Hnot) as (_ & Ha & Hg & Hen & _).
  destruct (ProcessBot_ends idx g Hidx Hwf k 20 He Hex) as (_ & Hend & Hcnt);
    [auto|].
  rewrite (ProcessBot_photo idx g Hidx Hwf He k Hex).
  upd_read. rewrite Z.eqb_refl. cbn [bot organic map_bot].
  cbn [add_energy set_color advance set_ip energy color alive genome].
  rewrite Ha, Hg, Hen.
  split; [lia|]. split; [unfold is_int, INT_MIN, INT_MAX in *; lia|].
  split; [reflexivity|]. split; [exact Hal|].
  split; [reflexivity|]. split; [reflexivity|]. split; [exact Hend|].
  split; [exact Hcnt|].
  intros j Hj Hne. upd_read. destruct (Z.eqb_spec idx j); [congruence|reflexivity].
Qed.

Lemma photosynthesis_gains_five_witness :
  energy (bot (cell_at (writeGrid (ProcessBot 1 (hunter_and_prey 500 300))) 1)) =
    energy (bot (cell_at (readGrid (hunter_and_prey 500 300)) 1)) + 5 - 1 /\
  is_int (energy (bot (cell_at (writeGrid (ProcessBot 1 (hunter_and_prey 500 300))) 1))) /\
  color (bot (cell_at (writeGrid (ProcessBot 1 (hunter_and_prey 500 300))) 1)) = GREEN /\
  alive (bot (cell_at (writeGrid (ProcessBot 1 (hunter_and_prey 500 300))) 1)) = true /\
  genome (bot (cell_at (writeGrid (ProcessBot 1 (hunter_and_prey 500 300))) 1)) =
    genome (bot (cell_at (readGrid (hunter_and_prey 500 300)) 1)) /\
  organic (cell_at (writeGrid (ProcessBot 1 (hunter_and_prey 500 300))) 1) =
    organic (cell_at (writeGrid (hunter_and_prey 500 300)) 1) /\
  turnEnded (vm_run 1 (hunter_and_prey 500 300)) = true /\
  commandsExecuted (vm_run 1 (hunter_and_prey 500 300)) = Z.of_nat 0 + 1 /\
  (forall j, 0 <= j -> j <> 1 ->
     cell_at (writeGrid (ProcessBot 1 (hunter_and_prey 500 300))) j =
     cell_at (writeGrid (hunter_and_prey 500 300)) j).
Proof.
  apply (photosynthesis_gains_five 1 (hunter_and_prey 500 300) 0).
  - exact one_in_range.
  - apply hunter_and_prey_wf.
  - vm_compute. reflexivity.
  - vm_compute. reflexivity.
  - split; [lia|]. split; vm_compute; reflexivity.
  - vm_compute. discriminate.
Defined.

(** * The outcomes of a turn *)

(** X6.  [ProcessBot], called on a cell that holds a living bot, leaves
    the read grid as it is, and leaves the write grid in one of eight
    shapes: the corpse of a bot without energy decomposes; the budget of
    ten commands runs out; the bot photosynthesises; it eats, or finds
    nothing to eat; it attacks, relocates, or finds the cell it aims at
    taken.  This holds for a bot that indexes within bounds, when no sum
    of a shape leaves the range of [int] ([turn_fits]): the energy of the
    bot leaves room for a meal and for half the energy of any other
    living bot, and the organic level of its cell for a corpse and a
    meal.  The organic level that the call leaves in the bot's cell is
    then a value of [int], and so is the energy it leaves there when the
    bot had energy left (a corpse keeps the stale bot of the write
    grid). *)
Theorem turn_outcomes_are_exhaustive idx g :
  0 <= idx < NCELLS -> wf_grids g ->
  alive (bot (cell_at (readGrid g) idx)) = true ->
  wf_bot (bot (cell_at (readGrid g) idx)) ->
  turn_fits idx g ->
  readGrid (ProcessBot idx g) = readGrid g /\
  Outcome idx g (writeGrid (ProcessBot idx g)) /\
  (0 < energy (bot (cell_at (readGrid g) idx)) ->
   is_int (energy (bot (cell_at (writeGrid (ProcessBot idx g)) idx)))) /\
  is_int (organic (cell_at (writeGrid (ProcessBot idx g)) idx)).
Proof.
  intros Hidx Hwf Hal Hb ((Helo & Hehi) & (Holo & Hohi) & Hothers).
  destruct (wf_grids_length g Hwf) as [_ Hl].
  split; [now apply ProcessBot_readGrid|].
  pose proof (ProcessBot_outcome_cases idx g Hidx Hwf Hal) as Hout.
  split; [exact Hout|].
  assert (forall k, turnEnded (state_after k idx g) = false ->
            energy (bot_before idx g k) = energy (bot (cell_at (readGrid g) idx)))
    as Hsame.
  { intros k Hnot.
    now destruct (state_before_ending idx g Hidx Hwf k Hnot) as [_ (_ & _ & H & _)]. }
  unfold is_int, INT_MIN, INT_MAX in *.
  destruct Hout as [He|me He Hnot Hme|k He Hex|k He Hex Hpos|k He Hex Hnone
                   |k He Hex Hr|k He Hex Hr Hw|k He Hex Hr Hw].
  - unfold decompose. upd_read. rewrite Z.eqb_refl.
    cbn [bot organic map_bot map_organic set_alive energy]. lia.
  - upd_read. rewrite Z.eqb_refl.
    cbn [bot organic map_bot add_energy energy]. rewrite Hme.
    rewrite (Hsame _ (Hnot _ (le_n _))). lia.
  - destruct Hex as (_ & Hnot & _). upd_read. rewrite Z.eqb_refl.
    cbn [bot organic map_bot add_energy set_color advance set_ip energy].
    rewrite (Hsame k Hnot). lia.
  - destruct Hex as (_ & Hnot & _). upd_read. rewrite Z.eqb_refl.
    cbn [bot organic add_energy set_color advance set_ip energy].
    rewrite (Hsame k Hnot). lia.
  - destruct Hex as (_ & Hnot & _). upd_read. rewrite Z.eqb_refl.
    cbn [bot organic map_bot add_energy advance set_ip energy].
    rewrite (Hsame k Hnot). lia.
  - pose proof (target_range idx g k Hidx) as Hn.
    assert (target idx g k <> idx) as Hne.
    { unfold target. apply neighbour_not_self; [exact Hidx|].
      now destruct (bot_before_in_bounds idx g k Hidx Hwf Hb) as (_ & Hdir & _). }
    destruct (Hothers _ Hn Hne Hr) as [Hlo Hhi].
    destruct Hex as (_ & Hnot & _). upd_read. rewrite Z.eqb_refl.
    cbn [bot organic map_bot add_energy advance set_ip energy].
    rewrite (Hsame k Hnot).
    pose proof (Z.quot_rem' (energy (bot (cell_at (readGrid g) (target idx g k)))) 2)
      as Hq.
    pose proof (Z.rem_bound_abs (energy (bot (cell_at (readGrid g) (target idx g k)))) 2
                  ltac:(lia)) as Hr2.
    lia.
  - pose proof (target_range idx g k Hidx) as Hn.
    destruct Hex as (_ & Hnot & _). upd_read. rewrite Z.eqb_refl.
    cbn [bot organic map_bot add_energy set_alive advance set_ip energy].
    rewrite (Hsame k Hnot).
    assert (target idx g k <> idx) as Hne
      by (intros E; rewrite E in Hr; congruence).
    destruct (Z.eqb_spec (target idx g k) idx); [congruence|]. lia.
  - destruct Hex as (_ & Hnot & _). upd_read. rewrite Z.eqb_refl.
    cbn [bot organic map_bot add_energy advance set_ip energy].
    rewrite (Hsame k Hnot). lia.
Qed.

Lemma turn_outcomes_are_exhaustive_witness :
  readGrid (ProcessBot 0 (hunter_and_prey 500 301)) =
    readGrid (hunter_and_prey 500 301) /\
  Outcome 0 (hunter_and_prey 500 301)
          (writeGrid (ProcessBot 0 (hunter_and_prey 500 301))) /\
  (0 < energy (bot (cell_at (readGrid (hunter_and_prey 500 301)) 0)) ->
   is_int (energy (bot (cell_at (writeGrid (ProcessBot 0 (hunter_and_prey 500 301))) 0)))) /\
  is_int (organic (cell_at (writeGrid (ProcessBot 0 (hunter_and_prey 500 301))) 0)).
Proof.
  apply (turn_outcomes_are_exhaustive 0 (hunter_and_prey 500 301)).
  - exact zero_in_range.
  - apply hunter_and_prey_wf.
  - vm_compute. reflexivity.
  - apply (hunter_and_prey_sound 500 301); [lia|lia|exact zero_in_range|].
    vm_compute. reflexivity.
  - unfold turn_fits.
    assert (energy (bot (cell_at (readGrid (hunter_and_prey 500 301)) 0)) = 500) as ->
      by (vm_compute; reflexivity).
    assert (organic (cell_at (writeGrid (hunter_and_prey 500 301)) 0) = 0) as ->
      by (vm_compute; reflexivity).
    unfold INT_MIN, INT_MAX. split; [lia|]. split; [lia|].
    intros j Hj Hne. unfold hunter_and_prey. cbn [readGrid].
    destruct (cell_at_insert 1 (mkCell (sitter 301) 0)
                (<[0%nat := mkCell (hunter 500) 0]> blank_grid) j) as [-> | ->].
    + destruct (cell_at_insert_blank 0 (mkCell (hunter 500) 0) j) as [-> | ->].
      * discriminate.
      * intros _. vm_compute. split; discriminate.
    + intros _. vm_compute. split; discriminate.
Defined.

(** X7.  One call of [ProcessBot] on a living bot writes at most two cells
    of the write grid: the bot's own cell and, when the bot relocates, one
    cell [t] that it aims at, which held no living bot in either grid and
    whose organic level is left alone; the own cell then holds no living
    bot. *)
Theorem ProcessBot_writes_two_cells idx g :
  0 <= idx < NCELLS -> wf_grids g ->
  alive (bot (cell_at (readGrid g) idx)) = true ->
  exists t, 0 <= t < NCELLS /\
    (forall j, 0 <= j -> j <> idx -> j <> t ->
       cell_at (writeGrid (ProcessBot idx g)) j = cell_at (writeGrid g) j) /\
    (t <> idx ->
       (exists d, t = neighbour idx d) /\
       alive (bot (cell_at (readGrid g) t)) = false /\
       alive (bot (cell_at (writeGrid g) t)) = false /\
       alive (bot (cell_at (writeGrid (ProcessBot idx g)) t)) = true /\
       organic (cell_at (writeGrid (ProcessBot idx g)) t) =
         organic (cell_at (writeGrid g) t) /\
       alive (bot (cell_at (writeGrid (ProcessBot idx g)) idx)) = false).
Proof.
  intros Hidx Hwf Hal. destruct (wf_grids_length g Hwf) as [_ Hl].
  destruct (ProcessBot_effect idx g Hidx Hwf Hal)
    as [He|b' eaten He _ _|b' v t He (Hb' & _) _ Hv Hne Ht Hd Hr Hw].
  - exists idx. split; [exact Hidx|]. split; [|congruence].
    intros j Hj Hne _. unfold decompose. upd_read.
    destruct (Z.eqb_spec idx j); [congruence|reflexivity].
  - exists idx. split; [exact Hidx|]. split; [|congruence].
    intros j Hj Hne _. upd_read.
    destruct (Z.eqb_spec idx j); [congruence|reflexivity].
  - exists t. split; [exact Ht|]. split.
    + intros j Hj Hji Hjt. upd_read.
      destruct (Z.eqb_spec idx j); [congruence|].
      destruct (Z.eqb_spec t j); [congruence|reflexivity].
    + intros _. split; [exact Hd|]. split; [exact Hr|]. split; [exact Hw|].
      upd_read. rewrite !Z.eqb_refl.
      destruct (Z.eqb_spec idx t); [congruence|].
      cbn [map_bot bot organic]. auto.
Qed.

Lemma ProcessBot_writes_two_cells_witness :
  exists t, 0 <= t < NCELLS /\
    (forall j, 0 <= j -> j <> 0 -> j <> t ->
       cell_at (writeGrid (ProcessBot 0 lone_hunter)) j =
       cell_at (writeGrid lone_hunter) j) /\
    (t <> 0 ->
       (exists d, t = neighbour 0 d) /\
       alive (bot (cell_at (readGrid lone_hunter) t)) = false /\
       alive (bot (cell_at (writeGrid lone_hunter) t)) = false /\
       alive (bot (cell_at (writeGrid (ProcessBot 0 lone_hunter)) t)) = true /\
       organic (cell_at (writeGrid (ProcessBot 0 lone_hunter)) t) =
         organic (cell_at (writeGrid lone_hunter) t) /\
       alive (bot (cell_at (writeGrid (ProcessBot 0 lone_hunter)) 0)) = false).
Proof.
  apply (ProcessBot_writes_two_cells 0 lone_hunter).
  - exact zero_in_range.
  - exact lone_hunter_wf.
  - vm_compute. reflexivity.
Defined.

(** * Further properties of a whole tick *)

(** X8.  After a tick the number of living bots is exactly the number of
    bots that were alive with energy left when the tick started: every
    such bot is in the next grid once, in its cell or in the cell it moved
    to, and no other bot is. *)
Theorem survivors_are_counted_exactly rand hc wd :
  wf_world wd -> 0 <= hc <= INT_MAX ->
  count_alive (currentGrid (UpdateWorld rand hc wd)) = count_fit (currentGrid wd).
Proof.
  intros Hwd Hhc. rewrite (UpdateWorld_tick_grids rand hc wd Hhc).
  exact (survivors_in_any_order rand _ wd Hwd cell_order_seqZ).
Qed.

Lemma survivors_are_counted_exactly_witness :
  count_alive (currentGrid (UpdateWorld (fun _ => 0) 1 hunter_world)) =
  count_fit (currentGrid hunter_world).
Proof.
  apply survivors_are_counted_exactly.
  - exact hunter_world_wf.
  - exact one_worker.
Defined.

(** X9.  The organic level of a cell after a tick, from its level [o]
    before: a cell without a living bot gains 10 when its growth draw is
    above 999 and keeps its level otherwise; the cell of a living bot
    without energy gains 50; the cell of a living bot with energy left
    keeps its level or, when the level is positive, loses [min o 20].
    The level [o] leaves room in an [int] for the 50 units of a corpse,
    and the level after the tick is a value of [int]. *)
Theorem organic_ledger rand hc wd i :
  wf_world wd -> 0 <= hc <= INT_MAX -> 0 <= i < NCELLS ->
  INT_MIN <= organic (cell_at (currentGrid wd) i) <= INT_MAX - 50 ->
  (if alive (bot (cell_at (currentGrid wd) i)) then
    if energy (bot (cell_at (currentGrid wd) i)) <=? 0
    then organic (cell_at (currentGrid (UpdateWorld rand hc wd)) i) =
         organic (cell_at (currentGrid wd) i) + 50
    else organic (cell_at (currentGrid (UpdateWorld rand hc wd)) i) =
         organic (cell_at (currentGrid wd) i) \/
         (0 < organic (cell_at (currentGrid wd) i) /\
          organic (cell_at (currentGrid (UpdateWorld rand hc wd)) i) =
          organic (cell_at (currentGrid wd) i) -
          Z.min (organic (cell_at (currentGrid wd) i)) 20)
  else organic (cell_at (currentGrid (UpdateWorld rand hc wd)) i) =
       organic (cell_at (currentGrid wd) i) + (if rand i >? 999 then 10 else 0)) /\
  is_int (organic (cell_at (currentGrid (UpdateWorld rand hc wd)) i)).
Proof.
  intros Hwd Hhc Hi Ho. rewrite (UpdateWorld_tick_grids rand hc wd Hhc).
  pose proof (ledger_in_any_order rand _ wd Hwd cell_order_seqZ i Hi) as H.
  cbv zeta in H. split; [exact H|].
  unfold is_int, INT_MIN, INT_MAX in *.
  destruct (alive (bot (cell_at (currentGrid wd) i))).
  - destruct (energy (bot (cell_at (currentGrid wd) i)) <=? 0); lia.
  - destruct (rand i >? 999); lia.
Qed.

Lemma organic_ledger_witness :
  (if alive (bot (cell_at (currentGrid hunter_world) 1)) then
    if energy (bot (cell_at (currentGrid hunter_world) 1)) <=? 0
    then organic (cell_at (currentGrid (UpdateWorld (fun _ => 1000) 1 hunter_world)) 1) =
         organic (cell_at (currentGrid hunter_world) 1) + 50
    else organic (cell_at (currentGrid (UpdateWorld (fun _ => 1000) 1 hunter_world)) 1) =
         organic (cell_at (currentGrid hunter_world) 1) \/
         (0 < organic (cell_at (currentGrid hunter_world) 1) /\
          organic (cell_at (currentGrid (UpdateWorld (fun _ => 1000) 1 hunter_world)) 1) =
          organic (cell_at (currentGrid hunter_world) 1) -
          Z.min (organic (cell_at (currentGrid hunter_world) 1)) 20)
  else organic (cell_at (currentGrid (UpdateWorld (fun _ => 1000) 1 hunter_world)) 1) =
       organic (cell_at (currentGrid hunter_world) 1) +
       (if (fun _ : Z => 1000) 1 >? 999 then 10 else 0)) /\
  is_int (organic (cell_at (currentGrid (UpdateWorld (fun _ => 1000) 1 hunter_world)) 1)).
Proof.
  apply (organic_ledger (fun _ => 1000) 1 hunter_world 1).
  - exact hunter_world_wf.
  - exact one_worker.
  - exact one_in_range.
  - vm_compute. split; discriminate.
Defined.

(** X10.  Every living bot of the grid after a tick comes from a bot that
    was alive with energy left before the tick, in the same cell or in a
    cell that aims at it, and carries the genome of that bot: a tick
    neither creates a bot nor changes a genome.  When before the tick the
    energy of every living bot was between 0 and two thirds of [INT_MAX],
    so that no gain of the tick leaves the range of [int], the bot has
    lost at most one unit of energy, and its energy is a value of
    [int]. *)
Theorem bots_are_inherited rand hc wd j :
  wf_world wd -> 0 <= hc <= INT_MAX -> 0 <= j < NCELLS ->
  alive (bot (cell_at (currentGrid (UpdateWorld rand hc wd)) j)) = false \/
  exists i, 0 <= i < NCELLS /\
    alive (bot (cell_at (currentGrid wd) i)) = true /\
    0 < energy (bot (cell_at (currentGrid wd) i)) /\
    (j = i \/ exists d, j = neighbour i d) /\
    genome (bot (cell_at (currentGrid (UpdateWorld rand hc wd)) j)) =
      genome (bot (cell_at (currentGrid wd) i)) /\
    ((forall n, 0 <= n < NCELLS ->
        alive (bot (cell_at (currentGrid wd) n)) = true ->
        0 <= energy (bot (cell_at (currentGrid wd) n)) /\
        3 * energy (bot (cell_at (currentGrid wd) n)) <= 2 * INT_MAX) ->
     energy (bot (cell_at (currentGrid wd) i)) - 1 <=
     energy (bot (cell_at (currentGrid (UpdateWorld rand hc wd)) j)) <= INT_MAX).
Proof.
  intros Hwd Hhc Hj. rewrite (UpdateWorld_tick_grids rand hc wd Hhc).
  destruct (alive (bot (cell_at (writeGrid (sweep rand (seqZ 0 NCELLS) (tick_grids wd))) j)))
    eqn:Hal; [right|now left].
  destruct (heirs_in_any_order rand _ wd Hwd cell_order_seqZ j Hj Hal)
    as (i & Hi & Hali & Hei & Hpos & _ & Hg & _ & Hen & Hup).
  exists i. split; [exact Hi|]. split; [exact Hali|]. split; [exact Hei|].
  split; [exact Hpos|]. split; [exact Hg|].
  intros Hmod. split.
  - apply Hen. intros n Hn Haln. now destruct (Hmod n Hn Haln).
  - assert (energy (bot (cell_at (writeGrid (sweep rand (seqZ 0 NCELLS) (tick_grids wd))) j))
            <= 1431655764 + 1431655764 / 2) as H.
    { apply Hup; [lia|]. intros n Hn Haln.
      destruct (Hmod n Hn Haln) as [H0 H3]. unfold INT_MAX in H3. lia. }
    change (1431655764 / 2) with 715827882 in H. unfold INT_MAX. lia.
Qed.

Lemma bots_are_inherited_witness :
  alive (bot (cell_at (currentGrid (UpdateWorld (fun _ => 0) 1 hunter_world)) 1)) = false \/
  exists i, 0 <= i < NCELLS /\
    alive (bot (cell_at (currentGrid hunter_world) i)) = true /\
    0 < energy (bot (cell_at (currentGrid hunter_world) i)) /\
    (1 = i \/ exists d, 1 = neighbour i d) /\
    genome (bot (cell_at (currentGrid (UpdateWorld (fun _ => 0) 1 hunter_world)) 1)) =
      genome (bot (cell_at (currentGrid hunter_world) i)) /\
    ((forall n, 0 <= n < NCELLS ->
        alive (bot (cell_at (currentGrid hunter_world) n)) = true ->
        0 <= energy (bot (cell_at (currentGrid hunter_world) n)) /\
        3 * energy (bot (cell_at (currentGrid hunter_world) n)) <= 2 * INT_MAX) ->
     energy (bot (cell_at (currentGrid hunter_world) i)) - 1 <=
     energy (bot (cell_at (currentGrid (UpdateWorld (fun _ => 0) 1 hunter_world)) 1))
       <= INT_MAX).
Proof.
  apply (bots_are_inherited (fun _ => 0) 1 hunter_world 1).
  - exact hunter_world_wf.
  - exact one_worker.
  - exact one_in_range.
Defined.

(** X11.  If, when a tick starts, every living bot indexes its genome and
    the direction tables within bounds and has an energy between 0 and
    [cap], where [cap >= 40] and [cap + cap / 2] is a value of [int] (so
    that no gain of the tick overflows), then after the tick every living
    bot indexes within bounds and has an energy between 0 and
    [cap + cap / 2]. *)
Theorem tick_keeps_bots_sound rand hc wd cap :
  wf_world wd -> 0 <= hc <= INT_MAX ->
  sound_grid (currentGrid wd) ->
  capped_grid cap (currentGrid wd) ->
  40 <= cap -> cap + cap / 2 <= INT_MAX ->
  sound_grid (currentGrid (UpdateWorld rand hc wd)) /\
  capped_grid (cap + cap / 2) (currentGrid (UpdateWorld rand hc wd)).
Proof.
  intros Hwd Hhc Hs Hc Hcap _. rewrite (UpdateWorld_tick_grids rand hc wd Hhc).
  split.
  - exact (sound_in_any_order rand _ wd Hwd cell_order_seqZ Hs).
  - exact (capped_in_any_order rand _ wd cap Hwd cell_order_seqZ Hs Hc Hcap).
Qed.

Lemma tick_keeps_bots_sound_witness :
  sound_grid (currentGrid (UpdateWorld (fun _ => 0) 1 hunter_world)) /\
  capped_grid (500 + 500 / 2) (currentGrid (UpdateWorld (fun _ => 0) 1 hunter_world)).
Proof.
  apply tick_keeps_bots_sound.
  - exact hunter_world_wf.
  - exact one_worker.
  - exact hunter_world_sound.
  - exact hunter_world_capped.
  - lia.
  - vm_compute. discriminate.
Defined.

(** X12.  The counter [aliveCount] after a tick is the number of living
    bots of the grid the tick started from, the bots without energy that
    the tick removes included: it is the population before the tick, not
    the population of the grid that the tick produces. *)
Theorem counter_shows_previous_population rand hc wd :
  wf_world wd -> 0 <= hc <= INT_MAX ->
  aliveCount (UpdateWorld rand hc wd) = Z.of_nat (count_alive (currentGrid wd)).
Proof.
  intros Hwd Hhc. now rewrite (UpdateWorld_spec rand hc wd Hwd Hhc).
Qed.

Lemma counter_shows_previous_population_witness :
  aliveCount (UpdateWorld (fun _ => 0) 1 starved_world) =
  Z.of_nat (count_alive (currentGrid starved_world)).
Proof.
  apply counter_shows_previous_population.
  - exact starved_world_wf.
  - exact one_worker.
Defined.

(** X13.  A tick swaps the buffers: the grid it started from is the next
    grid afterwards, cell for cell as it was, and both buffers still hold
    [WORLD_W * WORLD_H] cells. *)
Theorem buffers_are_swapped rand hc wd :
  wf_world wd -> 0 <= hc <= INT_MAX ->
  nextGrid (UpdateWorld rand hc wd) = currentGrid wd /\
  wf_world (UpdateWorld rand hc wd).
Proof.
  intros Hwd Hhc. split; [|now apply UpdateWorld_wf].
  now rewrite (UpdateWorld_spec rand hc wd Hwd Hhc).
Qed.

Lemma buffers_are_swapped_witness :
  nextGrid (UpdateWorld (fun _ => 0) 4 hunter_world) = currentGrid hunter_world /\
  wf_world (UpdateWorld (fun _ => 0) 4 hunter_world).
Proof.
  apply buffers_are_swapped.
  - exact hunter_world_wf.
  - unfold INT_MAX. lia.
Defined.

(** X14.  The ranges handed to the workers, taken in the order in which
    the workers are spawned, are the cells [0 .. WORLD_W * WORLD_H - 1],
    each once and in increasing order, whatever the worker count: the
    last worker takes the remainder of the division. *)
Theorem workers_cover_every_cell_once hc :
  0 <= hc <= INT_MAX ->
  worker_cells (threadsCount hc) = seqZ 0 NCELLS.
Proof.
  intros Hhc. apply worker_cells_all. now apply threadsCount_pos.
Qed.

Lemma workers_cover_every_cell_once_witness :
  worker_cells (threadsCount 3) = seqZ 0 NCELLS.
Proof. apply workers_cover_every_cell_once. unfold INT_MAX. lia. Defined.

(** * The draws of the initialiser *)

(** X15.  [InitWorld], run on buffers that hold no living bot, starts cell
    [i] with the draw number [2 * i + 65 * bots], where [bots] is the
    number of bots placed in the cells before [i]; that draw, reduced
    modulo 50, is the organic level of the cell, and the next draw decides
    whether a bot is placed.  A bot placed is alive with energy 500, its
    direction is the third draw reduced modulo 8, its genome is the 64
    draws that follow, in order, and its instruction pointer and colour are
    those the cell held; a cell without a bot keeps the bot it held. *)
Theorem init_world_draws ds grid i :
  length grid = Z.to_nat NCELLS ->
  (forall j, 0 <= j < NCELLS ->
     alive (bot (cell_at grid j)) = false /\
     (64 <= length (genome (bot (cell_at grid j))))%nat) ->
  0 <= i < NCELLS ->
  placed ds (first_draw i (alive_in (InitWorld ds grid) (seqZ 0 i)))
         (cell_at grid i) (cell_at (InitWorld ds grid) i).
Proof.
  intros Hlen Hgrid Hi. pose proof NCELLS_nonneg as Hn.
  destruct (init_world_exact ds grid (Z.to_nat NCELLS)) as [_ H].
  { lia. }
  { intros j Hj. apply Hgrid. lia. }
  rewrite Z2Nat.id in H by exact Hn. exact (H i Hi).
Qed.

Lemma init_world_draws_witness :
  placed (fun n => Z.of_nat n mod 256)
         (first_draw 0 (alive_in (InitWorld (fun n => Z.of_nat n mod 256) blank_grid)
                                 (seqZ 0 0)))
         (cell_at blank_grid 0)
         (cell_at (InitWorld (fun n => Z.of_nat n mod 256) blank_grid) 0).
Proof.
  apply (init_world_draws (fun n => Z.of_nat n mod 256) blank_grid 0).
  - exact blank_grid_length.
  - intros j Hj. apply blank_cells_ready. rewrite blank_grid_length.
    pose proof NCELLS_nonneg. lia.
  - exact zero_in_range.
Defined.

(** * The run of [main] *)

(** X16.  In the frames of [main] in which no energy can have left the
    range of [int], that is after [InitWorld] and [n] ticks with
    [energy_cap n <= INT_MAX] (the first 37 ticks): both buffers hold
    [WORLD_W * WORLD_H] cells, every living bot has an instruction pointer
    below [GENOME_SIZE], a direction below 8, a genome of [GENOME_SIZE]
    bytes and an energy between 0 and [energy_cap n], and every cell has
    an organic level between 0 and [49 + 50 * n]. *)
Theorem first_frames_are_sound ds rands hcs n :
  (forall k, 0 <= ds k <= 255) ->
  (forall k, 0 <= hcs k <= INT_MAX) ->
  energy_cap n <= INT_MAX ->
  wf_world (frames rands hcs n (start_world ds)) /\
  sound_grid (currentGrid (frames rands hcs n (start_world ds))) /\
  capped_grid (energy_cap n) (currentGrid (frames rands hcs n (start_world ds))) /\
  Forall (fun c => 0 <= organic c <= 49 + 50 * Z.of_nat n)
         (currentGrid (frames rands hcs n (start_world ds))).
Proof.
  intros Hds Hhc. induction n as [|n IH]; intros Hfit.
  - cbn [frames]. split; [|split; [|split]].
    + split; [apply init_world_length|apply blank_grid_length].
    + now apply init_world_sound.
    + now apply init_world_capped.
    + now apply init_world_organic.
  - destruct IH as (Hwd & Hs & Hc & Ho).
    { pose proof (energy_cap_S n). lia. }
    pose proof (energy_cap_lower n) as Hlow.
    cbn [frames]. split; [|split; [|split]].
    + now apply UpdateWorld_wf.
    + rewrite (UpdateWorld_tick_grids _ _ _ (Hhc n)).
      exact (sound_in_any_order _ _ _ Hwd cell_order_seqZ Hs).
    + rewrite (UpdateWorld_tick_grids _ _ _ (Hhc n)), energy_cap_succ.
      apply (capped_in_any_order _ _ _ _ Hwd cell_order_seqZ Hs Hc). lia.
    + replace (49 + 50 * Z.of_nat (S n)) with (49 + 50 * Z.of_nat n + 50) by lia.
      now apply organic_after_tick.
Qed.

Lemma first_frames_are_sound_witness :
  wf_world (frames (fun _ _ => 1000) (fun _ => 4) 37
                   (start_world (fun n => Z.of_nat n mod 256))) /\
  sound_grid (currentGrid (frames (fun _ _ => 1000) (fun _ => 4) 37
                                  (start_world (fun n => Z.of_nat n mod 256)))) /\
  capped_grid (energy_cap 37)
              (currentGrid (frames (fun _ _ => 1000) (fun _ => 4) 37
                                   (start_world (fun n => Z.of_nat n mod 256)))) /\
  Forall (fun c => 0 <= organic c <= 49 + 50 * Z.of_nat 37)
         (currentGrid (frames (fun _ _ => 1000) (fun _ => 4) 37
                              (start_world (fun n => Z.of_nat n mod 256)))).
Proof.
  apply first_frames_are_sound.
  - intros k. pose proof (Z.mod_pos_bound (Z.of_nat k) 256). lia.
  - intros k. unfold INT_MAX. lia.
  - vm_compute. discriminate.
Defined.

(** X17.  Along the frames of [main] the number of living bots never
    grows, and the counter shown in a frame is the number of living bots
    of the frame before. *)
Theorem population_declines_along_frames rands hcs n m wd :
  wf_world wd -> (forall k, 0 <= hcs k <= INT_MAX) ->
  (count_alive (currentGrid (frames rands hcs (m + n) wd)) <=
   count_alive (currentGrid (frames rands hcs n wd)))%nat /\
  aliveCount (frames rands hcs (S n) wd) =
    Z.of_nat (count_alive (currentGrid (frames rands hcs n wd))).
Proof.
  intros Hwd Hhc. split.
  - induction m as [|m IH]; [reflexivity|].
    cbn [Nat.add frames].
    pose proof (frames_wf rands hcs (m + n) wd Hwd Hhc) as Hwf.
    rewrite (UpdateWorld_tick_grids _ _ _ (Hhc (m + n)%nat)).
    pose proof (population_in_any_order (rands (m + n)%nat) _ _ Hwf cell_order_seqZ).
    lia.
  - cbn [frames].
    now rewrite (UpdateWorld_spec _ _ _ (frames_wf rands hcs n wd Hwd Hhc) (Hhc n)).
Qed.

Lemma population_declines_along_frames_witness :
  (count_alive (currentGrid (frames (fun _ _ => 0%Z) (fun _ => 2%Z) (5 + 1) hunter_world)) <=
   count_alive (currentGrid (frames (fun _ _ => 0%Z) (fun _ => 2%Z) 1 hunter_world)))%nat /\
  aliveCount (frames (fun _ _ => 0) (fun _ => 2) 2 hunter_world) =
    Z.of_nat (count_alive (currentGrid (frames (fun _ _ => 0) (fun _ => 2) 1 hunter_world))).
Proof.
  apply (population_declines_along_frames (fun _ _ => 0) (fun _ => 2) 1 5 hunter_world).
  - exact hunter_world_wf.
  - intros k. unfold INT_MAX. lia.
Defined.

(** * The renderer *)

(** X18.  [DrawWorld] overwrites every pixel of a buffer of
    [WORLD_W * WORLD_H] pixels: pixel [i] is the colour computed for cell
    [i], and nothing of the previous content is left. *)
Theorem draw_world_pixels grid pixels :
  length grid = Z.to_nat NCELLS -> length pixels = Z.to_nat NCELLS ->
  DrawWorld grid pixels = List.map pixel grid.
Proof.
  intros Hg Hp. pose proof NCELLS_nonneg as Hn. unfold DrawWorld.
  rewrite <- (Z2Nat.id NCELLS) at 1 by exact Hn.
  rewrite draw_prefix by lia.
  rewrite take_ge, drop_ge by lia. apply app_nil_r.
Qed.

Lemma draw_world_pixels_witness :
  DrawWorld blank_grid (replicate (Z.to_nat NCELLS) (mkColor 0 0 0 255)) =
  List.map pixel blank_grid.
Proof.
  apply draw_world_pixels.
  - exact blank_grid_length.
  - apply length_replicate.
Defined.

(** X19.  The colour of a cell without a living bot and with an organic
    level [o >= 0] whose double is a value of [int]: red is
    [min (2 * o) 255], green is [min o 127], blue is 0 and alpha 255; the
    conversions to [unsigned char] lose nothing, and the shade saturates
    from level 128 on. *)
Theorem organic_shade c :
  alive (bot c) = false -> 0 <= organic c -> organic c * 2 <= INT_MAX ->
  pixel c = mkColor (Z.min (2 * organic c) 255) (Z.min (organic c) 127) 0 255 /\
  (128 <= organic c -> pixel c = mkColor 255 127 0 255).
Proof.
  intros Hal Ho _. rewrite (pixel_of_organic c Hal Ho). split; [reflexivity|].
  intros Hbig. rewrite !Z.min_r by lia. reflexivity.
Qed.

Lemma organic_shade_witness :
  pixel (mkCell blank_bot 35) =
    mkColor (Z.min (2 * organic (mkCell blank_bot 35)) 255)
            (Z.min (organic (mkCell blank_bot 35)) 127) 0 255 /\
  (128 <= organic (mkCell blank_bot 35) ->
   pixel (mkCell blank_bot 35) = mkColor 255 127 0 255).
Proof.
  apply (organic_shade (mkCell blank_bot 35)).
  - reflexivity.
  - cbn. lia.
  - cbn. unfold INT_MAX. lia.
Defined.

(** * Commands that do not end the turn *)

(** X20.  A command other than 20, 30 and 40 leaves the turn open and
    changes nothing but the instruction pointer and the direction of the
    bot: the pointer moves past the command and, for a jump [c < 8], on by
    [c], modulo [GENOME_SIZE]; the direction turns by [c - 10], modulo 8,
    for a turn [10 <= c <= 15]; every other value only uses up one of the
    ten commands of the turn. *)
Theorem quiet_commands idx g k c :
  0 <= idx < NCELLS -> wf_grids g ->
  wf_bot (bot (cell_at (readGrid g) idx)) ->
  executes idx g k c -> c <> 20 -> c <> 30 -> c <> 40 ->
  turnEnded (state_after (S k) idx g) = false /\
  commandsExecuted (state_after (S k) idx g) = Z.of_nat k + 1 /\
  same_body (bot_before idx g k) (bot_before idx g (S k)) /\
  ip (bot_before idx g (S k)) =
    (ip (bot_before idx g k) + 1 + (if c <? 8 then c else 0)) mod GENOME_SIZE /\
  dir (bot_before idx g (S k)) =
    (if (10 <=? c) && (c <=? 15)
     then (dir (bot_before idx g k) + (c - 10)) mod 8
     else dir (bot_before idx g k)) /\
  (forall j, 0 <= j -> j <> idx ->
     cell_at (writeGrid (grids (state_after (S k) idx g))) j =
     cell_at (writeGrid g) j).
Proof.
  intros Hidx Hwf Hb (Hk & Hnot & Hfetch) H20 H30 H40.
  destruct (wf_grids_length g Hwf) as [_ Hl].
  pose proof (fetch_is_a_byte idx g k (proj2 (proj2 (proj2 Hb)))) as Hbyte.
  rewrite Hfetch in Hbyte.
  destruct (bot_before_in_bounds idx g k Hidx Hwf Hb) as (Hip & Hdir & _).
  assert (turnEnded (state_after (S k) idx g) = false) as Hopen.
  { rewrite state_after_S, vm_step_turnEnded, Hnot, exec_cmd_ends, Hfetch.
    destruct (Z.eqb_spec c 20), (Z.eqb_spec c 30), (Z.eqb_spec c 40);
      try lia; reflexivity. }
  split; [exact Hopen|].
  split; [rewrite state_after_commandsExecuted; lia|].
  destruct (state_before_ending idx g Hidx Hwf (S k) Hopen) as [Hw' _].
  assert (bot_before idx g (S k) =
          nextBot idx (fst (exec_cmd idx c (readGrid g)
            (upd_bot idx (fun _ => advance (bot_before idx g k)) (writeGrid g))))) as E.
  { unfold bot_before at 1.
    now rewrite (state_after_decode idx g k Hidx Hwf Hnot), Hfetch. }
  set (me := bot_before idx g k) in *. clearbody me.
  assert (same_body me (bot_before idx g (S k)) /\
          ip (bot_before idx g (S k)) =
            (ip me + 1 + (if c <? 8 then c else 0)) mod GENOME_SIZE /\
          dir (bot_before idx g (S k)) =
            (if (10 <=? c) && (c <=? 15) then (dir me + (c - 10)) mod 8 else dir me))
    as (H1 & H2 & H3).
  { rewrite E. clear E Hw'. unfold exec_cmd, GENOME_SIZE in *.
    destruct (to_uchar_rem (ip me + 1) 64) as [Hadv Hadvb]; [lia|lia|].
    destruct (Z.ltb_spec c 8).
    - cbn [fst]. unfold op_jump. rewrite !nextBot_upd_bot by (upd_len; lia).
      cbn [advance set_ip ip dir]. unfold GENOME_SIZE. rewrite Hadv.
      destruct (to_uchar_rem ((ip me + 1) mod 64 + c) 64) as [-> _]; [lia|lia|].
      rewrite Z.add_mod_idemp_l by lia.
      destruct (Z.leb_spec 10 c); [lia|]. cbn [andb]. repeat split.
    - destruct (Z.leb_spec 10 c), (Z.leb_spec c 15); cbn [andb].
      + cbn [fst]. unfold op_turn. rewrite !nextBot_upd_bot by (upd_len; lia).
        cbn [advance set_ip set_dir ip dir]. unfold GENOME_SIZE. rewrite Hadv.
        destruct (to_uchar_rem (dir me + (c - 10)) 8) as [-> _]; [lia|lia|].
        rewrite Z.add_0_r. repeat split.
      + destruct (Z.eqb_spec c 20); [lia|]. destruct (Z.eqb_spec c 30); [lia|].
        destruct (Z.eqb_spec c 40); [lia|]. cbn [fst].
        rewrite nextBot_upd_bot by lia. cbn [advance set_ip ip dir].
        unfold GENOME_SIZE. rewrite Hadv, Z.add_0_r. repeat split.
      + destruct (Z.eqb_spec c 20); [lia|]. destruct (Z.eqb_spec c 30); [lia|].
        destruct (Z.eqb_spec c 40); [lia|]. cbn [fst].
        rewrite nextBot_upd_bot by lia. cbn [advance set_ip ip dir].
        unfold GENOME_SIZE. rewrite Hadv, Z.add_0_r. repeat split.
      + lia. }
  split; [exact H1|]. split; [exact H2|]. split; [exact H3|].
  intros j Hj Hne. rewrite Hw'. upd_read.
  destruct (Z.eqb_spec idx j); [congruence|reflexivity].
Qed.

Lemma quiet_commands_witness :
  turnEnded (state_after 1 0 idle_grids) = false /\
  commandsExecuted (state_after 1 0 idle_grids) = Z.of_nat 0 + 1 /\
  same_body (bot_before 0 idle_grids 0) (bot_before 0 idle_grids 1) /\
  ip (bot_before 0 idle_grids 1) =
    (ip (bot_before 0 idle_grids 0) + 1 + (if 0 <? 8 then 0 else 0)) mod GENOME_SIZE /\
  dir (bot_before 0 idle_grids 1) =
    (if (10 <=? 0) && (0 <=? 15)
     then (dir (bot_before 0 idle_grids 0) + (0 - 10)) mod 8
     else dir (bot_before 0 idle_grids 0)) /\
  (forall j, 0 <= j -> j <> 0 ->
     cell_at (writeGrid (grids (state_after 1 0 idle_grids))) j =
     cell_at (writeGrid idle_grids) j).
Proof.
  apply (quiet_commands 0 idle_grids 0 0).
  - exact zero_in_range.
  - split; unfold idle_grids; cbn [readGrid writeGrid];
      rewrite ?length_insert; apply blank_grid_length.
  - unfold idle_grids. cbn [readGrid].
    destruct (cell_at_insert_blank 0 (mkCell idler 0) 0) as [-> | ->];
      unfold wf_bot, GENOME_SIZE; cbn;
      (split; [lia|]); (split; [lia|]); (split; [reflexivity|]);
      apply (Forall_replicate (fun c => 0 <= c <= 255) 64 0); lia.
  - split; [lia|]. split; vm_compute; reflexivity.
  - lia.
  - lia.
  - lia.
Defined.

(** * The gain of an attack in a grid of sound bots *)

(** X21.  When no living bot of the read grid has negative energy and the
    attacker's energy leaves room in an [int] for half the energy of the
    neighbour, the truncating division of the attack is the floor: the
    attacker's energy grows by [floor (neighbour energy / 2)], which is not
    negative, before the existence cost of 1, and is a value of [int]. *)
Theorem attack_gain_is_floor_when_sound idx g k :
  0 <= idx < NCELLS -> wf_grids g ->
  alive (bot (cell_at (readGrid g) idx)) = true ->
  0 < energy (bot (cell_at (readGrid g) idx)) ->
  executes idx g k 40 ->
  alive (bot (cell_at (readGrid g) (target idx g k))) = true ->
  sound_grid (readGrid g) ->
  energy (bot (cell_at (readGrid g) idx)) +
    energy (bot (cell_at (readGrid g) (target idx g k))) / 2 <= INT_MAX ->
  energy (bot (cell_at (writeGrid (ProcessBot idx g)) idx)) =
    energy (bot (cell_at (readGrid g) idx)) +
    energy (bot (cell_at (readGrid g) (target idx g k))) / 2 - 1 /\
  0 <= energy (bot (cell_at (readGrid g) (target idx g k))) / 2 /\
  is_int (energy (bot (cell_at (writeGrid (ProcessBot idx g)) idx))).
Proof.
  intros Hidx Hwf Hal He Hex Hn Hs Hroom. destruct (wf_grids_length g Hwf) as [_ Hl].
  pose proof (target_range idx g k Hidx) as Ht.
  destruct (Hs _ Ht Hn) as [_ Hne].
  destruct (me_body idx g k Hidx Hwf Hex) as (_ & _ & Hen & _).
  rewrite (ProcessBot_attack idx g k Hidx Hwf He Hex Hn).
  upd_read. rewrite Z.eqb_refl. cbn [bot map_bot add_energy advance set_ip energy].
  rewrite Hen, Z.quot_div_nonneg by lia.
  pose proof (Z.div_pos (energy (bot (cell_at (readGrid g) (target idx g k)))) 2
                Hne ltac:(lia)) as Hhalf.
  split; [lia|]. split; [exact Hhalf|].
  unfold is_int, INT_MIN, INT_MAX in *. lia.
Qed.

Lemma attack_gain_is_floor_when_sound_witness :
  energy (bot (cell_at (writeGrid (ProcessBot 0 (hunter_and_prey 500 301))) 0)) =
    energy (bot (cell_at (readGrid (hunter_and_prey 500 301)) 0)) +
    energy (bot (cell_at (readGrid (hunter_and_prey 500 301))
                         (target 0 (hunter_and_prey 500 301) 0))) / 2 - 1 /\
  0 <= energy (bot (cell_at (readGrid (hunter_and_prey 500 301))
                            (target 0 (hunter_and_prey 500 301) 0))) / 2 /\
  is_int (energy (bot (cell_at (writeGrid (ProcessBot 0 (hunter_and_prey 500 301))) 0))).
Proof.
  apply (attack_gain_is_floor_when_sound 0 (hunter_and_prey 500 301) 0).
  - exact zero_in_range.
  - apply hunter_and_prey_wf.
  - vm_compute. reflexivity.
  - vm_compute. reflexivity.
  - split; [lia|]. split; vm_compute; reflexivity.
  - vm_compute. reflexivity.
  - apply hunter_and_prey_sound; lia.
  - vm_compute. discriminate.
Defined.

(** * Stage 0 of a tick *)

(** X22.  The preparation loop of [UpdateWorld] leaves the next grid with
    as many cells as before; every cell has the organic level of the same
    cell of the current grid, and its bot is the bot the next grid held,
    marked not alive: the other fields of that stale bot are not reset. *)
Theorem stage_zero_prepares_next_grid wd j :
  wf_world wd -> 0 <= j < NCELLS ->
  length (writeGrid (tick_grids wd)) = length (nextGrid wd) /\
  readGrid (tick_grids wd) = currentGrid wd /\
  cell_at (writeGrid (tick_grids wd)) j =
    mkCell (set_alive false (bot (cell_at (nextGrid wd) j)))
           (organic (cell_at (currentGrid wd) j)).
Proof.
  intros [_ Hn] Hj. pose proof NCELLS_nonneg as Hpos.
  destruct (prepare_spec (currentGrid wd) (nextGrid wd) (Z.to_nat NCELLS))
    as [Hlen Hcell]; [lia|].
  rewrite Z2Nat.id in Hlen, Hcell by exact Hpos.
  unfold tick_grids. cbn [writeGrid readGrid].
  split; [exact Hlen|]. split; [reflexivity|].
  rewrite Hcell by lia. destruct (Z.ltb_spec j NCELLS); [reflexivity|lia].
Qed.

Lemma stage_zero_prepares_next_grid_witness :
  length (writeGrid (tick_grids starved_world)) = length (nextGrid starved_world) /\
  readGrid (tick_grids starved_world) = currentGrid starved_world /\
  cell_at (writeGrid (tick_grids starved_world)) 5 =
    mkCell (set_alive false (bot (cell_at (nextGrid starved_world) 5)))
           (organic (cell_at (currentGrid starved_world) 5)).
Proof.
  apply (stage_zero_prepares_next_grid starved_world 5).
  - exact starved_world_wf.
  - rewrite NCELLS_val. lia.
Defined.
